(** * A shallow embedding of the Gmail gateway [gmail_mcp.py]

    Python values are modelled as follows.
    - [str] is [string]; a text is held in its UTF-8 form, so the check mark of
      the success messages is three bytes, while [len] and slicing count
      characters ([py_len], [py_slice_to]).
    - a dictionary of the remote API with a fixed set of keys is a record; a key
      that the code reads with [.get(key, default)] or tests with [in] is an
      [option] field.
    - [label_map], a dictionary built at run time, is a [gmap string string].
    - an exception is a value of [exn]; a computation that may raise returns an
      [outcome]; a handler runs in the monad [M], which also keeps the log of the
      remote calls issued so far.
    - the validation of an input (the pydantic models) takes place before a
      handler is called: a handler takes a value of its input record. *)

From Stdlib Require Import String Ascii ZArith List Bool Lia.
From Stdlib Require Import Sorting.Sorted Sorting.Permutation.
From stdpp Require Import base option list strings gmap pretty.

Set Warnings "-register-all".

Local Open Scope string_scope.
Local Open Scope list_scope.

(** ** Strings *)

(** The line feed and the double quote, which the literals below cannot hold. *)
Definition LF : string := String (ascii_of_nat 10) EmptyString.
Definition DQ : string := String (ascii_of_nat 34) EmptyString.

(** *** The characters of a text *)

(** A byte that continues a character of several bytes (10xxxxxx). *)
Definition is_continuation (c : ascii) : bool :=
  let n := nat_of_ascii c in (128 <=? n)%nat && (n <? 192)%nat.

(** The character that the byte [c1] starts when [s1] follows it, with the
    number of bytes of [s1] that belong to it: a well-formed sequence of
    UTF-8, neither overlong nor a surrogate nor above U+10FFFF. *)
Definition sequence (c1 : ascii) (s1 : string) : option (N * nat) :=
  let b1 := N_of_ascii c1 in
  if (b1 <? 128)%N then Some (b1, 0)
  else if (b1 <? 194)%N then None
  else
    match s1 with
    | String c2 s2 =>
        let b2 := N_of_ascii c2 in
        if negb (is_continuation c2) then None
        else if (b1 <? 224)%N then Some (((b1 - 192) * 64 + (b2 - 128))%N, 1)
        else
          match s2 with
          | String c3 s3 =>
              let b3 := N_of_ascii c3 in
              if negb (is_continuation c3) then None
              else if (b1 <? 240)%N then
                if (if (b2 <? 160)%N then (b1 =? 224)%N else (b1 =? 237)%N) then None
                else Some (((b1 - 224) * 4096 + (b2 - 128) * 64 + (b3 - 128))%N, 2)
              else
                match s3 with
                | String c4 s4 =>
                    let b4 := N_of_ascii c4 in
                    if negb (is_continuation c4) then None
                    else if (b1 <? 245)%N then
                      if (if (b2 <? 144)%N then (b1 =? 240)%N else (b1 =? 244)%N) then None
                      else Some (((b1 - 240) * 262144 + (b2 - 128) * 4096 +
                                  (b3 - 128) * 64 + (b4 - 128))%N, 3)
                    else None
                | EmptyString => None
                end
          | EmptyString => None
          end
    | EmptyString => None
    end.

(** The characters (code points) of a text, from its UTF-8 form; [skip] is
    the number of bytes at the head that belong to the character before. A
    byte that starts no well-formed sequence stands for itself, as the
    character U+DC00 + byte. *)
Fixpoint chars_from (skip : nat) (s : string) : list N :=
  match s with
  | EmptyString => []
  | String c1 s1 =>
      match skip with
      | S skip' => chars_from skip' s1
      | O =>
          match sequence c1 s1 with
          | Some (c, n) => c :: chars_from n s1
          | None => (56320 + N_of_ascii c1)%N :: chars_from 0 s1
          end
      end
  end.

Definition chars (s : string) : list N := chars_from 0 s.

(** The UTF-8 form of a character; U+DC80 to U+DCFF is the stray byte. *)
Definition utf8 (c : N) : string :=
  let byte n := String (ascii_of_N n) EmptyString in
  if (c <? 128)%N then byte c
  else if (c <? 2048)%N then byte (192 + c / 64)%N +:+ byte (128 + c mod 64)%N
  else if (56448 <=? c)%N && (c <? 56576)%N then byte (c - 56320)%N
  else if (c <? 65536)%N then
    byte (224 + c / 4096)%N +:+ byte (128 + (c / 64) mod 64)%N +:+ byte (128 + c mod 64)%N
  else
    byte (240 + (c / 262144) mod 8)%N +:+ byte (128 + (c / 4096) mod 64)%N +:+
    byte (128 + (c / 64) mod 64)%N +:+ byte (128 + c mod 64)%N.

Fixpoint text (cs : list N) : string :=
  match cs with
  | [] => EmptyString
  | c :: cs' => utf8 c +:+ text cs'
  end.

(** *** str.lower()

    The tables are those of the Unicode Character Database 14.0.0, which
    CPython 3.11 carries: the lowercase mapping of every character that has
    one, as runs [(first, last, step, lowercase of first)], and the
    characters with the properties Cased and Case_Ignorable, as ranges. *)
Definition lowercase_table : list (N * N * N * N) :=
  [
   (65, 90, 1, 97); (192, 214, 1, 224); (216, 222, 1, 248); (256, 302, 2, 257);
   (306, 310, 2, 307); (313, 327, 2, 314); (330, 374, 2, 331); (376, 376, 1, 255);
   (377, 381, 2, 378); (385, 385, 1, 595); (386, 388, 2, 387); (390, 390, 1, 596);
   (391, 391, 1, 392); (393, 394, 1, 598); (395, 395, 1, 396); (398, 398, 1, 477);
   (399, 399, 1, 601); (400, 400, 1, 603); (401, 401, 1, 402); (403, 403, 1, 608);
   (404, 404, 1, 611); (406, 406, 1, 617); (407, 407, 1, 616); (408, 408, 1, 409);
   (412, 412, 1, 623); (413, 413, 1, 626); (415, 415, 1, 629); (416, 420, 2, 417);
   (422, 422, 1, 640); (423, 423, 1, 424); (425, 425, 1, 643); (428, 428, 1, 429);
   (430, 430, 1, 648); (431, 431, 1, 432); (433, 434, 1, 650); (435, 437, 2, 436);
   (439, 439, 1, 658); (440, 440, 1, 441); (444, 444, 1, 445); (452, 452, 1, 454);
   (453, 453, 1, 454); (455, 455, 1, 457); (456, 456, 1, 457); (458, 458, 1, 460);
   (459, 475, 2, 460); (478, 494, 2, 479); (497, 497, 1, 499); (498, 500, 2, 499);
   (502, 502, 1, 405); (503, 503, 1, 447); (504, 542, 2, 505); (544, 544, 1, 414);
   (546, 562, 2, 547); (570, 570, 1, 11365); (571, 571, 1, 572); (573, 573, 1, 410);
   (574, 574, 1, 11366); (577, 577, 1, 578); (579, 579, 1, 384); (580, 580, 1, 649);
   (581, 581, 1, 652); (582, 590, 2, 583); (880, 882, 2, 881); (886, 886, 1, 887);
   (895, 895, 1, 1011); (902, 902, 1, 940); (904, 906, 1, 941); (908, 908, 1, 972);
   (910, 911, 1, 973); (913, 929, 1, 945); (931, 939, 1, 963); (975, 975, 1, 983);
   (984, 1006, 2, 985); (1012, 1012, 1, 952); (1015, 1015, 1, 1016); (1017, 1017, 1, 1010);
   (1018, 1018, 1, 1019); (1021, 1023, 1, 891); (1024, 1039, 1, 1104); (1040, 1071, 1, 1072);
   (1120, 1152, 2, 1121); (1162, 1214, 2, 1163); (1216, 1216, 1, 1231); (1217, 1229, 2, 1218);
   (1232, 1326, 2, 1233); (1329, 1366, 1, 1377); (4256, 4293, 1, 11520);
   (4295, 4295, 1, 11559); (4301, 4301, 1, 11565); (5024, 5103, 1, 43888);
   (5104, 5109, 1, 5112); (7312, 7354, 1, 4304); (7357, 7359, 1, 4349); (7680, 7828, 2, 7681);
   (7838, 7838, 1, 223); (7840, 7934, 2, 7841); (7944, 7951, 1, 7936); (7960, 7965, 1, 7952);
   (7976, 7983, 1, 7968); (7992, 7999, 1, 7984); (8008, 8013, 1, 8000); (8025, 8031, 2, 8017);
   (8040, 8047, 1, 8032); (8072, 8079, 1, 8064); (8088, 8095, 1, 8080); (8104, 8111, 1, 8096);
   (8120, 8121, 1, 8112); (8122, 8123, 1, 8048); (8124, 8124, 1, 8115); (8136, 8139, 1, 8050);
   (8140, 8140, 1, 8131); (8152, 8153, 1, 8144); (8154, 8155, 1, 8054); (8168, 8169, 1, 8160);
   (8170, 8171, 1, 8058); (8172, 8172, 1, 8165); (8184, 8185, 1, 8056); (8186, 8187, 1, 8060);
   (8188, 8188, 1, 8179); (8486, 8486, 1, 969); (8490, 8490, 1, 107); (8491, 8491, 1, 229);
   (8498, 8498, 1, 8526); (8544, 8559, 1, 8560); (8579, 8579, 1, 8580); (9398, 9423, 1, 9424);
   (11264, 11311, 1, 11312); (11360, 11360, 1, 11361); (11362, 11362, 1, 619);
   (11363, 11363, 1, 7549); (11364, 11364, 1, 637); (11367, 11371, 2, 11368);
   (11373, 11373, 1, 593); (11374, 11374, 1, 625); (11375, 11375, 1, 592);
   (11376, 11376, 1, 594); (11378, 11378, 1, 11379); (11381, 11381, 1, 11382);
   (11390, 11391, 1, 575); (11392, 11490, 2, 11393); (11499, 11501, 2, 11500);
   (11506, 11506, 1, 11507); (42560, 42604, 2, 42561); (42624, 42650, 2, 42625);
   (42786, 42798, 2, 42787); (42802, 42862, 2, 42803); (42873, 42875, 2, 42874);
   (42877, 42877, 1, 7545); (42878, 42886, 2, 42879); (42891, 42891, 1, 42892);
   (42893, 42893, 1, 613); (42896, 42898, 2, 42897); (42902, 42920, 2, 42903);
   (42922, 42922, 1, 614); (42923, 42923, 1, 604); (42924, 42924, 1, 609);
   (42925, 42925, 1, 620); (42926, 42926, 1, 618); (42928, 42928, 1, 670);
   (42929, 42929, 1, 647); (42930, 42930, 1, 669); (42931, 42931, 1, 43859);
   (42932, 42946, 2, 42933); (42948, 42948, 1, 42900); (42949, 42949, 1, 642);
   (42950, 42950, 1, 7566); (42951, 42953, 2, 42952); (42960, 42960, 1, 42961);
   (42966, 42968, 2, 42967); (42997, 42997, 1, 42998); (65313, 65338, 1, 65345);
   (66560, 66599, 1, 66600); (66736, 66771, 1, 66776); (66928, 66938, 1, 66967);
   (66940, 66954, 1, 66979); (66956, 66962, 1, 66995); (66964, 66965, 1, 67003);
   (68736, 68786, 1, 68800); (71840, 71871, 1, 71872); (93760, 93791, 1, 93792);
   (125184, 125217, 1, 125218)
  ]%N.

Definition cased_table : list (N * N) :=
  [
   (65, 90); (97, 122); (170, 170); (181, 181); (186, 186); (192, 214); (216, 246); (248, 442);
   (444, 447); (452, 659); (661, 696); (704, 705); (736, 740); (837, 837); (880, 883);
   (886, 887); (890, 893); (895, 895); (902, 902); (904, 906); (908, 908); (910, 929);
   (931, 1013); (1015, 1153); (1162, 1327); (1329, 1366); (1376, 1416); (4256, 4293);
   (4295, 4295); (4301, 4301); (4304, 4346); (4349, 4351); (5024, 5109); (5112, 5117);
   (7296, 7304); (7312, 7354); (7357, 7359); (7424, 7615); (7680, 7957); (7960, 7965);
   (7968, 8005); (8008, 8013); (8016, 8023); (8025, 8025); (8027, 8027); (8029, 8029);
   (8031, 8061); (8064, 8116); (8118, 8124); (8126, 8126); (8130, 8132); (8134, 8140);
   (8144, 8147); (8150, 8155); (8160, 8172); (8178, 8180); (8182, 8188); (8305, 8305);
   (8319, 8319); (8336, 8348); (8450, 8450); (8455, 8455); (8458, 8467); (8469, 8469);
   (8473, 8477); (8484, 8484); (8486, 8486); (8488, 8488); (8490, 8493); (8495, 8500);
   (8505, 8505); (8508, 8511); (8517, 8521); (8526, 8526); (8544, 8575); (8579, 8580);
   (9398, 9449); (11264, 11492); (11499, 11502); (11506, 11507); (11520, 11557);
   (11559, 11559); (11565, 11565); (42560, 42605); (42624, 42653); (42786, 42887);
   (42891, 42894); (42896, 42954); (42960, 42961); (42963, 42963); (42965, 42969);
   (42997, 42998); (43000, 43002); (43824, 43866); (43868, 43880); (43888, 43967);
   (64256, 64262); (64275, 64279); (65313, 65338); (65345, 65370); (66560, 66639);
   (66736, 66771); (66776, 66811); (66928, 66938); (66940, 66954); (66956, 66962);
   (66964, 66965); (66967, 66977); (66979, 66993); (66995, 67001); (67003, 67004);
   (67456, 67456); (67459, 67461); (67463, 67504); (67506, 67514); (68736, 68786);
   (68800, 68850); (71840, 71903); (93760, 93823); (119808, 119892); (119894, 119964);
   (119966, 119967); (119970, 119970); (119973, 119974); (119977, 119980); (119982, 119993);
   (119995, 119995); (119997, 120003); (120005, 120069); (120071, 120074); (120077, 120084);
   (120086, 120092); (120094, 120121); (120123, 120126); (120128, 120132); (120134, 120134);
   (120138, 120144); (120146, 120485); (120488, 120512); (120514, 120538); (120540, 120570);
   (120572, 120596); (120598, 120628); (120630, 120654); (120656, 120686); (120688, 120712);
   (120714, 120744); (120746, 120770); (120772, 120779); (122624, 122633); (122635, 122654);
   (125184, 125251); (127280, 127305); (127312, 127337); (127344, 127369)
  ]%N.

Definition case_ignorable_table : list (N * N) :=
  [
   (39, 39); (46, 46); (58, 58); (94, 94); (96, 96); (168, 168); (173, 173); (175, 175);
   (180, 180); (183, 184); (688, 879); (884, 885); (890, 890); (900, 901); (903, 903);
   (1155, 1161); (1369, 1369); (1375, 1375); (1425, 1469); (1471, 1471); (1473, 1474);
   (1476, 1477); (1479, 1479); (1524, 1524); (1536, 1541); (1552, 1562); (1564, 1564);
   (1600, 1600); (1611, 1631); (1648, 1648); (1750, 1757); (1759, 1768); (1770, 1773);
   (1807, 1807); (1809, 1809); (1840, 1866); (1958, 1968); (2027, 2037); (2042, 2042);
   (2045, 2045); (2070, 2093); (2137, 2139); (2184, 2184); (2192, 2193); (2200, 2207);
   (2249, 2306); (2362, 2362); (2364, 2364); (2369, 2376); (2381, 2381); (2385, 2391);
   (2402, 2403); (2417, 2417); (2433, 2433); (2492, 2492); (2497, 2500); (2509, 2509);
   (2530, 2531); (2558, 2558); (2561, 2562); (2620, 2620); (2625, 2626); (2631, 2632);
   (2635, 2637); (2641, 2641); (2672, 2673); (2677, 2677); (2689, 2690); (2748, 2748);
   (2753, 2757); (2759, 2760); (2765, 2765); (2786, 2787); (2810, 2815); (2817, 2817);
   (2876, 2876); (2879, 2879); (2881, 2884); (2893, 2893); (2901, 2902); (2914, 2915);
   (2946, 2946); (3008, 3008); (3021, 3021); (3072, 3072); (3076, 3076); (3132, 3132);
   (3134, 3136); (3142, 3144); (3146, 3149); (3157, 3158); (3170, 3171); (3201, 3201);
   (3260, 3260); (3263, 3263); (3270, 3270); (3276, 3277); (3298, 3299); (3328, 3329);
   (3387, 3388); (3393, 3396); (3405, 3405); (3426, 3427); (3457, 3457); (3530, 3530);
   (3538, 3540); (3542, 3542); (3633, 3633); (3636, 3642); (3654, 3662); (3761, 3761);
   (3764, 3772); (3782, 3782); (3784, 3789); (3864, 3865); (3893, 3893); (3895, 3895);
   (3897, 3897); (3953, 3966); (3968, 3972); (3974, 3975); (3981, 3991); (3993, 4028);
   (4038, 4038); (4141, 4144); (4146, 4151); (4153, 4154); (4157, 4158); (4184, 4185);
   (4190, 4192); (4209, 4212); (4226, 4226); (4229, 4230); (4237, 4237); (4253, 4253);
   (4348, 4348); (4957, 4959); (5906, 5908); (5938, 5939); (5970, 5971); (6002, 6003);
   (6068, 6069); (6071, 6077); (6086, 6086); (6089, 6099); (6103, 6103); (6109, 6109);
   (6155, 6159); (6211, 6211); (6277, 6278); (6313, 6313); (6432, 6434); (6439, 6440);
   (6450, 6450); (6457, 6459); (6679, 6680); (6683, 6683); (6742, 6742); (6744, 6750);
   (6752, 6752); (6754, 6754); (6757, 6764); (6771, 6780); (6783, 6783); (6823, 6823);
   (6832, 6862); (6912, 6915); (6964, 6964); (6966, 6970); (6972, 6972); (6978, 6978);
   (7019, 7027); (7040, 7041); (7074, 7077); (7080, 7081); (7083, 7085); (7142, 7142);
   (7144, 7145); (7149, 7149); (7151, 7153); (7212, 7219); (7222, 7223); (7288, 7293);
   (7376, 7378); (7380, 7392); (7394, 7400); (7405, 7405); (7412, 7412); (7416, 7417);
   (7468, 7530); (7544, 7544); (7579, 7679); (8125, 8125); (8127, 8129); (8141, 8143);
   (8157, 8159); (8173, 8175); (8189, 8190); (8203, 8207); (8216, 8217); (8228, 8228);
   (8231, 8231); (8234, 8238); (8288, 8292); (8294, 8303); (8305, 8305); (8319, 8319);
   (8336, 8348); (8400, 8432); (11388, 11389); (11503, 11505); (11631, 11631); (11647, 11647);
   (11744, 11775); (11823, 11823); (12293, 12293); (12330, 12333); (12337, 12341);
   (12347, 12347); (12441, 12446); (12540, 12542); (40981, 40981); (42232, 42237);
   (42508, 42508); (42607, 42610); (42612, 42621); (42623, 42623); (42652, 42655);
   (42736, 42737); (42752, 42785); (42864, 42864); (42888, 42890); (42994, 42996);
   (43000, 43001); (43010, 43010); (43014, 43014); (43019, 43019); (43045, 43046);
   (43052, 43052); (43204, 43205); (43232, 43249); (43263, 43263); (43302, 43309);
   (43335, 43345); (43392, 43394); (43443, 43443); (43446, 43449); (43452, 43453);
   (43471, 43471); (43493, 43494); (43561, 43566); (43569, 43570); (43573, 43574);
   (43587, 43587); (43596, 43596); (43632, 43632); (43644, 43644); (43696, 43696);
   (43698, 43700); (43703, 43704); (43710, 43711); (43713, 43713); (43741, 43741);
   (43756, 43757); (43763, 43764); (43766, 43766); (43867, 43871); (43881, 43883);
   (44005, 44005); (44008, 44008); (44013, 44013); (64286, 64286); (64434, 64450);
   (65024, 65039); (65043, 65043); (65056, 65071); (65106, 65106); (65109, 65109);
   (65279, 65279); (65287, 65287); (65294, 65294); (65306, 65306); (65342, 65342);
   (65344, 65344); (65392, 65392); (65438, 65439); (65507, 65507); (65529, 65531);
   (66045, 66045); (66272, 66272); (66422, 66426); (67456, 67461); (67463, 67504);
   (67506, 67514); (68097, 68099); (68101, 68102); (68108, 68111); (68152, 68154);
   (68159, 68159); (68325, 68326); (68900, 68903); (69291, 69292); (69446, 69456);
   (69506, 69509); (69633, 69633); (69688, 69702); (69744, 69744); (69747, 69748);
   (69759, 69761); (69811, 69814); (69817, 69818); (69821, 69821); (69826, 69826);
   (69837, 69837); (69888, 69890); (69927, 69931); (69933, 69940); (70003, 70003);
   (70016, 70017); (70070, 70078); (70089, 70092); (70095, 70095); (70191, 70193);
   (70196, 70196); (70198, 70199); (70206, 70206); (70367, 70367); (70371, 70378);
   (70400, 70401); (70459, 70460); (70464, 70464); (70502, 70508); (70512, 70516);
   (70712, 70719); (70722, 70724); (70726, 70726); (70750, 70750); (70835, 70840);
   (70842, 70842); (70847, 70848); (70850, 70851); (71090, 71093); (71100, 71101);
   (71103, 71104); (71132, 71133); (71219, 71226); (71229, 71229); (71231, 71232);
   (71339, 71339); (71341, 71341); (71344, 71349); (71351, 71351); (71453, 71455);
   (71458, 71461); (71463, 71467); (71727, 71735); (71737, 71738); (71995, 71996);
   (71998, 71998); (72003, 72003); (72148, 72151); (72154, 72155); (72160, 72160);
   (72193, 72202); (72243, 72248); (72251, 72254); (72263, 72263); (72273, 72278);
   (72281, 72283); (72330, 72342); (72344, 72345); (72752, 72758); (72760, 72765);
   (72767, 72767); (72850, 72871); (72874, 72880); (72882, 72883); (72885, 72886);
   (73009, 73014); (73018, 73018); (73020, 73021); (73023, 73029); (73031, 73031);
   (73104, 73105); (73109, 73109); (73111, 73111); (73459, 73460); (78896, 78904);
   (92912, 92916); (92976, 92982); (92992, 92995); (94031, 94031); (94095, 94111);
   (94176, 94177); (94179, 94180); (110576, 110579); (110581, 110587); (110589, 110590);
   (113821, 113822); (113824, 113827); (118528, 118573); (118576, 118598); (119143, 119145);
   (119155, 119170); (119173, 119179); (119210, 119213); (119362, 119364); (121344, 121398);
   (121403, 121452); (121461, 121461); (121476, 121476); (121499, 121503); (121505, 121519);
   (122880, 122886); (122888, 122904); (122907, 122913); (122915, 122916); (122918, 122922);
   (123184, 123197); (123566, 123566); (123628, 123631); (125136, 125142); (125252, 125259);
   (127995, 127999); (917505, 917505); (917536, 917631); (917760, 917999)
  ]%N.

Fixpoint in_ranges (t : list (N * N)) (c : N) : bool :=
  match t with
  | [] => false
  | (first, last) :: t' => ((first <=? c)%N && (c <=? last)%N) || in_ranges t' c
  end.

Definition cased (c : N) : bool := in_ranges cased_table c.
Definition case_ignorable (c : N) : bool := in_ranges case_ignorable_table c.

Fixpoint lowercase_in (t : list (N * N * N * N)) (c : N) : option N :=
  match t with
  | [] => None
  | (first, last, step, target) :: t' =>
      if (first <=? c)%N && (c <=? last)%N && ((c - first) mod step =? 0)%N
      then Some (c - first + target)%N
      else lowercase_in t' c
  end.

(** The lowercase of one character out of context: one character, but for
    U+0130, whose lowercase is i and the combining dot above. *)
Definition lower_char (c : N) : list N :=
  if (c =? 304)%N then [105; 775]%N
  else match lowercase_in lowercase_table c with
       | Some l => [l]
       | None => [c]
       end.

(** Whether no cased letter follows, the case-ignorable characters being
    stepped over. *)
Fixpoint ends_word (rest : list N) : bool :=
  match rest with
  | [] => true
  | c :: rest' => if case_ignorable c then ends_word rest' else negb (cased c)
  end.

(** The lowercase of the characters [cs]; [after_cased] tells whether the
    nearest character before them that is not case-ignorable is cased. The
    capital sigma (U+03A3) becomes the final sigma (U+03C2) after a cased
    letter at the end of a word, and the small sigma (U+03C3) elsewhere. *)
Fixpoint lower_chars (after_cased : bool) (cs : list N) : list N :=
  match cs with
  | [] => []
  | c :: rest =>
      (if (c =? 931)%N
       then [if after_cased && ends_word rest then 962 else 963]%N
       else lower_char c)
      ++ lower_chars (if case_ignorable c then after_cased else cased c) rest
  end.

(** [s.lower()] *)
Definition lower (s : string) : string := text (lower_chars false (chars s)).

(** [s.startswith(p)]. *)
Fixpoint startswith (s p : string) {struct p} : bool :=
  match p with
  | EmptyString => true
  | String a p' =>
      match s with
      | EmptyString => false
      | String b s' => Ascii.eqb a b && startswith s' p'
      end
  end.

(** [sep.join(items)]. *)
Definition join (sep : string) (items : list string) : string :=
  String.concat sep items.

(** [len(s)]: the number of characters, that is of bytes that start one. *)
Fixpoint py_len (s : string) : nat :=
  match s with
  | EmptyString => 0
  | String c s' => if is_continuation c then py_len s' else S (py_len s')
  end.

(** [s[:n]]: the first [n] characters of [s], all of [s] when it has fewer. *)
Fixpoint py_slice_to (n : nat) (s : string) : string :=
  match s with
  | EmptyString => EmptyString
  | String c s' =>
      if is_continuation c then String c (py_slice_to n s')
      else match n with
           | O => EmptyString
           | S n' => String c (py_slice_to n' s')
           end
  end.

(** [str(n)] and the rendering of an integer in an f-string. *)
Definition str_int (n : Z) : string := pretty n.
Definition str_nat (n : nat) : string := pretty n.

(** ** Exceptions *)

(** The exceptions [_handle_api_error] tells apart: [HttpError] with the
    status of its response and its [error_details] attribute when it has one,
    [FileNotFoundError] with its message, and any other exception with the
    name of its type and its message. *)
Inductive exn : Type :=
| HttpError (status : Z) (error_details : option string)
| FileNotFoundError (msg : string)
| PyError (type_name : string) (msg : string).

Inductive outcome (A : Type) : Type :=
| Return (a : A)
| Raise (e : exn).
Arguments Return {A} a.
Arguments Raise {A} e.

Definition outcome_bind {A B : Type} (o : outcome A) (k : A -> outcome B) : outcome B :=
  match o with
  | Return a => k a
  | Raise e => Raise e
  end.

(** ** Error classifier *)

Definition _handle_api_error (e : exn) : string :=
  match e with
  | HttpError status error_details =>
      if (status =? 404)%Z then
        "Error: Resource not found. Please check the ID is correct."
      else if (status =? 403)%Z then
        "Error: Permission denied. Check your Gmail API permissions."
      else if (status =? 429)%Z then
        "Error: Rate limit exceeded. Please wait before making more requests."
      else if (status =? 400)%Z then
        "Error: Invalid request. " +:+
          match error_details with
          | Some details => details
          | None => "Check your parameters."
          end
      else "Error: Gmail API error (status " +:+ str_int status +:+ ")"
  | FileNotFoundError msg => msg
  | PyError type_name msg => "Error: " +:+ type_name +:+ ": " +:+ msg
  end.

(** The six classes of section 4.6, read off the branches of
    [_handle_api_error]: the last class takes both the remote error with
    another status and the exception of another type. *)
Inductive ErrorClass : Type :=
| NotFound | PermissionDenied | RateLimited | InvalidRequest
| CredentialMissing | Unknown.

Definition classify (e : exn) : ErrorClass :=
  match e with
  | HttpError status _ =>
      if (status =? 404)%Z then NotFound
      else if (status =? 403)%Z then PermissionDenied
      else if (status =? 429)%Z then RateLimited
      else if (status =? 400)%Z then InvalidRequest
      else Unknown
  | FileNotFoundError _ => CredentialMissing
  | PyError _ _ => Unknown
  end.

(** ** Data of the remote API *)

(** One entry of [payload['headers']]. *)
Record Header : Type := { name : string; value : string }.

(** [part['body']] and [payload['body']]: the key ['data'] may be missing. *)
Record Body : Type := { data : option string }.

Record Part : Type := { mimeType : string; part_body : Body }.

(** [msg['payload']]: the keys ['parts'] and ['body'] may be missing. *)
Record Payload : Type := {
  headers : list Header;
  parts : option (list Part);
  body : option Body
}.

(** A message resource: ['snippet'] and ['labelIds'] are read with [.get]. *)
Record Message : Type := {
  msg_id : string;
  threadId : string;
  payload : Payload;
  snippet : option string;
  labelIds : option (list string)
}.

(** A label resource, with its keys ['id'], ['name'] and ['type']. *)
Record Label : Type := {
  label_id : string;
  label_name : string;
  label_type : string
}.

(** The documents handed to [json.dumps]: a dictionary keeps the order in
    which its keys were inserted. *)
Inductive json : Type :=
| JString (s : string)
| JInt (n : Z)
| JList (items : list json)
| JDict (items : list (string * json)).

(** ** The Python library

    The library calls of the gateway whose results it only passes on:
    [base64.urlsafe_b64decode], [bytes.decode('utf-8')] and
    [json.dumps(_, indent=2)].  The handlers take them as a parameter; [cpython]
    below is the instance the examples run on. *)
Record Runtime : Type := {
  urlsafe_b64decode : string -> outcome (list Byte.byte);
  decode_utf8 : list Byte.byte -> outcome string;
  dumps : json -> string
}.

(** ** Header/Body codec *)

Section Codec.
Variable rt : Runtime.

(** [base64.urlsafe_b64decode(data).decode('utf-8')] *)
Definition decode_data (d : string) : outcome string :=
  outcome_bind (urlsafe_b64decode rt d) (decode_utf8 rt).

(** The loop over [payload['parts']], entered with the current [body]:
    a text/plain part with data ends it ([break]); a text/html part with
    data is decoded while [body] is still empty. *)
Fixpoint decode_parts (ps : list Part) (body : string) : outcome string :=
  match ps with
  | [] => Return body
  | part :: ps' =>
      if String.eqb (mimeType part) "text/plain" then
        match data (part_body part) with
        | Some d => decode_data d
        | None => decode_parts ps' body
        end
      else if String.eqb (mimeType part) "text/html" && String.eqb body "" then
        match data (part_body part) with
        | Some d => outcome_bind (decode_data d) (decode_parts ps')
        | None => decode_parts ps' body
        end
      else decode_parts ps' body
  end.

Definition _decode_message_body (payload : Payload) : outcome string :=
  match parts payload with
  | Some ps => decode_parts ps ""
  | None =>
      match body payload with
      | Some {| data := Some d |} => decode_data d
      | _ => Return ""
      end
  end.
End Codec.

Fixpoint _get_header_value (headers : list Header) (name' : string) : string :=
  match headers with
  | [] => ""
  | header :: rest =>
      if String.eqb (lower (name header)) (lower name') then value header
      else _get_header_value rest name'
  end.

(** The reply subject of [reply_to_email]. *)
Definition reply_subject (subject : string) : string :=
  if negb (startswith (lower subject) "re:") then "Re: " +:+ subject
  else subject.

(** ** Inputs of the operations (the pydantic models) *)

Inductive ResponseFormat : Type := MARKDOWN | JSON.

Module SearchEmailsInput.
Record t : Type := {
  query : string;
  max_results : Z;
  include_body : bool;
  response_format : ResponseFormat
}.
End SearchEmailsInput.

Module GetEmailInput.
Record t : Type := { message_id : string; response_format : ResponseFormat }.
End GetEmailInput.

Module SendEmailInput.
Record t : Type := {
  to : list string;
  subject : string;
  body : string;
  cc : option (list string);
  bcc : option (list string);
  reply_to : option string;
  is_html : bool
}.
End SendEmailInput.

Module ReplyToEmailInput.
Record t : Type := {
  thread_id : string;
  body : string;
  reply_all : bool;
  is_html : bool
}.
End ReplyToEmailInput.

Module ModifyLabelsInput.
Record t : Type := {
  message_ids : list string;
  add_labels : option (list string);
  remove_labels : option (list string)
}.
End ModifyLabelsInput.

Module ArchiveEmailsInput.
Record t : Type := { message_ids : list string }.
End ArchiveEmailsInput.

Module DeleteEmailsInput.
Record t : Type := { message_ids : list string }.
End DeleteEmailsInput.

Module ListLabelsInput.
Record t : Type := { response_format : ResponseFormat }.
End ListLabelsInput.

Module CreateLabelInput.
Record t : Type := {
  name : string;
  label_list_visibility : string;
  message_list_visibility : string
}.
End CreateLabelInput.

(** ** The remote mailbox API *)

(** The outbound message built with [MIMEText] and [MIMEMultipart]: its
    content and the headers assigned to it, in the order of the assignments. *)
Inductive MIMEContent : Type :=
| MIMEText (text : string) (subtype : string)
| MIMEMultipart (subtype : string) (attached : list (string * string)).

Record MIMEMessage : Type := {
  content : MIMEContent;
  mime_headers : list (string * string)
}.

(** [message[key] = val] *)
Definition set_header (key val : string) (message : MIMEMessage) : MIMEMessage :=
  {| content := content message;
     mime_headers := mime_headers message ++ [(key, val)] |}.

(** The request bodies. A key of [ModifyBody] is present when the handler
    has set it. *)
Record ModifyBody : Type := {
  addLabelIds : option (list string);
  removeLabelIds : option (list string)
}.

Record LabelObject : Type := {
  lo_name : string;
  labelListVisibility : string;
  messageListVisibility : string
}.

(** [base64.urlsafe_b64encode(data).decode()]: three bytes give four
    characters of the URL-safe alphabet, and the last group is padded. *)
Definition b64_char (n : N) : ascii :=
  ascii_of_N (if (n <? 26)%N then 65 + n
              else if (n <? 52)%N then 71 + n
              else if (n <? 62)%N then n - 4
              else if (n =? 62)%N then 45
              else 95).

Fixpoint b64_groups (data : list N) : string :=
  let char n rest := String (b64_char n) rest in
  match data with
  | [] => EmptyString
  | [a] =>
      char (a / 4) (char ((a mod 4) * 16) "==")
  | [a; b] =>
      char (a / 4) (char ((a mod 4) * 16 + b / 16) (char ((b mod 16) * 4) "="))
  | a :: b :: c :: rest =>
      char (a / 4) (char ((a mod 4) * 16 + b / 16)
        (char ((b mod 16) * 4 + c / 64) (char (c mod 64) (b64_groups rest))))
  end%N.

Definition urlsafe_b64encode (data : list Byte.byte) : string :=
  b64_groups (map (fun b => N_of_ascii (ascii_of_byte b)) data).

(** The body of a send call: the encoded message under ['raw'], and the
    thread under ['threadId'] when the handler has set it. *)
Record SendBody : Type := { raw : string; send_threadId : option string }.

(** The response of a send call, with its keys ['id'] and ['threadId']. *)
Record Sent : Type := { sent_id : string; sent_threadId : string }.

(** The remote calls, as the handlers issue them with [.execute()]. *)
Inductive Call : Type :=
| users_labels_list
| users_labels_create (body : LabelObject)
| users_messages_list (q : string) (maxResults : Z)
| users_messages_get (id' : string) (format : string)
| users_messages_send (body : SendBody)
| users_messages_modify (id' : string) (body : ModifyBody)
| users_messages_trash (id' : string)
| users_threads_get (id' : string).

(** The service handle: what each call answers, given the calls issued
    before it. An answer is a response or an exception. The responses of the
    two list calls may lack their key (['labels'], ['messages']); a message
    of a list response is held by its ['id']. *)
Record Service : Type := {
  labels_list : list Call -> outcome (option (list Label));
  labels_create : list Call -> LabelObject -> outcome Label;
  messages_list : list Call -> string -> Z -> outcome (option (list string));
  messages_get : list Call -> string -> string -> outcome Message;
  messages_send : list Call -> SendBody -> outcome Sent;
  messages_modify : list Call -> string -> ModifyBody -> outcome unit;
  messages_trash : list Call -> string -> outcome unit;
  threads_get : list Call -> string -> outcome (list Message)
}.

(** ** The handler monad: exceptions and the log of remote calls *)

Definition M (A : Type) : Type := list Call -> outcome A * list Call.

Definition ret {A : Type} (a : A) : M A := fun log => (Return a, log).

Definition raise {A : Type} (e : exn) : M A := fun log => (Raise e, log).

Definition bind {A B : Type} (m : M A) (k : A -> M B) : M B :=
  fun log =>
    match m log with
    | (Return a, log') => k a log'
    | (Raise e, log') => (Raise e, log')
    end.

(** A computation that issues no call. *)
Definition lift {A : Type} (o : outcome A) : M A := fun log => (o, log).

(** [request.execute()]: the call is issued, and answered from the calls
    before it. *)
Definition execute {A : Type} (c : Call) (answer : list Call -> outcome A) : M A :=
  fun log => (answer log, log ++ [c]).

(** [try: m except Exception as e: return h(e)] *)
Definition try_except {A : Type} (m : M A) (h : exn -> A) : M A :=
  fun log =>
    match m log with
    | (Return a, log') => (Return a, log')
    | (Raise e, log') => (Return (h e), log')
    end.

Declare Scope gw_scope.
Delimit Scope gw_scope with gw.
Notation "'do' x <- c1 ; c2" := (bind c1 (fun x => c2))
  (at level 10, x name, c1 at level 100, c2 at level 200) : gw_scope.
Local Open Scope gw_scope.

(** The calls that modify the labels of a message. *)
Definition is_modify (c : Call) : bool :=
  match c with users_messages_modify _ _ => true | _ => false end.

(** ** Operation handlers *)

Section Handlers.
Variable rt : Runtime.

(** What [get_gmail_service()] gives in this process: the service handle
    (cached in [_gmail_service] or built from the token file), or the
    exception it raises, [FileNotFoundError] when there is no token file. *)
Variable gmail : outcome Service.

(** What [message.as_bytes()] gives in this run: the flattened message, or
    the exception the library raises, as it does for a header value that
    holds a line break. The folding of the header lines, the transfer
    encoding of the text and the boundary of a multipart message, which is
    drawn at random, are the library's. *)
Variable as_bytes : MIMEMessage -> outcome (list Byte.byte).

Definition get_gmail_service : M Service := lift gmail.

(** *** search_emails *)

(** The loop that fetches the details of each listed message. *)
Fixpoint fetch_messages (service : Service) (format : string)
    (messages : list string) (detailed_messages : list Message) : M (list Message) :=
  match messages with
  | [] => ret detailed_messages
  | msg :: rest =>
      do msg_data <- execute (users_messages_get msg format)
                       (fun log => messages_get service log msg format);
      fetch_messages service format rest (detailed_messages ++ [msg_data])
  end.

(** [message_info] of the JSON branch. *)
Definition search_message_info (include_body : bool) (msg : Message) : outcome json :=
  let headers := headers (payload msg) in
  let message_info :=
    [("id", JString (msg_id msg));
     ("thread_id", JString (threadId msg));
     ("from", JString (_get_header_value headers "From"));
     ("to", JString (_get_header_value headers "To"));
     ("subject", JString (_get_header_value headers "Subject"));
     ("date", JString (_get_header_value headers "Date"));
     ("snippet", JString (default "" (snippet msg)));
     ("labels", JList (map JString (default [] (labelIds msg))))] in
  if include_body then
    outcome_bind (_decode_message_body rt (payload msg)) (fun body =>
    Return (JDict (message_info ++ [("body", JString body)])))
  else Return (JDict message_info).

Fixpoint search_json_loop (include_body : bool) (detailed_messages : list Message)
    (messages : list json) : outcome (list json) :=
  match detailed_messages with
  | [] => Return messages
  | msg :: rest =>
      outcome_bind (search_message_info include_body msg) (fun message_info =>
      search_json_loop include_body rest (messages ++ [message_info]))
  end.

(** The body of a search result in the Markdown branch: the text between
    the code fences. *)
Definition body_preview (body : string) : string :=
  py_slice_to 500 body +:+ (if (500 <? py_len body)%nat then "..." else "").

(** The fields of one message in the Markdown branch. *)
Definition search_message_fields (i : nat) (msg : Message) : string :=
  let headers := headers (payload msg) in
  "## " +:+ str_nat i +:+ ". Message" +:+ LF +:+ LF +:+
  "**ID:** `" +:+ msg_id msg +:+ "`" +:+ LF +:+
  "**Thread ID:** `" +:+ threadId msg +:+ "`" +:+ LF +:+
  "**From:** " +:+ _get_header_value headers "From" +:+ LF +:+
  "**To:** " +:+ _get_header_value headers "To" +:+ LF +:+
  "**Subject:** " +:+ _get_header_value headers "Subject" +:+ LF +:+
  "**Date:** " +:+ _get_header_value headers "Date" +:+ LF +:+
  "**Labels:** " +:+ join ", " (default [] (labelIds msg)) +:+ LF +:+ LF +:+
  "**Snippet:** " +:+ default "" (snippet msg) +:+ LF +:+ LF.

(** The body of one message in the Markdown branch, in its code fence. *)
Definition search_body_block (body : string) : string :=
  "**Body:**" +:+ LF +:+ "```" +:+ LF +:+ body_preview body +:+ LF +:+ "```" +:+ LF +:+ LF.

(** What one message adds to [output] in the Markdown branch. *)
Definition search_message_markdown (include_body : bool) (i : nat) (msg : Message)
    : outcome string :=
  let output := search_message_fields i msg in
  if include_body then
    outcome_bind (_decode_message_body rt (payload msg)) (fun body =>
    Return (output +:+ search_body_block body +:+ "---" +:+ LF +:+ LF))
  else Return (output +:+ "---" +:+ LF +:+ LF).

Fixpoint search_markdown_loop (include_body : bool) (i : nat)
    (detailed_messages : list Message) (output : string) : outcome string :=
  match detailed_messages with
  | [] => Return output
  | msg :: rest =>
      outcome_bind (search_message_markdown include_body i msg) (fun section =>
      search_markdown_loop include_body (S i) rest (output +:+ section))
  end.

(** The [try] block of [search_emails]. *)
Definition search_emails_try (params : SearchEmailsInput.t) : M string :=
  do service <- get_gmail_service;
  do results <- execute (users_messages_list (SearchEmailsInput.query params)
                                             (SearchEmailsInput.max_results params))
                  (fun log => messages_list service log (SearchEmailsInput.query params)
                                            (SearchEmailsInput.max_results params));
  let messages := default [] results in
  match messages with
  | [] => ret "No messages found matching your search query."
  | _ :: _ =>
      do detailed_messages <-
        fetch_messages service
          (if SearchEmailsInput.include_body params then "full" else "metadata")
          messages [];
      match SearchEmailsInput.response_format params with
      | JSON =>
          do items <- lift (search_json_loop (SearchEmailsInput.include_body params)
                                             detailed_messages []);
          ret (dumps rt (JDict
            [("total_results", JInt (Z.of_nat (length detailed_messages)));
             ("query", JString (SearchEmailsInput.query params));
             ("messages", JList items)]))
      | MARKDOWN =>
          let output :=
            "# Search Results" +:+ LF +:+ LF +:+
            "**Query:** " +:+ SearchEmailsInput.query params +:+ LF +:+
            "**Found:** " +:+ str_nat (length detailed_messages) +:+ " message(s)"
              +:+ LF +:+ LF +:+
            "---" +:+ LF +:+ LF in
          lift (search_markdown_loop (SearchEmailsInput.include_body params) 1
                                     detailed_messages output)
      end
  end.

Definition search_emails (params : SearchEmailsInput.t) : M string :=
  try_except (search_emails_try params) _handle_api_error.

(** *** get_email *)

Definition get_email_json (msg : Message) (body : string) : json :=
  let headers := headers (payload msg) in
  JDict
    [("id", JString (msg_id msg));
     ("thread_id", JString (threadId msg));
     ("from", JString (_get_header_value headers "From"));
     ("to", JString (_get_header_value headers "To"));
     ("cc", JString (_get_header_value headers "Cc"));
     ("bcc", JString (_get_header_value headers "Bcc"));
     ("subject", JString (_get_header_value headers "Subject"));
     ("date", JString (_get_header_value headers "Date"));
     ("labels", JList (map JString (default [] (labelIds msg))));
     ("snippet", JString (default "" (snippet msg)));
     ("body", JString body)].

(** The fields of the message in the Markdown branch, before its body. *)
Definition get_email_fields (msg : Message) : string :=
  let headers := headers (payload msg) in
  let cc := _get_header_value headers "Cc" in
  "# Email Details" +:+ LF +:+ LF +:+
  "**ID:** `" +:+ msg_id msg +:+ "`" +:+ LF +:+
  "**Thread ID:** `" +:+ threadId msg +:+ "`" +:+ LF +:+
  "**From:** " +:+ _get_header_value headers "From" +:+ LF +:+
  "**To:** " +:+ _get_header_value headers "To" +:+ LF +:+
  (if String.eqb cc "" then "" else "**CC:** " +:+ cc +:+ LF) +:+
  "**Subject:** " +:+ _get_header_value headers "Subject" +:+ LF +:+
  "**Date:** " +:+ _get_header_value headers "Date" +:+ LF +:+
  "**Labels:** " +:+ join ", " (default [] (labelIds msg)) +:+ LF +:+ LF +:+
  "**Snippet:** " +:+ default "" (snippet msg) +:+ LF +:+ LF.

Definition get_email_markdown (msg : Message) (body : string) : string :=
  get_email_fields msg +:+ "## Body" +:+ LF +:+ LF +:+ body +:+ LF.

(** The [try] block of [get_email]. *)
Definition get_email_try (params : GetEmailInput.t) : M string :=
  do service <- get_gmail_service;
  do msg <- execute (users_messages_get (GetEmailInput.message_id params) "full")
              (fun log => messages_get service log (GetEmailInput.message_id params) "full");
  do body <- lift (_decode_message_body rt (payload msg));
  match GetEmailInput.response_format params with
  | JSON => ret (dumps rt (get_email_json msg body))
  | MARKDOWN => ret (get_email_markdown msg body)
  end.

Definition get_email (params : GetEmailInput.t) : M string :=
  try_except (get_email_try params) _handle_api_error.

(** *** send_email and reply_to_email *)

(** The message before its headers are set. *)
Definition new_message (body : string) (is_html : bool) : MIMEMessage :=
  if is_html then
    {| content := MIMEMultipart "alternative" [(body, "html")]; mime_headers := [] |}
  else {| content := MIMEText body "plain"; mime_headers := [] |}.

(** [base64.urlsafe_b64encode(message.as_bytes()).decode()] *)
Definition encode_message (message : MIMEMessage) : outcome string :=
  outcome_bind (as_bytes message) (fun data => Return (urlsafe_b64encode data)).

(** A list that is neither [None] nor empty. *)
Definition truthy_list (l : option (list string)) : bool :=
  match l with
  | Some (_ :: _) => true
  | _ => false
  end.

(** The [try] block of [send_email]. *)
Definition send_email_try (params : SendEmailInput.t) : M string :=
  do service <- get_gmail_service;
  let message := new_message (SendEmailInput.body params) (SendEmailInput.is_html params) in
  let message := set_header "To" (join ", " (SendEmailInput.to params)) message in
  let message := set_header "Subject" (SendEmailInput.subject params) message in
  let message :=
    if truthy_list (SendEmailInput.cc params)
    then set_header "Cc" (join ", " (default [] (SendEmailInput.cc params))) message
    else message in
  let message :=
    if truthy_list (SendEmailInput.bcc params)
    then set_header "Bcc" (join ", " (default [] (SendEmailInput.bcc params))) message
    else message in
  let message :=
    match SendEmailInput.reply_to params with
    | Some r => if String.eqb r "" then message else set_header "Reply-To" r message
    | None => message
    end in
  do encoded_message <- lift (encode_message message);
  let send_message := {| raw := encoded_message; send_threadId := None |} in
  do result <- execute (users_messages_send send_message)
                 (fun log => messages_send service log send_message);
  ret ("✓ Email sent successfully!" +:+ LF +:+ LF +:+
       "**Message ID:** " +:+ sent_id result +:+ LF +:+
       "**Thread ID:** " +:+ sent_threadId result +:+ LF +:+
       "**To:** " +:+ join ", " (SendEmailInput.to params) +:+ LF +:+
       "**Subject:** " +:+ SendEmailInput.subject params).

Definition send_email (params : SendEmailInput.t) : M string :=
  try_except (send_email_try params) _handle_api_error.

(** The [try] block of [reply_to_email]. *)
Definition reply_to_email_try (params : ReplyToEmailInput.t) : M string :=
  do service <- get_gmail_service;
  do thread <- execute (users_threads_get (ReplyToEmailInput.thread_id params))
                 (fun log => threads_get service log (ReplyToEmailInput.thread_id params));
  match thread with
  | [] => raise (PyError "IndexError" "list index out of range")
  | original_msg :: _ =>
      let headers := headers (payload original_msg) in
      let message :=
        new_message (ReplyToEmailInput.body params) (ReplyToEmailInput.is_html params) in
      let subject := reply_subject (_get_header_value headers "Subject") in
      let message := set_header "Subject" subject message in
      let message := set_header "In-Reply-To" (_get_header_value headers "Message-ID") message in
      let message := set_header "References" (_get_header_value headers "Message-ID") message in
      let to_addresses := _get_header_value headers "From" in
      let message :=
        if ReplyToEmailInput.reply_all params then
          let cc_addresses := _get_header_value headers "Cc" in
          let message := set_header "To" to_addresses message in
          if String.eqb cc_addresses "" then message
          else set_header "Cc" cc_addresses message
        else set_header "To" to_addresses message in
      do encoded_message <- lift (encode_message message);
      let send_message :=
        {| raw := encoded_message;
           send_threadId := Some (ReplyToEmailInput.thread_id params) |} in
      do result <- execute (users_messages_send send_message)
                     (fun log => messages_send service log send_message);
      ret ("✓ Reply sent successfully!" +:+ LF +:+ LF +:+
           "**Message ID:** " +:+ sent_id result +:+ LF +:+
           "**Thread ID:** " +:+ sent_threadId result +:+ LF +:+
           "**To:** " +:+ to_addresses +:+ LF +:+
           "**Subject:** " +:+ subject)
  end.

Definition reply_to_email (params : ReplyToEmailInput.t) : M string :=
  try_except (reply_to_email_try params) _handle_api_error.

(** *** modify_labels *)

(** [label_map]: every display name to its identifier, then updated with
    every identifier to itself. A later entry for a key replaces an earlier
    one. *)
Definition build_label_map (labels : list Label) : gmap string string :=
  let label_map :=
    foldl (fun m label => <[label_name label := label_id label]> m) ∅ labels in
  foldl (fun m label => <[label_id label := label_id label]> m) label_map labels.

Definition label_not_found (label : string) : string :=
  "Error: Label '" +:+ label +:+ "' not found. Use gmail_list_labels to see available labels.".

(** One resolution loop: the identifiers collected so far grow with each
    name found; a name that is not a key ends the handler with its message
    (the left summand). *)
Fixpoint resolve_labels (label_map : gmap string string) (labels : list string)
    (label_ids : list string) : string + list string :=
  match labels with
  | [] => inr label_ids
  | label :: rest =>
      match label_map !! label with
      | Some i => resolve_labels label_map rest (label_ids ++ [i])
      | None => inl (label_not_found label)
      end
  end.

(** The loop guarded by [if params.add_labels:]. *)
Definition resolve_optional (label_map : gmap string string)
    (labels : option (list string)) : string + list string :=
  if truthy_list labels then resolve_labels label_map (default [] labels) []
  else inr [].

(** [body], with a key for each list of identifiers that is not empty. *)
Definition modify_body (add_label_ids remove_label_ids : list string) : ModifyBody :=
  {| addLabelIds := match add_label_ids with [] => None | _ => Some add_label_ids end;
     removeLabelIds := match remove_label_ids with [] => None | _ => Some remove_label_ids end |}.

(** [not body] *)
Definition body_is_empty (body : ModifyBody) : bool :=
  match addLabelIds body, removeLabelIds body with
  | None, None => true
  | _, _ => false
  end.

(** The loop that applies [body] to each message and counts. *)
Fixpoint modify_each (service : Service) (body : ModifyBody)
    (message_ids : list string) (count : nat) : M nat :=
  match message_ids with
  | [] => ret count
  | message_id :: rest =>
      do _r <- execute (users_messages_modify message_id body)
                 (fun log => messages_modify service log message_id body);
      modify_each service body rest (S count)
  end.

(** The [try] block of [modify_labels]. *)
Definition modify_labels_try (params : ModifyLabelsInput.t) : M string :=
  do service <- get_gmail_service;
  do labels_result <- execute users_labels_list (labels_list service);
  let label_map := build_label_map (default [] labels_result) in
  match resolve_optional label_map (ModifyLabelsInput.add_labels params) with
  | inl error => ret error
  | inr add_label_ids =>
      match resolve_optional label_map (ModifyLabelsInput.remove_labels params) with
      | inl error => ret error
      | inr remove_label_ids =>
          let body := modify_body add_label_ids remove_label_ids in
          if body_is_empty body then
            ret "Error: No labels to add or remove. Specify at least one label operation."
          else
            do modified_count <-
              modify_each service body (ModifyLabelsInput.message_ids params) 0;
            let output :=
              "✓ Successfully modified " +:+ str_nat modified_count +:+ " message(s)"
                +:+ LF +:+ LF in
            let output :=
              match add_label_ids with
              | [] => output
              | _ => output +:+ "**Added labels:** " +:+
                       join ", " (default [] (ModifyLabelsInput.add_labels params)) +:+ LF
              end in
            let output :=
              match remove_label_ids with
              | [] => output
              | _ => output +:+ "**Removed labels:** " +:+
                       join ", " (default [] (ModifyLabelsInput.remove_labels params)) +:+ LF
              end in
            ret output
      end
  end.

Definition modify_labels (params : ModifyLabelsInput.t) : M string :=
  try_except (modify_labels_try params) _handle_api_error.

(** *** archive_emails and delete_emails *)

(** The [try] block of [archive_emails]. *)
Definition archive_emails_try (params : ArchiveEmailsInput.t) : M string :=
  do service <- get_gmail_service;
  let body := {| addLabelIds := None; removeLabelIds := Some ["INBOX"] |} in
  do archived_count <-
    modify_each service body (ArchiveEmailsInput.message_ids params) 0;
  ret ("✓ Successfully archived " +:+ str_nat archived_count +:+ " message(s)").

Definition archive_emails (params : ArchiveEmailsInput.t) : M string :=
  try_except (archive_emails_try params) _handle_api_error.

Fixpoint trash_each (service : Service) (message_ids : list string) (count : nat) : M nat :=
  match message_ids with
  | [] => ret count
  | message_id :: rest =>
      do _r <- execute (users_messages_trash message_id)
                 (fun log => messages_trash service log message_id);
      trash_each service rest (S count)
  end.

(** The [try] block of [delete_emails]. *)
Definition delete_emails_try (params : DeleteEmailsInput.t) : M string :=
  do service <- get_gmail_service;
  do deleted_count <- trash_each service (DeleteEmailsInput.message_ids params) 0;
  ret ("✓ Successfully moved " +:+ str_nat deleted_count +:+ " message(s) to trash").

Definition delete_emails (params : DeleteEmailsInput.t) : M string :=
  try_except (delete_emails_try params) _handle_api_error.

(** *** list_labels *)

(** [sorted(labels, key=lambda x: x['name'])]: the sort is stable and
    compares the names with [<]. *)
Fixpoint insert_by_name (label : Label) (sorted : list Label) : list Label :=
  match sorted with
  | [] => [label]
  | l :: rest =>
      if String.ltb (label_name l) (label_name label)
      then l :: insert_by_name label rest
      else label :: l :: rest
  end.

Fixpoint sorted_by_name (labels : list Label) : list Label :=
  match labels with
  | [] => []
  | label :: rest => insert_by_name label (sorted_by_name rest)
  end.

Definition labels_of_type (type : string) (labels : list Label) : list Label :=
  List.filter (fun l => String.eqb (label_type l) type) labels.

Definition label_line (label : Label) : string :=
  "- **" +:+ label_name label +:+ "** (`" +:+ label_id label +:+ "`)" +:+ LF.

(** A group of the Markdown branch: nothing when the group is empty. *)
Definition label_lines (group : list Label) : string :=
  String.concat "" (map label_line (sorted_by_name group)).

Definition label_group (title : string) (group : list Label) : string :=
  match group with
  | [] => ""
  | _ => "## " +:+ title +:+ LF +:+ LF +:+ label_lines group +:+ LF
  end.

(** The entry of a label in the JSON branch. *)
Definition label_entry (label : Label) : json :=
  JDict [("id", JString (label_id label));
         ("name", JString (label_name label));
         ("type", JString (label_type label))].

Definition list_labels_json (labels : list Label) : json :=
  JDict
    [("total_labels", JInt (Z.of_nat (length labels)));
     ("labels", JList (map label_entry labels))].

Definition list_labels_markdown (labels : list Label) : string :=
  "# Gmail Labels" +:+ LF +:+ LF +:+ "**Total:** " +:+ str_nat (length labels)
    +:+ " label(s)" +:+ LF +:+ LF +:+
  label_group "System Labels" (labels_of_type "system" labels) +:+
  label_group "User Labels" (labels_of_type "user" labels).

(** The [try] block of [list_labels]. *)
Definition list_labels_try (params : ListLabelsInput.t) : M string :=
  do service <- get_gmail_service;
  do results <- execute users_labels_list (labels_list service);
  let labels := default [] results in
  match labels with
  | [] => ret "No labels found."
  | _ :: _ =>
      match ListLabelsInput.response_format params with
      | JSON => ret (dumps rt (list_labels_json labels))
      | MARKDOWN => ret (list_labels_markdown labels)
      end
  end.

Definition list_labels (params : ListLabelsInput.t) : M string :=
  try_except (list_labels_try params) _handle_api_error.

(** *** create_label *)

(** The loop over the existing labels: the first one whose name equals
    [name'] when both are lowered. *)
Fixpoint existing_label (labels : list Label) (name' : string) : option Label :=
  match labels with
  | [] => None
  | label :: rest =>
      if String.eqb (lower (label_name label)) (lower name') then Some label
      else existing_label rest name'
  end.

(** The [try] block of [create_label]. *)
Definition create_label_try (params : CreateLabelInput.t) : M string :=
  do service <- get_gmail_service;
  do existing_labels <- execute users_labels_list (labels_list service);
  match existing_label (default [] existing_labels) (CreateLabelInput.name params) with
  | Some label =>
      ret ("Error: Label '" +:+ CreateLabelInput.name params +:+ "' already exists (ID: "
           +:+ label_id label +:+ ")")
  | None =>
      let label_object :=
        {| lo_name := CreateLabelInput.name params;
           labelListVisibility := CreateLabelInput.label_list_visibility params;
           messageListVisibility := CreateLabelInput.message_list_visibility params |} in
      do result <- execute (users_labels_create label_object)
                     (fun log => labels_create service log label_object);
      ret ("✓ Label created successfully!" +:+ LF +:+ LF +:+
           "**Name:** " +:+ label_name result +:+ LF +:+
           "**ID:** " +:+ label_id result)
  end.

Definition create_label (params : CreateLabelInput.t) : M string :=
  try_except (create_label_try params) _handle_api_error.

End Handlers.

(** ** The library as CPython has it: the instance the examples run on *)

Module CPython.

(** Two hexadecimal digits ([%02x]) and four ([%04x]). *)
Definition hex_digit (n : N) : string :=
  String (ascii_of_N (if (n <? 10)%N then 48 + n else 87 + n)) EmptyString.

Definition hex2 (n : N) : string :=
  hex_digit (N.land (N.shiftr n 4) 15) +:+ hex_digit (N.land n 15).

Definition hex4 (n : N) : string :=
  hex2 (N.land (N.shiftr n 8) 255) +:+ hex2 (N.land n 255).

Definition byte_of_N (n : N) : Byte.byte := byte_of_ascii (ascii_of_N n).
Definition N_of_byte (b : Byte.byte) : N := N_of_ascii (ascii_of_byte b).

(** *** base64.urlsafe_b64decode *)

(** The value of a character of the URL-safe alphabet: [-] and [_] stand
    for [+] and [/], which the translation step leaves as they are. *)
Definition b64_value (c : ascii) : option N :=
  let n := N_of_ascii c in
  if (65 <=? n)%N && (n <=? 90)%N then Some (n - 65)%N
  else if (97 <=? n)%N && (n <=? 122)%N then Some (n - 71)%N
  else if (48 <=? n)%N && (n <=? 57)%N then Some (n + 4)%N
  else if (n =? 43)%N || (n =? 45)%N then Some 62%N
  else if (n =? 47)%N || (n =? 95)%N then Some 63%N
  else None.

(** [binascii.a2b_base64] without strict mode: a character outside the
    alphabet is skipped; padding ends the data once the current quad has two
    characters or more; data that ends inside a quad is an error. *)
Fixpoint a2b_base64 (s : string) (quad_pos : nat) (leftchar : N) (pads : nat)
    (bin_data : list Byte.byte) : outcome (list Byte.byte) :=
  match s with
  | EmptyString =>
      match quad_pos with
      | 0 => Return bin_data
      | 1 => Raise (PyError "Error"
               ("Invalid base64-encoded string: number of data characters (" +:+
                str_nat (length bin_data / 3 * 4 + 1) +:+
                ") cannot be 1 more than a multiple of 4"))
      | _ => Raise (PyError "Error" "Incorrect padding")
      end
  | String c s' =>
      if Ascii.eqb c "=" then
        if (2 <=? quad_pos)%nat then
          if (4 <=? quad_pos + S pads)%nat then Return bin_data
          else a2b_base64 s' quad_pos leftchar (S pads) bin_data
        else a2b_base64 s' quad_pos leftchar pads bin_data
      else
        match b64_value c with
        | None => a2b_base64 s' quad_pos leftchar pads bin_data
        | Some this_ch =>
            match quad_pos with
            | 0 => a2b_base64 s' 1 this_ch 0 bin_data
            | 1 => a2b_base64 s' 2 (N.land this_ch 15) 0
                     (bin_data ++ [byte_of_N (N.lor (N.shiftl leftchar 2) (N.shiftr this_ch 4))])
            | 2 => a2b_base64 s' 3 (N.land this_ch 3) 0
                     (bin_data ++ [byte_of_N (N.lor (N.shiftl leftchar 4) (N.shiftr this_ch 2))])
            | _ => a2b_base64 s' 0 0 0
                     (bin_data ++ [byte_of_N (N.lor (N.shiftl leftchar 6) this_ch)])
            end
        end
  end.

Fixpoint is_ascii (s : string) : bool :=
  match s with
  | EmptyString => true
  | String c s' => (N_of_ascii c <? 128)%N && is_ascii s'
  end.

Definition urlsafe_b64decode (s : string) : outcome (list Byte.byte) :=
  if is_ascii s then a2b_base64 s 0 0 0 []
  else Raise (PyError "ValueError" "string argument should contain only ASCII characters").

(** *** bytes.decode('utf-8') *)

Definition is_cont (b : N) : bool := (128 <=? b)%N && (b <? 192)%N.

(** [str(e)] of the [UnicodeDecodeError] for the bytes from [start] up to
    [stop], where [first] is the byte at [start]. *)
Definition utf8_error (first : N) (start stop : nat) (reason : string) : exn :=
  PyError "UnicodeDecodeError"
    (if (stop =? S start)%nat then
       "'utf-8' codec can't decode byte 0x" +:+ hex2 first +:+ " in position " +:+
       str_nat start +:+ ": " +:+ reason
     else
       "'utf-8' codec can't decode bytes in position " +:+ str_nat start +:+ "-" +:+
       str_nat (stop - 1) +:+ ": " +:+ reason).

(** The strict decoder: it checks the bytes from position [pos] on and
    gives the exception of the first ill-formed sequence. *)
Fixpoint utf8_check (bs : list N) (pos : nat) : option exn :=
  let invalid_start ch := Some (utf8_error ch pos (S pos) "invalid start byte") in
  let unexpected_end ch := Some (utf8_error ch pos (pos + length bs) "unexpected end of data") in
  let invalid_continuation ch n := Some (utf8_error ch pos (pos + n) "invalid continuation byte") in
  match bs with
  | [] => None
  | ch :: tl =>
      if (ch <? 128)%N then utf8_check tl (S pos)
      else if (ch <? 194)%N then invalid_start ch
      else if (ch <? 224)%N then
        match tl with
        | [] => unexpected_end ch
        | ch2 :: tl2 =>
            if negb (is_cont ch2) then invalid_continuation ch 1
            else utf8_check tl2 (pos + 2)
        end
      else if (ch <? 240)%N then
        match tl with
        | [] => unexpected_end ch
        | ch2 :: tl2 =>
            if negb (is_cont ch2)
               || (if (ch2 <? 160)%N then (ch =? 224)%N else (ch =? 237)%N)
            then invalid_continuation ch 1
            else
              match tl2 with
              | [] => unexpected_end ch
              | ch3 :: tl3 =>
                  if negb (is_cont ch3) then invalid_continuation ch 2
                  else utf8_check tl3 (pos + 3)
              end
        end
      else if (ch <? 245)%N then
        match tl with
        | [] => unexpected_end ch
        | ch2 :: tl2 =>
            if negb (is_cont ch2)
               || (if (ch2 <? 144)%N then (ch =? 240)%N else (ch =? 244)%N)
            then invalid_continuation ch 1
            else
              match tl2 with
              | [] => unexpected_end ch
              | ch3 :: tl3 =>
                  if negb (is_cont ch3) then invalid_continuation ch 2
                  else
                    match tl3 with
                    | [] => unexpected_end ch
                    | ch4 :: tl4 =>
                        if negb (is_cont ch4) then invalid_continuation ch 3
                        else utf8_check tl4 (pos + 4)
                    end
              end
        end
      else invalid_start ch
  end.

Definition decode_utf8 (bs : list Byte.byte) : outcome string :=
  match utf8_check (map N_of_byte bs) 0 with
  | Some e => Raise e
  | None => Return (string_of_list_byte bs)
  end.

(** *** json.dumps(_, indent=2) *)

(** The characters of a text, from its UTF-8 form. *)
Fixpoint codepoints (bs : list N) : list N :=
  match bs with
  | [] => []
  | ch :: tl =>
      if (ch <? 224)%N then
        match tl with
        | ch2 :: tl2 =>
            if (192 <=? ch)%N
            then ((ch - 192) * 64 + (ch2 - 128))%N :: codepoints tl2
            else ch :: codepoints tl
        | [] => [ch]
        end
      else if (ch <? 240)%N then
        match tl with
        | ch2 :: ch3 :: tl3 =>
            ((ch - 224) * 4096 + (ch2 - 128) * 64 + (ch3 - 128))%N :: codepoints tl3
        | _ => ch :: codepoints tl
        end
      else
        match tl with
        | ch2 :: ch3 :: ch4 :: tl4 =>
            ((ch - 240) * 262144 + (ch2 - 128) * 4096 + (ch3 - 128) * 64 + (ch4 - 128))%N
              :: codepoints tl4
        | _ => ch :: codepoints tl
        end
  end.

(** One character of a string in the output, with [ensure_ascii]. *)
Definition escape_char (c : N) : string :=
  if (c =? 34)%N then "\" +:+ DQ
  else if (c =? 92)%N then "\\"
  else if (c =? 10)%N then "\n"
  else if (c =? 13)%N then "\r"
  else if (c =? 9)%N then "\t"
  else if (c =? 8)%N then "\b"
  else if (c =? 12)%N then "\f"
  else if (32 <=? c)%N && (c <=? 126)%N then String (ascii_of_N c) EmptyString
  else if (c <? 65536)%N then "\u" +:+ hex4 c
  else
    let n := (c - 65536)%N in
    "\u" +:+ hex4 (N.lor 55296 (N.land (N.shiftr n 10) 1023)) +:+
    "\u" +:+ hex4 (N.lor 56320 (N.land n 1023)).

Definition encode_string (s : string) : string :=
  DQ +:+ String.concat "" (map escape_char (codepoints (map N_of_byte (list_byte_of_string s))))
     +:+ DQ.

Fixpoint spaces (n : nat) : string :=
  match n with
  | O => EmptyString
  | S n' => " " +:+ spaces n'
  end.

Definition newline_indent (level : nat) : string := LF +:+ spaces (2 * level).

Fixpoint dumps_at (level : nat) (j : json) : string :=
  match j with
  | JString s => encode_string s
  | JInt n => str_int n
  | JList [] => "[]"
  | JList items =>
      "[" +:+ newline_indent (S level) +:+
      String.concat ("," +:+ newline_indent (S level)) (map (dumps_at (S level)) items) +:+
      newline_indent level +:+ "]"
  | JDict [] => "{}"
  | JDict items =>
      "{" +:+ newline_indent (S level) +:+
      String.concat ("," +:+ newline_indent (S level))
        (map (fun kv => encode_string (fst kv) +:+ ": " +:+ dumps_at (S level) (snd kv)) items) +:+
      newline_indent level +:+ "}"
  end.

Definition dumps (j : json) : string := dumps_at 0 j.

End CPython.

Definition cpython : Runtime :=
  {| urlsafe_b64decode := CPython.urlsafe_b64decode;
     decode_utf8 := CPython.decode_utf8;
     dumps := CPython.dumps |}.

(** ** The callable surface: the nine operations *)

Inductive Operation : Type :=
| gmail_search_emails (params : SearchEmailsInput.t)
| gmail_get_email (params : GetEmailInput.t)
| gmail_send_email (params : SendEmailInput.t)
| gmail_reply_to_email (params : ReplyToEmailInput.t)
| gmail_modify_labels (params : ModifyLabelsInput.t)
| gmail_archive_emails (params : ArchiveEmailsInput.t)
| gmail_delete_emails (params : DeleteEmailsInput.t)
| gmail_list_labels (params : ListLabelsInput.t)
| gmail_create_label (params : CreateLabelInput.t).

(** The [try] block of an operation, and the operation. *)
Definition try_block (rt : Runtime) (gmail : outcome Service)
    (as_bytes : MIMEMessage -> outcome (list Byte.byte)) (op : Operation) : M string :=
  match op with
  | gmail_search_emails params => search_emails_try rt gmail params
  | gmail_get_email params => get_email_try rt gmail params
  | gmail_send_email params => send_email_try gmail as_bytes params
  | gmail_reply_to_email params => reply_to_email_try gmail as_bytes params
  | gmail_modify_labels params => modify_labels_try gmail params
  | gmail_archive_emails params => archive_emails_try gmail params
  | gmail_delete_emails params => delete_emails_try gmail params
  | gmail_list_labels params => list_labels_try rt gmail params
  | gmail_create_label params => create_label_try gmail params
  end.

Definition call_tool (rt : Runtime) (gmail : outcome Service)
    (as_bytes : MIMEMessage -> outcome (list Byte.byte)) (op : Operation) : M string :=
  match op with
  | gmail_search_emails params => search_emails rt gmail params
  | gmail_get_email params => get_email rt gmail params
  | gmail_send_email params => send_email gmail as_bytes params
  | gmail_reply_to_email params => reply_to_email gmail as_bytes params
  | gmail_modify_labels params => modify_labels gmail params
  | gmail_archive_emails params => archive_emails gmail params
  | gmail_delete_emails params => delete_emails gmail params
  | gmail_list_labels params => list_labels rt gmail params
  | gmail_create_label params => create_label gmail params
  end.

(** ** The properties as the specification words them *)

(** Two names are equal ignoring case: they have the same lowercase form. *)
Definition same_name (a b : string) : Prop := lower a = lower b.

(** A text of ASCII characters only ([str.isascii]). *)
Fixpoint isascii (s : string) : bool :=
  match s with
  | EmptyString => true
  | String c s' => (N_of_ascii c <? 128)%N && isascii s'
  end.

(** Two characters of ASCII are equal ignoring case: they are the same
    character, or the same of the 26 letters, each in either case. *)
Definition same_letter (x y : ascii) : Prop :=
  x = y \/
  exists i : nat, i < 26 /\
    (nat_of_ascii x = 65 + i \/ nat_of_ascii x = 97 + i) /\
    (nat_of_ascii y = 65 + i \/ nat_of_ascii y = 97 + i).

(** Two names in ASCII are equal ignoring case: they have the same length
    and, at each position, the same character ignoring case. *)
Fixpoint same_letters (a b : string) : Prop :=
  match a, b with
  | EmptyString, EmptyString => True
  | String x a', String y b' => same_letter x y /\ same_letters a' b'
  | _, _ => False
  end.

(** The lowercase of a byte and of a text when only the letters A to Z are
    taken for capitals: what [lower] is shown to do on ASCII. *)
Definition lower_ascii (c : ascii) : ascii :=
  let n := nat_of_ascii c in
  if (65 <=? n)%nat && (n <=? 90)%nat then ascii_of_nat (n + 32) else c.

Fixpoint lower_ascii_string (s : string) : string :=
  match s with
  | EmptyString => EmptyString
  | String c s' => String (lower_ascii c) (lower_ascii_string s')
  end.

(** The lowercase mappings that lead from above ASCII into it: the run is
    below 128 altogether, or its targets are above, or it is one character
    that maps to the letter k (the Kelvin sign). *)
Definition entry_above_ascii (e : N * N * N * N) : bool :=
  let '(first, last, step, target) := e in
  (last <? 128)%N || (128 <=? target)%N || ((first =? last)%N && (target =? 107)%N).

(** Section 4.1: the value of the first header, in list order, whose name is
    the requested one ignoring case, and the empty string when there is
    none; [same] is what equal ignoring case means. *)
Inductive header_lookup (same : string -> string -> Prop) (n : string)
    : list Header -> string -> Prop :=
| lookup_absent (hs : list Header) :
    Forall (fun h => ~ same (name h) n) hs ->
    header_lookup same n hs ""
| lookup_first (pre : list Header) (h : Header) (post : list Header) :
    Forall (fun h' => ~ same (name h') n) pre ->
    same (name h) n ->
    header_lookup same n (pre ++ h :: post) (value h).

(** A subject that starts with [Re:] in any letter case. *)
Definition re_prefixed (s : string) : Prop :=
  exists (r e : ascii) (rest : string),
    s = String r (String e (String ":" rest)) /\
    (r = "R"%char \/ r = "r"%char) /\ (e = "E"%char \/ e = "e"%char).

(** What the string of each class looks like (section 4.6). The last class
    has two forms: the remote error with another status, and the exception of
    another type with the name of its type and its message. *)
Definition class_message (c : ErrorClass) (e : exn) (s : string) : Prop :=
  match c with
  | NotFound =>
      (exists details, e = HttpError 404 details) /\
      s = "Error: Resource not found. Please check the ID is correct."
  | PermissionDenied =>
      (exists details, e = HttpError 403 details) /\
      s = "Error: Permission denied. Check your Gmail API permissions."
  | RateLimited =>
      (exists details, e = HttpError 429 details) /\
      s = "Error: Rate limit exceeded. Please wait before making more requests."
  | InvalidRequest =>
      exists details,
        e = HttpError 400 details /\
        s = "Error: Invalid request. " +:+ default "Check your parameters." details
  | CredentialMissing => exists msg, e = FileNotFoundError msg /\ s = msg
  | Unknown =>
      (exists status details,
          e = HttpError status details /\
          s = "Error: Gmail API error (status " +:+ str_int status +:+ ")") \/
      (exists type_name msg,
          e = PyError type_name msg /\ s = "Error: " +:+ type_name +:+ ": " +:+ msg)
  end.

(** The data [_decode_message_body] decodes first: without parts, the
    data of the body; with parts, the data of the first part that is
    text/plain or text/html and has data. *)
Fixpoint first_part_data (ps : list Part) : option string :=
  match ps with
  | [] => None
  | part :: ps' =>
      if String.eqb (mimeType part) "text/plain" || String.eqb (mimeType part) "text/html"
      then match data (part_body part) with
           | Some d => Some d
           | None => first_part_data ps'
           end
      else first_part_data ps'
  end.

Definition first_data (payload : Payload) : option string :=
  match parts payload with
  | Some ps => first_part_data ps
  | None =>
      match body payload with
      | Some b => data b
      | None => None
      end
  end.

(** Section 4.5: a body of more than 500 characters is shown by its first
    500 characters and the ellipsis, a shorter one in full. *)
Definition preview_of (body shown : string) : Prop :=
  (py_len body <= 500 /\ shown = body) \/
  (500 < py_len body /\
   py_len (py_slice_to 500 body) = 500 /\
   (exists rest, body = py_slice_to 500 body +:+ rest) /\
   shown = py_slice_to 500 body +:+ "...").

(** The sections of a search with bodies in the human-readable format,
    numbered from [i], where [shown] is what is shown of each body. *)
Fixpoint sections_with_body (i : nat) (msgs : list Message) (shown : list string) : string :=
  match msgs, shown with
  | msg :: msgs', text :: shown' =>
      (search_message_fields i msg +:+
       ("**Body:**" +:+ LF +:+ "```" +:+ LF +:+ text +:+ LF +:+ "```" +:+ LF +:+ LF) +:+
       "---" +:+ LF +:+ LF) +:+
      sections_with_body (S i) msgs' shown'
  | _, _ => ""
  end.

(** The order of the display names, as [<=] compares two strings. *)
Definition name_le (a b : Label) : Prop :=
  String.leb (label_name a) (label_name b) = true.

(** The claim C6 as the specification states it: the identifier and the
    display name of every label of the list resolve to its identifier. *)
Definition either_form_resolves (labels : list Label) : Prop :=
  forall label, In label labels ->
    build_label_map labels !! label_id label = Some (label_id label) /\
    build_label_map labels !! label_name label = Some (label_id label).

(** A name that the label map resolves. *)
Definition is_key (label_map : gmap string string) (label : string) : Prop :=
  is_Some (label_map !! label).

(** A list of names that is absent or empty. *)
Definition no_labels (labels : option (list string)) : Prop :=
  labels = None \/ labels = Some [].

(** The claim C3 as the specification states it: whatever the payload,
    [_decode_message_body] returns a text, the empty one when the data it
    decodes is malformed. *)
Definition decode_never_raises (rt : Runtime) (payload : Payload) : Prop :=
  (exists text, _decode_message_body rt payload = Return text) /\
  (forall d e, first_data payload = Some d -> decode_data rt d = Raise e ->
               _decode_message_body rt payload = Return "").

(** The claim C8 for [get_email] as the specification states it: the body
    of the human-readable output is the preview. *)
Definition get_email_shows_preview (rt : Runtime) (service : Service)
    (params : GetEmailInput.t) (log : list Call) : Prop :=
  forall msg body,
    GetEmailInput.response_format params = MARKDOWN ->
    messages_get service log (GetEmailInput.message_id params) "full" = Return msg ->
    _decode_message_body rt (payload msg) = Return body ->
    get_email rt (Return service) params log =
      (Return (get_email_fields msg +:+ "## Body" +:+ LF +:+ LF +:+ body_preview body +:+ LF),
       log ++ [users_messages_get (GetEmailInput.message_id params) "full"]).

(** The claim C9 for the structured format as the specification states it:
    the output is the document of the labels arranged so that those of each
    type come in the order of their names. *)
Definition json_listing_sorted (rt : Runtime) (service : Service)
    (log : list Call) (labels : list Label) : Prop :=
  exists listed,
    Permutation listed labels /\
    (forall type, StronglySorted name_le (labels_of_type type listed)) /\
    list_labels rt (Return service) {| ListLabelsInput.response_format := JSON |} log =
      (Return (dumps rt (list_labels_json listed)), log ++ [users_labels_list]).

(** ** Sample data of the examples *)

(** The labels of an account: a system label and a user label. *)
Definition inbox_and_work : list Label :=
  [ {| label_id := "INBOX"; label_name := "INBOX"; label_type := "system" |};
    {| label_id := "Label_1"; label_name := "Work"; label_type := "user" |} ].

(** Two labels, the first of which is named as the second is identified. *)
Definition colliding_labels : list Label :=
  [ {| label_id := "Label_1"; label_name := "Label_2"; label_type := "user" |};
    {| label_id := "Label_2"; label_name := "Work"; label_type := "user" |} ].

(** The answer of a call the remote side refuses. *)
Definition refused {A : Type} : outcome A := Raise (HttpError 403 None).

(** A service whose account has the given labels: it lists them and accepts
    every modification of a message; its other calls are refused. *)
Definition sample_service (labels : list Label) : Service :=
  {| labels_list := fun _ => Return (Some labels);
     labels_create := fun _ _ => refused;
     messages_list := fun _ _ _ => refused;
     messages_get := fun _ _ _ => refused;
     messages_send := fun _ _ => refused;
     messages_modify := fun _ _ _ => Return tt;
     messages_trash := fun _ _ => refused;
     threads_get := fun _ _ => refused |}.

(** A service on which the message m2 does not exist. *)
Definition service_without_m2 : Service :=
  {| labels_list := fun _ => Return (Some inbox_and_work);
     labels_create := fun _ _ => refused;
     messages_list := fun _ _ _ => refused;
     messages_get := fun _ id' _ =>
       if String.eqb id' "m2" then Raise (HttpError 404 None) else refused;
     messages_send := fun _ _ => refused;
     messages_modify := fun _ id' _ =>
       if String.eqb id' "m2" then Raise (HttpError 404 None) else Return tt;
     messages_trash := fun _ _ => refused;
     threads_get := fun _ _ => Return [] |}.

(** A service that lists and gives one message, and refuses the rest. *)
Definition mail_service (msg : Message) : Service :=
  {| labels_list := fun _ => refused;
     labels_create := fun _ _ => refused;
     messages_list := fun _ _ _ => Return (Some [msg_id msg]);
     messages_get := fun _ _ _ => Return msg;
     messages_send := fun _ _ => refused;
     messages_modify := fun _ _ _ => refused;
     messages_trash := fun _ _ => refused;
     threads_get := fun _ _ => refused |}.

(** A body whose data is three characters of the alphabet with no padding. *)
Definition bad_padding_payload : Payload :=
  {| headers := []; parts := None; body := Some {| data := Some "QUI" |} |}.

(** A message whose body is the letter a, 501 times. *)
Definition long_body : string := String.concat "" (repeat "a" 501).

Definition long_message : Message :=
  {| msg_id := "m1";
     threadId := "t1";
     payload :=
       {| headers := [ {| name := "Subject"; value := "Minutes" |};
                       {| name := "From"; value := "boss@x.com" |} ];
          parts := None;
          body := Some {| data := Some (String.concat "" (repeat "YWFh" 167)) |} |};
     snippet := Some "aaa";
     labelIds := Some ["INBOX"] |}.

(** Two user labels, listed by the remote side in the order b, a. *)
Definition label_b : Label :=
  {| label_id := "Label_2"; label_name := "b"; label_type := "user" |}.

Definition label_a : Label :=
  {| label_id := "Label_1"; label_name := "a"; label_type := "user" |}.

(** Two system labels and two user labels, neither group in the order of
    its names. *)
Definition mixed_labels : list Label :=
  [ {| label_id := "Label_2"; label_name := "Work"; label_type := "user" |};
    {| label_id := "SENT"; label_name := "SENT"; label_type := "system" |};
    {| label_id := "Label_1"; label_name := "Travel"; label_type := "user" |};
    {| label_id := "INBOX"; label_name := "INBOX"; label_type := "system" |} ].

(** ** The session provider and the authentication script *)

Module Session.

(** What the code reads of a credentials object. *)
Record Credentials : Type := {
  valid : bool;
  expired : bool;
  refresh_token : option string
}.

(** The library calls around the credentials: [pickle.load] of the content
    of a token file (the object it holds may be [None]), [pickle.dump],
    [creds.refresh(Request())] with the state of the object after the call,
    [build('gmail', 'v1', credentials=creds)], and the local OAuth flow
    ([InstalledAppFlow.from_client_secrets_file] and [run_local_server]). *)
Record Library : Type := {
  pickle_load : list Byte.byte -> outcome (option Credentials);
  pickle_dump : Credentials -> list Byte.byte;
  refresh : Credentials -> outcome Credentials;
  build : option Credentials -> outcome Service;
  run_local_server : outcome Credentials
}.

(** [creds and creds.expired and creds.refresh_token] *)
Definition should_refresh (creds : option Credentials) : bool :=
  match creds with
  | Some c =>
      expired c &&
      match refresh_token c with
      | Some t => negb (String.eqb t "")
      | None => false
      end
  | None => false
  end.

(** The state of the server process that [get_gmail_service] reads and
    writes: the global [_gmail_service], and the content of the file at
    [TOKEN_PATH] when it exists. *)
Record Process : Type := {
  _gmail_service : option Service;
  token_file : option (list Byte.byte)
}.

Section GetService.
Variable lib : Library.
Variable TOKEN_PATH : string.

Definition token_not_found : string :=
  "Gmail token not found at " +:+ TOKEN_PATH +:+ ". " +:+
  "Please provide a valid gmail_token.pickle file.".

Definition get_gmail_service (st : Process) : outcome Service * Process :=
  match _gmail_service st with
  | Some service => (Return service, st)
  | None =>
      match token_file st with
      | None => (Raise (FileNotFoundError token_not_found), st)
      | Some content =>
          match pickle_load lib content with
          | Raise e => (Raise e, st)
          | Return creds =>
              let refreshed :=
                match creds with
                | Some c =>
                    if should_refresh creds then
                      match refresh lib c with
                      | Raise e => Raise e
                      | Return c' =>
                          Return (Some c',
                                  {| _gmail_service := None;
                                     token_file := Some (pickle_dump lib c') |})
                      end
                    else Return (creds, st)
                | None => Return (creds, st)
                end in
              match refreshed with
              | Raise e => (Raise e, st)
              | Return (creds', st') =>
                  match build lib creds' with
                  | Raise e => (Raise e, st')
                  | Return service =>
                      (Return service,
                       {| _gmail_service := Some service; token_file := token_file st' |})
                  end
              end
          end
      end
  end.
End GetService.

(** *** authenticate_gmail.py *)

(** The files [authenticate] looks at: whether the client secrets file
    exists, and the content of the token file when it exists. *)
Record Files : Type := {
  credentials_file_exists : bool;
  token : option (list Byte.byte)
}.

Definition credentials_file : string :=
  "client_secret_861480904686-enbkcu25vtt61fb01r7c8q0bimohqc67.apps.googleusercontent.com.json".

Definition token_file_name : string := "gmail_token.pickle".

(** A run of [authenticate]: how it ends, the lines it has printed and the
    token file it leaves. An exception of the library is not handled: it ends
    the run. *)
Record Run : Type := {
  ended : outcome unit;
  printed : list string;
  token_left : option (list Byte.byte)
}.

(** [not creds or not creds.valid] *)
Definition needs_authentication (creds : option Credentials) : bool :=
  match creds with
  | Some c => negb (valid c)
  | None => true
  end.

(** The branch that obtains credentials, saves them and reports. *)
Definition obtain_and_save (lib : Library) (files : Files) (creds : option Credentials) : Run :=
  let saved (before : string) (c : Credentials) :=
    {| ended := Return tt;
       printed := [before; LF +:+ "✓ Token saved to " +:+ token_file_name;
                   "Upload this file to Claude to complete setup!"];
       token_left := Some (pickle_dump lib c) |} in
  let failed (before : string) (e : exn) :=
    {| ended := Raise e; printed := [before]; token_left := token files |} in
  let flow :=
    match run_local_server lib with
    | Return c => saved "Starting authentication flow..." c
    | Raise e => failed "Starting authentication flow..." e
    end in
  match creds with
  | Some c =>
      if should_refresh creds then
        match refresh lib c with
        | Return c' => saved "Refreshing expired token..." c'
        | Raise e => failed "Refreshing expired token..." e
        end
      else flow
  | None => flow
  end.

Definition authenticate (lib : Library) (files : Files) : Run :=
  if negb (credentials_file_exists files) then
    {| ended := Return tt;
       printed := ["Error: " +:+ credentials_file +:+ " not found!";
                   "Please place your OAuth client credentials file in the same directory."];
       token_left := token files |}
  else
    let loaded :=
      match token files with
      | Some content => pickle_load lib content
      | None => Return None
      end in
    match loaded with
    | Raise e => {| ended := Raise e; printed := []; token_left := token files |}
    | Return creds =>
        if needs_authentication creds then obtain_and_save lib files creds
        else
          {| ended := Return tt;
             printed := ["✓ Already authenticated!"; "Token file: " +:+ token_file_name];
             token_left := token files |}
    end.

End Session.

(** ** Words for the remote side and for the decoding, used by the theorems *)

(** The remote side answers each of the calls for [xs], issued one after the
    other from the log [log], and its answers are [ys]. *)
Inductive answered {X Y : Type} (answer : list Call -> X -> outcome Y) (call : X -> Call)
  : list Call -> list X -> list Y -> Prop :=
| answered_nil (log : list Call) : answered answer call log [] []
| answered_cons (log : list Call) (x : X) (xs : list X) (y : Y) (ys : list Y) :
    answer log x = Return y ->
    answered answer call (log ++ [call x]) xs ys ->
    answered answer call log (x :: xs) (y :: ys).

(** A part of the given type that has data. *)
Definition has_data_of (type : string) (part : Part) : Prop :=
  mimeType part = type /\ is_Some (data (part_body part)).

(** The body of the archive request. *)
Definition archive_body : ModifyBody :=
  {| addLabelIds := None; removeLabelIds := Some ["INBOX"] |}.

(** The names of a request and the identifiers the label map gives them. *)
Definition resolved (label_map : gmap string string) (names ids : list string) : Prop :=
  Forall2 (fun n i => label_map !! n = Some i) names ids.

(** A message of a thread about a report, with a plain body that reads
    Hello. *)
Definition quarterly_message (id' : string) : Message :=
  {| msg_id := id';
     threadId := "t1";
     payload :=
       {| headers := [ {| name := "From"; value := "boss@x.com" |};
                       {| name := "Cc"; value := "team@x.com" |};
                       {| name := "Subject"; value := "Quarterly Report" |};
                       {| name := "Message-ID"; value := "<q3@x.com>" |} ];
          parts := None;
          body := Some {| data := Some "SGVsbG8=" |} |};
     snippet := Some "Hello";
     labelIds := Some ["INBOX"; "UNREAD"] |}.

(** A service with the labels [inbox_and_work], on which the message m2 does
    not exist, the query nothing matches no message and any other query
    matches m1 and m3. *)
Definition demo_service : Service :=
  {| labels_list := fun _ => Return (Some inbox_and_work);
     labels_create := fun _ body =>
       Return {| label_id := "Label_9"; label_name := lo_name body; label_type := "user" |};
     messages_list := fun _ q _ =>
       if String.eqb q "nothing" then Return None else Return (Some ["m1"; "m3"]);
     messages_get := fun _ id' _ =>
       if String.eqb id' "m2" then Raise (HttpError 404 None)
       else Return (quarterly_message id');
     messages_send := fun _ body =>
       Return {| sent_id := "s1"; sent_threadId := default "t9" (send_threadId body) |};
     messages_modify := fun _ id' _ =>
       if String.eqb id' "m2" then Raise (HttpError 404 None) else Return tt;
     messages_trash := fun _ id' =>
       if String.eqb id' "m2" then Raise (HttpError 404 None) else Return tt;
     threads_get := fun _ _ => Return [quarterly_message "m1"; quarterly_message "m3"] |}.

(** The sections of a search without bodies in the Markdown format, numbered
    from [i], and the entry of a message in the JSON format. *)
Fixpoint sections_without_body (i : nat) (msgs : list Message) : string :=
  match msgs with
  | [] => ""
  | msg :: rest =>
      (search_message_fields i msg +:+ "---" +:+ LF +:+ LF) +:+
      sections_without_body (S i) rest
  end.

Definition message_summary (msg : Message) : json :=
  let headers := headers (payload msg) in
  JDict [("id", JString (msg_id msg));
         ("thread_id", JString (threadId msg));
         ("from", JString (_get_header_value headers "From"));
         ("to", JString (_get_header_value headers "To"));
         ("subject", JString (_get_header_value headers "Subject"));
         ("date", JString (_get_header_value headers "Date"));
         ("snippet", JString (default "" (snippet msg)));
         ("labels", JList (map JString (default [] (labelIds msg))))].

(** A run of the library for the examples: a message with a line feed in
    the value of a header is refused, and any other is flattened to its
    header lines, an empty line and its text. *)
Definition header_line (kv : string * string) : string :=
  fst kv +:+ ": " +:+ snd kv +:+ LF.

Definition message_text (message : MIMEMessage) : string :=
  match content message with
  | MIMEText text _ => text
  | MIMEMultipart _ attached => String.concat LF (map fst attached)
  end.

Fixpoint has_line_feed (s : string) : bool :=
  match s with
  | EmptyString => false
  | String c s' => Ascii.eqb c (ascii_of_nat 10) || has_line_feed s'
  end.

Definition demo_as_bytes (message : MIMEMessage) : outcome (list Byte.byte) :=
  if existsb (fun kv => has_line_feed (snd kv)) (mime_headers message)
  then Raise (PyError "HeaderParseError"
                      "header value appears to contain an embedded header")
  else Return (list_byte_of_string
                 (String.concat "" (map header_line (mime_headers message)) +:+ LF +:+
                  message_text message)).

(** A library for the examples: a token file holds one byte that tells
    whether the credentials are valid (1), expired (2) or neither; a refresh
    and the local flow give valid credentials; every credentials object gets
    the handle [demo_service]. *)
Definition demo_library : Session.Library :=
  {| Session.pickle_load := fun content =>
       match content with
       | [] => Raise (PyError "EOFError" "Ran out of input")
       | b :: _ =>
           Return (Some {| Session.valid := Byte.eqb b Byte.x01;
                           Session.expired := Byte.eqb b Byte.x02;
                           Session.refresh_token := Some "1//refresh" |})
       end;
     Session.pickle_dump := fun c =>
       [if Session.valid c then Byte.x01
        else if Session.expired c then Byte.x02 else Byte.x00];
     Session.refresh := fun c =>
       Return {| Session.valid := true; Session.expired := false;
                 Session.refresh_token := Session.refresh_token c |};
     Session.build := fun _ => Return demo_service;
     Session.run_local_server :=
       Return {| Session.valid := true; Session.expired := false;
                 Session.refresh_token := Some "1//new" |} |}.

(** * Theorems *)

(** ** The error classifier and the handler boundary *)

Lemma classify_message (e : exn) : class_message (classify e) e (_handle_api_error e).
Proof.
  destruct e as [status details | msg | ty msg]; simpl.
  - destruct (Z.eqb_spec status 404) as [-> | _]; [split; eauto |].
    destruct (Z.eqb_spec status 403) as [-> | _]; [split; eauto |].
    destruct (Z.eqb_spec status 429) as [-> | _]; [split; eauto |].
    destruct (Z.eqb_spec status 400) as [-> | _]; simpl.
    + exists details. split; [reflexivity |]. destruct details; reflexivity.
    + left. exists status, details. split; reflexivity.
  - exists msg. split; reflexivity.
  - right. exists ty, msg. split; reflexivity.
Qed.

Lemma try_except_run {A : Type} (m : M A) (h : exn -> A) (log : list Call) :
  try_except m h log =
    match m log with
    | (Return a, log') => (Return a, log')
    | (Raise e, log') => (Return (h e), log')
    end.
Proof. reflexivity. Qed.

Lemma call_tool_try_block (rt : Runtime) (gmail : outcome Service)
    (as_bytes : MIMEMessage -> outcome (list Byte.byte)) (op : Operation) :
  call_tool rt gmail as_bytes op = try_except (try_block rt gmail as_bytes op) _handle_api_error.
Proof. destruct op; reflexivity. Qed.

(** C2. Every operation returns a string, whatever happens in its [try]
    block: the result of the block when it returns, and the string the
    classifier makes of the exception when it raises. The classifier is a
    total function: each exception falls in one of the six classes, the last
    of which takes every exception the first five leave, and its string is
    the one of that class. *)
Theorem handler_boundary_total (rt : Runtime) (gmail : outcome Service)
    (as_bytes : MIMEMessage -> outcome (list Byte.byte))
    (op : Operation) (log : list Call) :
  (exists (s : string) (log' : list Call),
      call_tool rt gmail as_bytes op log = (Return s, log') /\
      (try_block rt gmail as_bytes op log = (Return s, log') \/
       exists e, try_block rt gmail as_bytes op log = (Raise e, log') /\
                 s = _handle_api_error e)) /\
  (forall e : exn,
      class_message (classify e) e (_handle_api_error e) /\
      (classify e = Unknown <->
       classify e <> NotFound /\ classify e <> PermissionDenied /\
       classify e <> RateLimited /\ classify e <> InvalidRequest /\
       classify e <> CredentialMissing)).
Proof.
  split.
  - rewrite call_tool_try_block, try_except_run.
    destruct (try_block rt gmail as_bytes op log) as [[s | e] log'].
    + exists s, log'. split; [reflexivity | left; reflexivity].
    + exists (_handle_api_error e), log'. split; [reflexivity |].
      right. exists e. split; reflexivity.
  - intros e. split; [apply classify_message |].
    destruct (classify e); split; intros H;
      repeat split; try discriminate; try reflexivity;
      destruct H as (H1 & H2 & H3 & H4 & H5); congruence.
Qed.

(** A remote error, a missing token file and an exception of another type,
    each at the boundary of a handler. *)
Example get_email_not_found :
  get_email cpython (Return service_without_m2)
    {| GetEmailInput.message_id := "m2"; GetEmailInput.response_format := MARKDOWN |} [] =
  (Return "Error: Resource not found. Please check the ID is correct.",
   [users_messages_get "m2" "full"]).
Proof. reflexivity. Qed.

Example list_labels_no_token :
  list_labels cpython (Raise (FileNotFoundError "Gmail token not found at gmail_token.pickle."))
    {| ListLabelsInput.response_format := JSON |} [] =
  (Return "Gmail token not found at gmail_token.pickle.", []).
Proof. reflexivity. Qed.

Example reply_to_empty_thread :
  reply_to_email (Return service_without_m2) (fun _ => Return [])
    {| ReplyToEmailInput.thread_id := "t9"; ReplyToEmailInput.body := "Thanks";
       ReplyToEmailInput.reply_all := false; ReplyToEmailInput.is_html := false |} [] =
  (Return "Error: IndexError: list index out of range", [users_threads_get "t9"]).
Proof. reflexivity. Qed.

Example handle_server_error :
  _handle_api_error (HttpError 500 None) = "Error: Gmail API error (status 500)" /\
  classify (HttpError 500 None) = Unknown.
Proof. split; vm_compute; reflexivity. Qed.

(** The second of three messages fails: the first stays archived, the third
    is not tried, and the result is the string of the failure. *)
Example archive_stops_at_failure :
  archive_emails (Return service_without_m2)
    {| ArchiveEmailsInput.message_ids := ["m1"; "m2"; "m3"] |} [] =
  (Return "Error: Resource not found. Please check the ID is correct.",
   [users_messages_modify "m1" {| addLabelIds := None; removeLabelIds := Some ["INBOX"] |};
    users_messages_modify "m2" {| addLabelIds := None; removeLabelIds := Some ["INBOX"] |}]).
Proof. reflexivity. Qed.

(** ** The lowercase form of a text *)


Lemma N_of_ascii_lt (c : ascii) : (N_of_ascii c < 256)%N.
Proof. apply N_ascii_bounded. Qed.

Lemma is_continuation_N (c : ascii) :
  is_continuation c = true -> (128 <= N_of_ascii c < 192)%N.
Proof.
  unfold is_continuation, nat_of_ascii. intros H.
  apply andb_true_iff in H. destruct H as [H1 H2].
  apply Nat.leb_le in H1. apply Nat.ltb_lt in H2. lia.
Qed.

Lemma sequence_ascii (c : ascii) (s : string) :
  (N_of_ascii c <? 128)%N = true -> sequence c s = Some (N_of_ascii c, 0).
Proof. intros H. unfold sequence. rewrite H. reflexivity. Qed.

Lemma sequence_high (c : ascii) (s : string) (x : N) (n : nat) :
  (N_of_ascii c <? 128)%N = false -> sequence c s = Some (x, n) -> (128 <= x)%N.
Proof.
  intros Hc. unfold sequence. rewrite Hc.
  destruct (N.ltb_spec (N_of_ascii c) 194); [discriminate |].
  destruct s as [| c2 s2]; [discriminate |].
  destruct (is_continuation c2) eqn:H2; [| discriminate]. cbn [negb].
  apply is_continuation_N in H2.
  destruct (N.ltb_spec (N_of_ascii c) 224).
  { intros E. inversion E; subst. lia. }
  destruct s2 as [| c3 s3]; [discriminate |].
  destruct (is_continuation c3) eqn:H3; [| discriminate]. cbn [negb].
  apply is_continuation_N in H3.
  destruct (N.ltb_spec (N_of_ascii c) 240).
  { destruct (N.ltb_spec (N_of_ascii c2) 160).
    - destruct (N.eqb_spec (N_of_ascii c) 224); [discriminate |].
      intros E. inversion E; subst. lia.
    - destruct (N.eqb_spec (N_of_ascii c) 237); [discriminate |].
      intros E. inversion E; subst. lia. }
  destruct s3 as [| c4 s4]; [discriminate |].
  destruct (is_continuation c4) eqn:H4; [| discriminate]. cbn [negb].
  destruct (N.ltb_spec (N_of_ascii c) 245); [| discriminate].
  destruct (N.ltb_spec (N_of_ascii c2) 144).
  - destruct (N.eqb_spec (N_of_ascii c) 240); [discriminate |].
    intros E. inversion E; subst. lia.
  - destruct (N.eqb_spec (N_of_ascii c) 244); [discriminate |].
    intros E. inversion E; subst. lia.
Qed.

Lemma chars_cons_ascii (c : ascii) (s : string) :
  (N_of_ascii c <? 128)%N = true -> chars (String c s) = N_of_ascii c :: chars s.
Proof.
  intros H. unfold chars. cbn [chars_from]. rewrite (sequence_ascii c s H). reflexivity.
Qed.

Lemma chars_cons_high (c : ascii) (s : string) :
  (N_of_ascii c <? 128)%N = false ->
  exists x rest, chars (String c s) = x :: rest /\ (128 <= x)%N.
Proof.
  intros H. unfold chars. cbn [chars_from].
  destruct (sequence c s) as [[x n] |] eqn:E.
  - exists x, (chars_from n s). split; [reflexivity |]. exact (sequence_high c s x n H E).
  - eexists _, _. split; [reflexivity |]. lia.
Qed.

Lemma lower_char_ascii (c : ascii) :
  (N_of_ascii c <? 128)%N = true ->
  lower_char (N_of_ascii c) = [N_of_ascii (lower_ascii c)] /\
  (N_of_ascii (lower_ascii c) <? 128)%N = true /\
  (N_of_ascii c =? 931)%N = false.
Proof.
  destruct c as [[] [] [] [] [] [] [] []]; intros H; vm_compute in H; try discriminate H;
    vm_compute; repeat split.
Qed.

Lemma lowercase_in_high (t : list (N * N * N * N)) (c l : N) :
  forallb entry_above_ascii t = true -> (128 <= c)%N ->
  lowercase_in t c = Some l -> (128 <= l)%N \/ l = 107%N.
Proof.
  intros Hall Hc. induction t as [| [[[first last] step] target] t IH]; cbn [lowercase_in].
  - discriminate.
  - cbn [forallb] in Hall. apply andb_true_iff in Hall. destruct Hall as [He Hall].
    destruct ((first <=? c)%N && (c <=? last)%N && ((c - first) mod step =? 0)%N) eqn:Hin.
    + intros E. inversion E; subst. clear E.
      apply andb_true_iff in Hin. destruct Hin as [Hin _].
      apply andb_true_iff in Hin. destruct Hin as [H1 H2].
      apply N.leb_le in H1. apply N.leb_le in H2.
      unfold entry_above_ascii in He.
      apply orb_true_iff in He. destruct He as [He | He].
      * apply orb_true_iff in He. destruct He as [He | He].
        -- apply N.ltb_lt in He. lia.
        -- apply N.leb_le in He. left. lia.
      * apply andb_true_iff in He. destruct He as [He1 He2].
        apply N.eqb_eq in He1. apply N.eqb_eq in He2. right. lia.
    + apply IH. exact Hall.
Qed.

Lemma lower_char_high (c : N) :
  (128 <= c)%N ->
  exists y ys, lower_char c = y :: ys /\ ((128 <= y)%N \/ y = 105%N \/ y = 107%N).
Proof.
  intros Hc. unfold lower_char.
  destruct (c =? 304)%N; [eexists _, _; split; [reflexivity | auto] |].
  destruct (lowercase_in lowercase_table c) as [l |] eqn:E.
  - exists l, []. split; [reflexivity |].
    destruct (lowercase_in_high lowercase_table c l eq_refl Hc E); auto.
  - exists c, []. split; [reflexivity | auto].
Qed.

Lemma utf8_ascii (c : N) : (c <? 128)%N = true -> utf8 c = String (ascii_of_N c) "".
Proof. intros H. unfold utf8. rewrite H. reflexivity. Qed.

Lemma utf8_high (c : N) :
  (128 <= c)%N -> exists b r, utf8 c = String b r /\ (128 <= N_of_ascii b)%N.
Proof.
  intros Hc. unfold utf8.
  destruct (N.ltb_spec c 128); [lia |].
  destruct (N.ltb_spec c 2048).
  { eexists _, _. split; [reflexivity |].
    assert (Hq : (c / 64 < 32)%N) by (apply N.Div0.div_lt_upper_bound; lia).
    generalize dependent (c / 64)%N. intros q Hq.
    rewrite N_ascii_embedding; lia. }
  destruct ((56448 <=? c)%N && (c <? 56576)%N) eqn:Hs.
  { apply andb_true_iff in Hs. destruct Hs as [H1 H2].
    apply N.leb_le in H1. apply N.ltb_lt in H2.
    eexists _, _. split; [reflexivity |]. rewrite N_ascii_embedding; lia. }
  destruct (N.ltb_spec c 65536).
  { eexists _, _. split; [reflexivity |].
    assert (Hq : (c / 4096 < 16)%N) by (apply N.Div0.div_lt_upper_bound; lia).
    generalize dependent (c / 4096)%N. intros q Hq.
    rewrite N_ascii_embedding; lia. }
  eexists _, _. split; [reflexivity |].
  assert (Hq : ((c / 262144) mod 8 < 8)%N) by (apply N.mod_lt; lia).
  generalize dependent ((c / 262144) mod 8)%N. intros q Hq.
  rewrite N_ascii_embedding; lia.
Qed.

Lemma lower_cons_ascii (st : bool) (c : ascii) (s : string) :
  (N_of_ascii c <? 128)%N = true ->
  text (lower_chars st (chars (String c s))) =
    String (lower_ascii c)
      (text (lower_chars (if case_ignorable (N_of_ascii c) then st else cased (N_of_ascii c))
                         (chars s))).
Proof.
  intros H. rewrite (chars_cons_ascii c s H). cbn [lower_chars].
  destruct (lower_char_ascii c H) as (-> & Hl & ->).
  cbn [app text]. rewrite (utf8_ascii _ Hl), ascii_N_embedding. reflexivity.
Qed.

Lemma lower_cons_high (st : bool) (c : ascii) (s : string) :
  (N_of_ascii c <? 128)%N = false ->
  exists b r, text (lower_chars st (chars (String c s))) = String b r /\
              ((128 <= N_of_ascii b)%N \/ b = "i"%char \/ b = "k"%char).
Proof.
  intros H. destruct (chars_cons_high c s H) as (x & rest & -> & Hx).
  cbn [lower_chars].
  assert (Hhead : exists y ys,
            (if (x =? 931)%N then [if st && ends_word rest then 962 else 963]%N
             else lower_char x) = y :: ys /\
            ((128 <= y)%N \/ y = 105%N \/ y = 107%N)).
  { destruct (x =? 931)%N.
    - eexists _, _. split; [reflexivity |]. left. destruct (st && ends_word rest); lia.
    - apply lower_char_high. exact Hx. }
  destruct Hhead as (y & ys & -> & Hy). cbn [app text].
  destruct Hy as [Hy | [-> | ->]].
  - destruct (utf8_high y Hy) as (b & r & -> & Hb).
    eexists _, _. split; [reflexivity | left; exact Hb].
  - eexists _, _. split; [reflexivity | right; left; reflexivity].
  - eexists _, _. split; [reflexivity | right; right; reflexivity].
Qed.

Lemma lower_ascii_r (c : ascii) :
  lower_ascii c = "r"%char <-> c = "R"%char \/ c = "r"%char.
Proof.
  destruct c as [[] [] [] [] [] [] [] []]; vm_compute;
    (split; [intros H; try discriminate H; auto | intros [H | H]; try discriminate H; reflexivity]).
Qed.

Lemma lower_ascii_e (c : ascii) :
  lower_ascii c = "e"%char <-> c = "E"%char \/ c = "e"%char.
Proof.
  destruct c as [[] [] [] [] [] [] [] []]; vm_compute;
    (split; [intros H; try discriminate H; auto | intros [H | H]; try discriminate H; reflexivity]).
Qed.

Lemma lower_ascii_colon (c : ascii) : lower_ascii c = ":"%char <-> c = ":"%char.
Proof.
  destruct c as [[] [] [] [] [] [] [] []]; vm_compute;
    (split; intros H; try discriminate H; reflexivity).
Qed.

(** The first byte of a lowered text, whatever came before it: the
    lowercase of an ASCII byte, and otherwise a byte that is no ASCII
    character or is the letter i or k. *)
Lemma lower_head (st : bool) (c : ascii) (s : string) (a : ascii) (p : string) :
  (N_of_ascii a <? 128)%N = true -> a <> "i"%char -> a <> "k"%char ->
  startswith (text (lower_chars st (chars (String c s)))) (String a p) = true ->
  lower_ascii c = a /\
  exists st', startswith (text (lower_chars st' (chars s))) p = true.
Proof.
  intros Ha Hi Hk. destruct (N_of_ascii c <? 128)%N eqn:Hc.
  - rewrite (lower_cons_ascii st c s Hc). cbn [startswith].
    intros H. apply andb_true_iff in H. destruct H as [H1 H2].
    apply Ascii.eqb_eq in H1. split; [auto |]. eexists. exact H2.
  - destruct (lower_cons_high st c s Hc) as (b & r & -> & Hb). cbn [startswith].
    intros H. apply andb_true_iff in H. destruct H as [H1 _].
    apply Ascii.eqb_eq in H1. subst b. exfalso.
    destruct Hb as [Hb | [Hb | Hb]]; [| contradiction | contradiction].
    apply N.ltb_lt in Ha. lia.
Qed.

Lemma startswith_re_iff (s : string) :
  startswith (lower s) "re:" = true <-> re_prefixed s.
Proof.
  unfold re_prefixed, lower. split.
  - destruct s as [| r s]; [intros H; discriminate H |].
    intros H. apply lower_head in H; [| reflexivity | discriminate | discriminate].
    destruct H as [Hr [st1 H]].
    destruct s as [| e s]; [discriminate H |].
    apply lower_head in H; [| reflexivity | discriminate | discriminate].
    destruct H as [He [st2 H]].
    destruct s as [| c rest]; [discriminate H |].
    apply lower_head in H; [| reflexivity | discriminate | discriminate].
    destruct H as [Hc _].
    exists r, e, rest.
    apply lower_ascii_r in Hr. apply lower_ascii_e in He.
    apply (proj1 (lower_ascii_colon c)) in Hc. subst c. auto.
  - intros (r & e & rest & -> & Hr & He).
    assert (Hr' : (N_of_ascii r <? 128)%N = true) by (destruct Hr as [-> | ->]; reflexivity).
    assert (He' : (N_of_ascii e <? 128)%N = true) by (destruct He as [-> | ->]; reflexivity).
    rewrite (lower_cons_ascii _ r _ Hr'), (lower_cons_ascii _ e _ He'),
      (lower_cons_ascii _ ":" _ eq_refl).
    apply lower_ascii_r in Hr. apply lower_ascii_e in He. rewrite Hr, He. reflexivity.
Qed.

Lemma lower_chars_isascii (s : string) :
  isascii s = true ->
  forall st, text (lower_chars st (chars s)) = lower_ascii_string s.
Proof.
  induction s as [| c s IH]; intros H st; [reflexivity |].
  cbn [isascii] in H. apply andb_true_iff in H. destruct H as [Hc Hs].
  rewrite (lower_cons_ascii st c s Hc), (IH Hs). reflexivity.
Qed.

Lemma lower_isascii (s : string) : isascii s = true -> lower s = lower_ascii_string s.
Proof. intros H. apply lower_chars_isascii. exact H. Qed.

Lemma nat_of_ascii_inj (x y : ascii) : nat_of_ascii x = nat_of_ascii y -> x = y.
Proof.
  intros E. rewrite <- (ascii_nat_embedding x), <- (ascii_nat_embedding y), E. reflexivity.
Qed.

Lemma lower_ascii_nat (c : ascii) :
  nat_of_ascii (lower_ascii c) =
    if (65 <=? nat_of_ascii c)%nat && (nat_of_ascii c <=? 90)%nat
    then nat_of_ascii c + 32 else nat_of_ascii c.
Proof.
  unfold lower_ascii. cbv zeta.
  destruct ((65 <=? nat_of_ascii c)%nat && (nat_of_ascii c <=? 90)%nat) eqn:E; [| reflexivity].
  apply andb_true_iff in E. destruct E as [E1 E2].
  apply Nat.leb_le in E1. apply Nat.leb_le in E2.
  apply nat_ascii_embedding. lia.
Qed.

Lemma lower_ascii_same_letter (x y : ascii) :
  lower_ascii x = lower_ascii y <-> same_letter x y.
Proof.
  unfold same_letter. split.
  - intros E. apply (f_equal nat_of_ascii) in E. rewrite !lower_ascii_nat in E.
    destruct (Nat.eq_dec (nat_of_ascii x) (nat_of_ascii y)) as [Heq | Hne];
      [left; apply nat_of_ascii_inj; exact Heq | right].
    destruct (Nat.leb_spec 65 (nat_of_ascii x)); destruct (Nat.leb_spec (nat_of_ascii x) 90);
      destruct (Nat.leb_spec 65 (nat_of_ascii y)); destruct (Nat.leb_spec (nat_of_ascii y) 90);
      cbn [andb] in E; try lia;
      first [ exists (nat_of_ascii x - 65); lia | exists (nat_of_ascii y - 65); lia ].
  - intros [-> | (i & Hi & H1 & H2)]; [reflexivity |].
    apply nat_of_ascii_inj. rewrite !lower_ascii_nat.
    destruct (Nat.leb_spec 65 (nat_of_ascii x)); destruct (Nat.leb_spec (nat_of_ascii x) 90);
      destruct (Nat.leb_spec 65 (nat_of_ascii y)); destruct (Nat.leb_spec (nat_of_ascii y) 90);
      cbn [andb]; lia.
Qed.

Lemma lower_ascii_string_same_letters (a b : string) :
  lower_ascii_string a = lower_ascii_string b <-> same_letters a b.
Proof.
  revert b. induction a as [| x a IH]; intros [| y b]; cbn [lower_ascii_string same_letters].
  - tauto.
  - split; [discriminate | tauto].
  - split; [discriminate | tauto].
  - rewrite <- IH, <- lower_ascii_same_letter. split.
    + intros E. inversion E. auto.
    + intros [-> ->]. reflexivity.
Qed.

(** On names in ASCII, equal ignoring case is the relation spelt out letter
    by letter. *)
Lemma same_name_isascii (a b : string) :
  isascii a = true -> isascii b = true -> (same_name a b <-> same_letters a b).
Proof.
  intros Ha Hb. unfold same_name. rewrite (lower_isascii a Ha), (lower_isascii b Hb).
  apply lower_ascii_string_same_letters.
Qed.

(** ** Header lookup *)

Lemma header_lookup_cons_skip (same : string -> string -> Prop) (n : string) (h : Header)
    (hs : list Header) (v : string) :
  ~ same (name h) n -> header_lookup same n hs v -> header_lookup same n (h :: hs) v.
Proof.
  intros Hne Hl. destruct Hl as [hs Hall | pre h' post Hall Hm].
  - apply lookup_absent. constructor; assumption.
  - change (h :: pre ++ h' :: post) with ((h :: pre) ++ h' :: post).
    apply lookup_first; [constructor; assumption | assumption].
Qed.

Lemma get_header_value_lookup (headers : list Header) (n : string) :
  header_lookup same_name n headers (_get_header_value headers n).
Proof.
  induction headers as [| h hs IH]; cbn [_get_header_value].
  - apply lookup_absent. constructor.
  - destruct (String.eqb_spec (lower (name h)) (lower n)) as [Heq | Hne].
    + apply (lookup_first same_name n [] h hs); [constructor | exact Heq].
    + apply header_lookup_cons_skip; assumption.
Qed.

(** A lookup under one meaning of equal ignoring case is a lookup under
    another that agrees with it on the names of the list. *)
Lemma header_lookup_agree (same same' : string -> string -> Prop) (n : string)
    (hs : list Header) (v : string) :
  Forall (fun h => same (name h) n <-> same' (name h) n) hs ->
  header_lookup same n hs v -> header_lookup same' n hs v.
Proof.
  intros Hagree Hl. destruct Hl as [hs Hall | pre h post Hall Hm].
  - apply lookup_absent.
    apply List.Forall_forall. intros h Hin.
    rewrite List.Forall_forall in Hagree, Hall.
    rewrite <- (Hagree h Hin). exact (Hall h Hin).
  - rewrite List.Forall_forall in Hagree.
    apply lookup_first.
    + apply List.Forall_forall. intros h' Hin.
      rewrite List.Forall_forall in Hall.
      rewrite <- (Hagree h' (in_or_app _ _ _ (or_introl Hin))). exact (Hall h' Hin).
    + apply (Hagree h); [| exact Hm]. apply in_or_app. right. left. reflexivity.
Qed.

(** C4. [_get_header_value] returns the value of the first header in list
    order whose name equals the requested name ignoring case, and the empty
    string when no header matches; being a total function it never fails.
    Equal ignoring case means that the two names have the same lowercase
    form; when the requested name and the names of the headers are in ASCII,
    as the names of mail headers are, it means that they have the same
    length and the same characters, a letter from A to Z being the same as
    its small letter. *)
Theorem get_header_value_first_match (headers : list Header) (n : string) :
  header_lookup same_name n headers (_get_header_value headers n) /\
  (isascii n = true ->
   Forall (fun h => isascii (name h) = true) headers ->
   header_lookup same_letters n headers (_get_header_value headers n)).
Proof.
  split; [apply get_header_value_lookup |].
  intros Hn Hall.
  apply (header_lookup_agree same_name same_letters); [| apply get_header_value_lookup].
  apply List.Forall_forall. intros h Hin.
  rewrite List.Forall_forall in Hall.
  apply same_name_isascii; [apply Hall; exact Hin | exact Hn].
Qed.

(** The header of a message written with a capital U umlaut is found under
    the name in small letters, and a header in ASCII under any case. *)
Lemma get_header_value_first_match_witness :
  header_lookup same_name "x-über"
    [ {| name := "Subject"; value := "Minutes" |}; {| name := "X-Über"; value := "v" |} ] "v" /\
  header_lookup same_letters "SUBJECT"
    [ {| name := "subject"; value := "first" |}; {| name := "Subject"; value := "second" |} ]
    "first".
Proof.
  split.
  - exact (proj1 (get_header_value_first_match
             [ {| name := "Subject"; value := "Minutes" |}; {| name := "X-Über"; value := "v" |} ]
             "x-über")).
  - apply (proj2 (get_header_value_first_match
             [ {| name := "subject"; value := "first" |};
               {| name := "Subject"; value := "second" |} ] "SUBJECT"));
      [reflexivity | repeat constructor].
Defined.

Example get_header_value_examples :
  let headers := [ {| name := "subject"; value := "first" |};
                   {| name := "From"; value := "a@x.com" |};
                   {| name := "Subject"; value := "second" |} ] in
  _get_header_value headers "SUBJECT" = "first" /\
  _get_header_value headers "from" = "a@x.com" /\
  _get_header_value headers "Cc" = "".
Proof. repeat split. Qed.

(** The lowercase form of texts outside ASCII: a capital with an accent, the
    capital sigma at the end of a word and inside one, the capital I with a
    dot, whose lowercase is two characters, and the Kelvin sign. *)
Example lower_examples :
  lower "CAFÉ" = "café" /\ lower "X-Über" = "x-über" /\
  lower "ΟΔΟΣ" = "οδος" /\ lower "ΣΟΦΙΑ" = "σοφια" /\
  lower "İ" = "i̇" /\ lower "K" = "k".
Proof. repeat split. Qed.

(** The lookup of section 4.1 has one result only. *)
Lemma header_lookup_functional (same : string -> string -> Prop) (n : string)
    (hs : list Header) (v1 v2 : string) :
  header_lookup same n hs v1 -> header_lookup same n hs v2 -> v1 = v2.
Proof.
  revert v1 v2. induction hs as [| h hs IH]; intros v1 v2 H1 H2.
  - inversion H1 as [? _ | pre ? ? _ _ Heq]; subst.
    + inversion H2 as [? _ | pre ? ? _ _ Heq]; subst; [reflexivity |].
      destruct pre; discriminate.
    + destruct pre; discriminate.
  - assert (Hstep : forall v, header_lookup same n (h :: hs) v ->
              (same (name h) n /\ v = value h) \/
              (~ same (name h) n /\ header_lookup same n hs v)).
    { intros v Hv. inversion Hv as [? Hall | pre h' post Hall Hm Heq]; subst.
      - right. inversion Hall; subst. split; [assumption |].
        apply lookup_absent. assumption.
      - destruct pre as [| p pre]; simpl in Heq; inversion Heq; subst.
        + left. split; [assumption | reflexivity].
        + right. inversion Hall; subst. split; [assumption |].
          apply lookup_first; assumption. }
    destruct (Hstep v1 H1) as [[Hm1 ->] | [Hn1 Hl1]];
      destruct (Hstep v2 H2) as [[Hm2 ->] | [Hn2 Hl2]];
      try reflexivity; try contradiction.
    apply IH; assumption.
Qed.

(** ** The reply subject *)

Lemma reply_subject_prefixed (s : string) : re_prefixed (reply_subject s).
Proof.
  unfold reply_subject.
  destruct (startswith (lower s) "re:") eqn:E; simpl.
  - apply startswith_re_iff. exact E.
  - exists "R"%char, "e"%char, (String " " s). repeat split; auto.
Qed.

(** C5. The derivation of the reply subject leaves a subject that starts
    with [Re:] in any letter case as it is, prepends [Re: ] once to any other
    subject, and applied to its own result changes nothing. *)
Theorem reply_subject_idempotent (s : string) :
  reply_subject (reply_subject s) = reply_subject s /\
  ((re_prefixed s /\ reply_subject s = s) \/
   (~ re_prefixed s /\ reply_subject s = "Re: " +:+ s)).
Proof.
  assert (Hfix : forall t, re_prefixed t -> reply_subject t = t).
  { intros t Ht. apply startswith_re_iff in Ht. unfold reply_subject.
    rewrite Ht. reflexivity. }
  split.
  - apply Hfix, reply_subject_prefixed.
  - destruct (startswith (lower s) "re:") eqn:E.
    + left. split; [apply startswith_re_iff; exact E | apply Hfix, startswith_re_iff; exact E].
    + right. split.
      * intros H. apply startswith_re_iff in H. congruence.
      * unfold reply_subject. rewrite E. reflexivity.
Qed.

Example reply_subject_quarterly : reply_subject "Quarterly Report" = "Re: Quarterly Report".
Proof. reflexivity. Qed.

Example reply_subject_upper : reply_subject "RE: plan" = "RE: plan".
Proof. reflexivity. Qed.

(** ** The label map *)

Section FoldInsert.
Variables (key val : Label -> string).

Let step (m : gmap string string) (label : Label) : gmap string string :=
  <[key label := val label]> m.

(** A dictionary filled from a list holds, for a key, a value [v] when it
    held [v] before or some label has the key, provided every label with the
    key brings [v]. *)
Lemma foldl_insert_lookup (labels : list Label) (m : gmap string string) (k v : string) :
  (m !! k = Some v \/ exists l, In l labels /\ key l = k) ->
  (forall l, In l labels -> key l = k -> val l = v) ->
  foldl step m labels !! k = Some v.
Proof.
  revert m. induction labels as [| a ls IH]; intros m Hsrc Hval; simpl.
  - destruct Hsrc as [H | (l & [] & _)]. exact H.
  - apply IH.
    + unfold step. destruct (decide (key a = k)) as [Heq | Hne].
      * left. rewrite Heq, lookup_insert_eq. f_equal. apply Hval; [left; reflexivity | exact Heq].
      * rewrite lookup_insert_ne by exact Hne.
        destruct Hsrc as [H | (l & [<- | Hin] & Hk)]; [left; exact H | contradiction |].
        right. exists l. split; assumption.
    + intros l Hin. apply Hval. right. exact Hin.
Qed.

(** A key that no label has keeps what the dictionary held. *)
Lemma foldl_insert_other (labels : list Label) (m : gmap string string) (k : string) :
  (forall l, In l labels -> key l <> k) ->
  foldl step m labels !! k = m !! k.
Proof.
  revert m. induction labels as [| a ls IH]; intros m Hne; simpl; [reflexivity |].
  rewrite IH by (intros l Hin; apply Hne; right; exact Hin).
  unfold step. apply lookup_insert_ne. apply Hne. left. reflexivity.
Qed.

(** What the dictionary holds for a key, it held before or a label brought. *)
Lemma foldl_insert_inv (labels : list Label) (m : gmap string string) (k v : string) :
  foldl step m labels !! k = Some v ->
  m !! k = Some v \/ exists l, In l labels /\ key l = k /\ val l = v.
Proof.
  revert m. induction labels as [| a ls IH]; intros m Hv; simpl in *; [left; exact Hv |].
  destruct (IH _ Hv) as [Hm | (l & Hin & Hk & Hl)].
  - unfold step in Hm. destruct (decide (key a = k)) as [Heq | Hne].
    + rewrite Heq, lookup_insert_eq in Hm. inversion Hm.
      right. exists a. auto.
    + rewrite lookup_insert_ne in Hm by exact Hne. left. exact Hm.
  - right. exists l. auto.
Qed.
End FoldInsert.

(** An identifier of the list resolves to itself. *)
Lemma label_map_identifier (labels : list Label) (label : Label) :
  In label labels ->
  build_label_map labels !! label_id label = Some (label_id label).
Proof.
  intros Hin. unfold build_label_map.
  apply (foldl_insert_lookup label_id label_id).
  - right. exists label. split; [exact Hin | reflexivity].
  - intros l _ H. exact H.
Qed.

(** A key that is no identifier and no name of the list is not in the map. *)
Lemma label_map_unknown (labels : list Label) (k : string) :
  (forall l, In l labels -> label_id l <> k /\ label_name l <> k) ->
  build_label_map labels !! k = None.
Proof.
  intros H. unfold build_label_map.
  rewrite (foldl_insert_other label_id label_id) by (intros l Hin; apply H; exact Hin).
  rewrite (foldl_insert_other label_name label_id) by (intros l Hin; apply H; exact Hin).
  apply lookup_empty.
Qed.

(** A key of the map is the name or the identifier of a label of the list,
    and its value the identifier of that label. *)
Lemma label_map_key (labels : list Label) (k v : string) :
  build_label_map labels !! k = Some v ->
  exists l, In l labels /\ (label_name l = k \/ label_id l = k) /\ label_id l = v.
Proof.
  unfold build_label_map. intros H.
  apply (foldl_insert_inv label_id label_id) in H.
  destruct H as [H | (l & Hin & Hk & Hv)].
  - apply (foldl_insert_inv label_name label_id) in H.
    destruct H as [H | (l & Hin & Hk & Hv)].
    + rewrite lookup_empty in H. discriminate.
    + exists l. auto.
  - exists l. auto.
Qed.

Example colliding_labels_lookup :
  build_label_map colliding_labels !! "Label_2" = Some "Label_2".
Proof. vm_compute. reflexivity. Qed.

(** C6, counterexample. The name of the first of [colliding_labels] resolves
    to the identifier of the second. *)
Lemma label_name_shadowed_by_identifier : ~ either_form_resolves colliding_labels.
Proof.
  intros H.
  destruct (H {| label_id := "Label_1"; label_name := "Label_2"; label_type := "user" |})
    as [_ Hname]; [left; reflexivity |].
  simpl in Hname. rewrite colliding_labels_lookup in Hname. discriminate.
Qed.

(** C6, amended. The identifier of a label of the list resolves to itself.
    Its display name resolves to its identifier as well when no label of the
    list with another identifier has that name as its identifier or as its
    own name. *)
Theorem label_resolves_by_either_form (labels : list Label) (label : Label) :
  In label labels ->
  (forall l, In l labels -> label_id l = label_name label -> label_id l = label_id label) ->
  (forall l, In l labels -> label_name l = label_name label -> label_id l = label_id label) ->
  build_label_map labels !! label_id label = Some (label_id label) /\
  build_label_map labels !! label_name label = Some (label_id label).
Proof.
  intros Hin Hids Hnames. split; [apply label_map_identifier; exact Hin |].
  unfold build_label_map.
  apply (foldl_insert_lookup label_id label_id); [left | exact Hids].
  apply (foldl_insert_lookup label_name label_id); [| exact Hnames].
  right. exists label. split; [exact Hin | reflexivity].
Qed.

Lemma label_resolves_by_either_form_witness :
  build_label_map inbox_and_work !! "Label_1" = Some "Label_1" /\
  build_label_map inbox_and_work !! "Work" = Some "Label_1".
Proof.
  apply (label_resolves_by_either_form inbox_and_work
           {| label_id := "Label_1"; label_name := "Work"; label_type := "user" |}).
  - right. left. reflexivity.
  - intros l [<- | [<- | []]]; simpl; intros H; [discriminate H | reflexivity].
  - intros l [<- | [<- | []]]; simpl; intros H; [discriminate H | reflexivity].
Defined.

(** ** modify_labels *)

(** The loop guarded by [if params.add_labels:] is the loop itself: on no
    list and on the empty list both collect nothing. *)
Lemma resolve_optional_loop (label_map : gmap string string) (labels : option (list string)) :
  resolve_optional label_map labels = resolve_labels label_map (default [] labels) [].
Proof. destruct labels as [[| l ls] |]; reflexivity. Qed.

(** A resolution loop ends on the first name that is not a key, with the
    message that names it, and collects an identifier per name otherwise. *)
Lemma resolve_labels_cases (label_map : gmap string string) (labels acc : list string) :
  (Forall (is_key label_map) labels /\
   exists ids, length ids = length labels /\
               resolve_labels label_map labels acc = inr (acc ++ ids)) \/
  (exists known failed rest,
      labels = known ++ failed :: rest /\
      Forall (is_key label_map) known /\
      label_map !! failed = None /\
      resolve_labels label_map labels acc = inl (label_not_found failed)).
Proof.
  revert acc. induction labels as [| l ls IH]; intros acc; simpl.
  - left. split; [constructor |]. exists []. rewrite app_nil_r. auto.
  - destruct (label_map !! l) as [i |] eqn:Hl.
    + destruct (IH (acc ++ [i])) as [(Hall & ids & Hlen & Hres) | (known & failed & rest & -> & Hk & Hf & Hres)].
      * left. split; [constructor; [unfold is_key; rewrite Hl; eauto | exact Hall] |].
        exists (i :: ids). split; [simpl; congruence |].
        rewrite Hres. rewrite <- app_assoc. reflexivity.
      * right. exists (l :: known), failed, rest. repeat split; try assumption.
        constructor; [unfold is_key; rewrite Hl; eauto | exact Hk].
    + right. exists [], l, ls. repeat split; [constructor | exact Hl].
Qed.

Lemma not_all_keys (label_map : gmap string string) (labels : list string) (label : string) :
  In label labels -> label_map !! label = None -> ~ Forall (is_key label_map) labels.
Proof.
  intros Hin Hnone Hall. rewrite List.Forall_forall in Hall.
  destruct (Hall label Hin) as [i Hi]. congruence.
Qed.

(** The steps of a handler up to the answer of its first remote call. *)
Ltac run_to_listing H :=
  unfold try_except, bind, get_gmail_service, lift, execute;
  rewrite H; cbv zeta.

(** C1. When the labels have been listed and a requested name, to add or to
    remove, is not a key of the label map, [modify_labels] returns the message
    that names the first such name, in the order of the two lists, and the
    only remote call it has issued is the listing: no message is modified. *)
Theorem modify_labels_unknown_label (service : Service) (params : ModifyLabelsInput.t)
    (log : list Call) (labels : option (list Label)) (label : string) :
  let label_map := build_label_map (default [] labels) in
  let requested := default [] (ModifyLabelsInput.add_labels params) ++
                   default [] (ModifyLabelsInput.remove_labels params) in
  labels_list service log = Return labels ->
  In label requested ->
  label_map !! label = None ->
  exists known failed rest,
    requested = known ++ failed :: rest /\
    Forall (is_key label_map) known /\
    label_map !! failed = None /\
    modify_labels (Return service) params log =
      (Return ("Error: Label '" +:+ failed +:+
               "' not found. Use gmail_list_labels to see available labels."),
       log ++ [users_labels_list]).
Proof.
  intros label_map requested Hlist Hin Hnone.
  unfold modify_labels, modify_labels_try. run_to_listing Hlist.
  fold label_map. rewrite !resolve_optional_loop.
  destruct (resolve_labels_cases label_map
              (default [] (ModifyLabelsInput.add_labels params)) [])
    as [(Hadds & ids & _ & Ha) | (known & failed & rest & Hsplit & Hk & Hf & Ha)];
    rewrite Ha.
  - destruct (resolve_labels_cases label_map
                (default [] (ModifyLabelsInput.remove_labels params)) [])
      as [(Hrems & ids' & _ & Hr) | (known & failed & rest & Hsplit & Hk & Hf & Hr)];
      rewrite Hr.
    + exfalso. apply (not_all_keys label_map requested label Hin Hnone).
      apply Forall_app. split; assumption.
    + exists (default [] (ModifyLabelsInput.add_labels params) ++ known), failed, rest.
      repeat split; try assumption.
      * unfold requested. rewrite Hsplit, <- app_assoc. reflexivity.
      * apply Forall_app. split; assumption.
  - exists known, failed, (rest ++ default [] (ModifyLabelsInput.remove_labels params)).
    repeat split; try assumption.
    unfold requested. rewrite Hsplit, <- app_assoc. reflexivity.
Qed.

Lemma modify_labels_unknown_label_witness :
  exists known failed rest,
    ["Work"; "Urgent"] ++ ["INBOX"] = known ++ failed :: rest /\
    Forall (is_key (build_label_map inbox_and_work)) known /\
    build_label_map inbox_and_work !! failed = None /\
    modify_labels (Return (sample_service inbox_and_work))
      {| ModifyLabelsInput.message_ids := ["m1"; "m2"];
         ModifyLabelsInput.add_labels := Some ["Work"; "Urgent"];
         ModifyLabelsInput.remove_labels := Some ["INBOX"] |} [] =
      (Return ("Error: Label '" +:+ failed +:+
               "' not found. Use gmail_list_labels to see available labels."),
       [] ++ [users_labels_list]).
Proof.
  apply (modify_labels_unknown_label (sample_service inbox_and_work)
           {| ModifyLabelsInput.message_ids := ["m1"; "m2"];
              ModifyLabelsInput.add_labels := Some ["Work"; "Urgent"];
              ModifyLabelsInput.remove_labels := Some ["INBOX"] |}
           [] (Some inbox_and_work) "Urgent").
  - reflexivity.
  - simpl. auto.
  - vm_compute. reflexivity.
Defined.

Example modify_labels_unknown_label_run :
  modify_labels (Return (sample_service inbox_and_work))
    {| ModifyLabelsInput.message_ids := ["m1"; "m2"];
       ModifyLabelsInput.add_labels := Some ["Work"; "Urgent"];
       ModifyLabelsInput.remove_labels := Some ["INBOX"] |} [] =
  (Return "Error: Label 'Urgent' not found. Use gmail_list_labels to see available labels.",
   [users_labels_list]).
Proof. vm_compute. reflexivity. Qed.

Example modify_labels_run :
  modify_labels (Return (sample_service inbox_and_work))
    {| ModifyLabelsInput.message_ids := ["m1"; "m2"];
       ModifyLabelsInput.add_labels := Some ["Work"];
       ModifyLabelsInput.remove_labels := Some ["INBOX"] |} [] =
  (Return ("✓ Successfully modified 2 message(s)" +:+ LF +:+ LF +:+
           "**Added labels:** Work" +:+ LF +:+ "**Removed labels:** INBOX" +:+ LF),
   [users_labels_list;
    users_messages_modify "m1"
      {| addLabelIds := Some ["Label_1"]; removeLabelIds := Some ["INBOX"] |};
    users_messages_modify "m2"
      {| addLabelIds := Some ["Label_1"]; removeLabelIds := Some ["INBOX"] |}]).
Proof. vm_compute. reflexivity. Qed.

Lemma no_labels_resolve (label_map : gmap string string) (labels : option (list string)) :
  no_labels labels -> resolve_optional label_map labels = inr [].
Proof. intros [-> | ->]; reflexivity. Qed.

(** The calls the loop over the messages adds to the log are modify calls
    only; this is what the handler can do to the mailbox. *)
Lemma modify_each_log (service : Service) (body : ModifyBody) (ids : list string)
    (count : nat) (log : list Call) :
  exists issued,
    snd (modify_each service body ids count log) = log ++ issued /\
    Forall (fun c => exists i, In i ids /\ c = users_messages_modify i body) issued.
Proof.
  revert count log. induction ids as [| i ids IH]; intros count log; simpl.
  - exists []. rewrite app_nil_r. split; [reflexivity | constructor].
  - unfold bind, execute.
    destruct (messages_modify service log i body) as [[] | e]; simpl.
    + destruct (IH (S count) (log ++ [users_messages_modify i body])) as (issued & Hlog & Hall).
      exists (users_messages_modify i body :: issued). split.
      * rewrite Hlog, <- app_assoc. reflexivity.
      * constructor; [exists i; auto |].
        eapply List.Forall_impl; [| exact Hall].
        intros c (j & Hj & ->). exists j. auto.
    + exists [users_messages_modify i body]. split; [reflexivity |].
      constructor; [exists i; auto | constructor].
Qed.

(** Once the labels are listed, the calls [modify_labels] issues after the
    listing are modify calls for the listed messages, and there is one only
    if every requested name has been resolved. *)
Lemma modify_labels_modifies_after_resolution (service : Service)
    (params : ModifyLabelsInput.t) (log : list Call) (labels : option (list Label)) :
  let label_map := build_label_map (default [] labels) in
  let requested := default [] (ModifyLabelsInput.add_labels params) ++
                   default [] (ModifyLabelsInput.remove_labels params) in
  labels_list service log = Return labels ->
  exists (s : string) (issued : list Call),
    modify_labels (Return service) params log =
      (Return s, (log ++ [users_labels_list]) ++ issued) /\
    (issued = [] \/
     (Forall (is_key label_map) requested /\
      exists body,
        Forall (fun c => exists i, In i (ModifyLabelsInput.message_ids params) /\
                                   c = users_messages_modify i body) issued)).
Proof.
  intros label_map requested Hlist.
  unfold modify_labels, modify_labels_try. run_to_listing Hlist.
  fold label_map. rewrite !resolve_optional_loop.
  destruct (resolve_labels_cases label_map
              (default [] (ModifyLabelsInput.add_labels params)) [])
    as [(Hadds & adds & _ & Ha) | (? & ? & ? & _ & _ & _ & Ha)]; rewrite Ha;
    [| eexists _, []; rewrite app_nil_r; split; [reflexivity | left; reflexivity]].
  destruct (resolve_labels_cases label_map
              (default [] (ModifyLabelsInput.remove_labels params)) [])
    as [(Hrems & rems & _ & Hr) | (? & ? & ? & _ & _ & _ & Hr)]; rewrite Hr;
    [| eexists _, []; rewrite app_nil_r; split; [reflexivity | left; reflexivity]].
  destruct (body_is_empty _);
    [eexists _, []; rewrite app_nil_r; split; [reflexivity | left; reflexivity] |].
  destruct (modify_each_log service (modify_body ([] ++ adds) ([] ++ rems))
              (ModifyLabelsInput.message_ids params) 0 (log ++ [users_labels_list]))
    as (issued & Hlog & Hall).
  destruct (modify_each service _ _ 0 _) as [[n | e] log'] eqn:Hrun;
    simpl in Hlog; subst log'.
  - eexists _, issued. split; [reflexivity |]. right.
    split; [apply Forall_app; split; assumption | eexists; exact Hall].
  - eexists _, issued. split; [reflexivity |]. right.
    split; [apply Forall_app; split; assumption | eexists; exact Hall].
Qed.

(** C10. When neither list holds a label, [modify_labels] issues no modify
    call, whatever the message identifiers and whatever the remote side does;
    and once the labels have been listed it returns the message that there
    is nothing to add or remove, the listing being its only remote call. *)
Theorem modify_labels_nothing_to_do (gmail : outcome Service)
    (params : ModifyLabelsInput.t) (log : list Call) :
  no_labels (ModifyLabelsInput.add_labels params) ->
  no_labels (ModifyLabelsInput.remove_labels params) ->
  (exists (s : string) (issued : list Call),
      modify_labels gmail params log = (Return s, log ++ issued) /\
      List.filter is_modify issued = []) /\
  (forall service labels,
      gmail = Return service ->
      labels_list service log = Return labels ->
      modify_labels gmail params log =
        (Return "Error: No labels to add or remove. Specify at least one label operation.",
         log ++ [users_labels_list])).
Proof.
  intros Hadd Hrem.
  assert (Hlisted : forall service labels,
             gmail = Return service ->
             labels_list service log = Return labels ->
             modify_labels gmail params log =
               (Return "Error: No labels to add or remove. Specify at least one label operation.",
                log ++ [users_labels_list])).
  { intros service labels -> Hlist.
    unfold modify_labels, modify_labels_try. run_to_listing Hlist.
    rewrite (no_labels_resolve _ _ Hadd), (no_labels_resolve _ _ Hrem).
    reflexivity. }
  split; [| exact Hlisted].
  destruct gmail as [service | e].
  - destruct (labels_list service log) as [labels | e] eqn:Hlist.
    + rewrite (Hlisted service labels eq_refl Hlist). eauto.
    + unfold modify_labels, modify_labels_try. run_to_listing Hlist. eauto.
  - exists (_handle_api_error e), []. rewrite app_nil_r. split; reflexivity.
Qed.

Lemma modify_labels_nothing_to_do_witness :
  modify_labels (Return (sample_service inbox_and_work))
    {| ModifyLabelsInput.message_ids := ["m1"; "m2"];
       ModifyLabelsInput.add_labels := None;
       ModifyLabelsInput.remove_labels := Some [] |} [] =
  (Return "Error: No labels to add or remove. Specify at least one label operation.",
   [] ++ [users_labels_list]).
Proof.
  apply (proj2 (modify_labels_nothing_to_do (Return (sample_service inbox_and_work))
           {| ModifyLabelsInput.message_ids := ["m1"; "m2"];
              ModifyLabelsInput.add_labels := None;
              ModifyLabelsInput.remove_labels := Some [] |} []
           (or_introl eq_refl) (or_intror eq_refl))
         (sample_service inbox_and_work) (Some inbox_and_work)).
  - reflexivity.
  - reflexivity.
Defined.

(** Without a token file the same input gets the message of the missing
    file, and still no call is issued. *)
Example modify_labels_nothing_to_do_no_token :
  modify_labels (Raise (FileNotFoundError "Gmail token not found"))
    {| ModifyLabelsInput.message_ids := ["m1"];
       ModifyLabelsInput.add_labels := None;
       ModifyLabelsInput.remove_labels := None |} [] =
  (Return "Gmail token not found", []).
Proof. reflexivity. Qed.

(** ** create_label *)


Lemma existing_label_none (labels : list Label) (n : string) :
  existing_label labels n = None <->
  Forall (fun l => ~ same_name (label_name l) n) labels.
Proof.
  induction labels as [| l ls IH]; simpl.
  - split; [constructor | reflexivity].
  - destruct (String.eqb_spec (lower (label_name l)) (lower n)) as [Heq | Hne].
    + split; [discriminate |]. intros H. inversion H; subst. contradiction.
    + rewrite IH. split; [constructor; assumption | intros H; inversion H; assumption].
Qed.



(** A label in ASCII whose name differs from the requested one in the case
    of its letters only. *)
Example create_label_duplicate_letters :
  same_letters "Work" "WORK" /\ ~ same_letters "Work" "Word" /\
  same_name "Work" "WORK" /\ ~ same_name "Work" "Word".
Proof.
  assert (H1 : same_letters "Work" "WORK").
  { cbn [same_letters]. split; [left; reflexivity |].
    split; [right; exists 14; split; [lia | split; [right | left]; reflexivity] |].
    split; [right; exists 17; split; [lia | split; [right | left]; reflexivity] |].
    split; [right; exists 10; split; [lia | split; [right | left]; reflexivity] |].
    exact I. }
  split; [exact H1 | split; [| split]].
  - cbn [same_letters]. intros (_ & _ & _ & [H | (i & Hi & H2 & H3)] & _);
      [discriminate H |].
    change (nat_of_ascii "k") with 107 in H2. change (nat_of_ascii "d") with 100 in H3. lia.
  - reflexivity.
  - intros H. vm_compute in H. discriminate H.
Qed.

Example create_label_duplicate_run :
  create_label (Return (sample_service inbox_and_work))
    {| CreateLabelInput.name := "WORK";
       CreateLabelInput.label_list_visibility := "labelShow";
       CreateLabelInput.message_list_visibility := "show" |} [] =
  (Return "Error: Label 'WORK' already exists (ID: Label_1)", [users_labels_list]).
Proof. reflexivity. Qed.

(** With no label of that name ignoring case, the create call is issued. *)
Example create_label_new_run :
  snd (create_label (Return (sample_service inbox_and_work))
    {| CreateLabelInput.name := "Travel";
       CreateLabelInput.label_list_visibility := "labelShow";
       CreateLabelInput.message_list_visibility := "show" |} []) =
  [users_labels_list;
   users_labels_create {| lo_name := "Travel"; labelListVisibility := "labelShow";
                          messageListVisibility := "show" |}].
Proof. reflexivity. Qed.

(** ** The loops of search_emails *)

Lemma append_assoc (a b c : string) : (a +:+ b) +:+ c = a +:+ (b +:+ c).
Proof.
  induction a as [| x a IH]; [reflexivity |].
  change (String x ((a +:+ b) +:+ c) = String x (a +:+ (b +:+ c))). congruence.
Qed.

Lemma append_nil_r (a : string) : a +:+ "" = a.
Proof.
  induction a as [| x a IH]; [reflexivity |].
  change (String x (a +:+ "") = String x a). congruence.
Qed.

Lemma fetch_messages_all (service : Service) (format : string) (ids : list string)
    (msgs detailed : list Message) (log : list Call) :
  answered (fun log i => messages_get service log i format)
           (fun i => users_messages_get i format) log ids msgs ->
  fetch_messages service format ids detailed log =
    (Return (detailed ++ msgs), log ++ map (fun i => users_messages_get i format) ids).
Proof.
  intros H. revert detailed.
  induction H as [log | log i ids m msgs Hans _ IH]; intros detailed; simpl.
  - rewrite !app_nil_r. reflexivity.
  - unfold bind, execute. rewrite Hans, IH, <- !app_assoc. reflexivity.
Qed.

Lemma answered_length {X Y : Type} (answer : list Call -> X -> outcome Y) (call : X -> Call)
    (log : list Call) (xs : list X) (ys : list Y) :
  answered answer call log xs ys -> length ys = length xs.
Proof. induction 1; simpl; congruence. Qed.

Lemma search_markdown_loop_raises (rt : Runtime) (i : nat) (good : list Message)
    (bad : Message) (rest : list Message) (output : string) (e : exn) :
  Forall (fun m => exists b, _decode_message_body rt (payload m) = Return b) good ->
  _decode_message_body rt (payload bad) = Raise e ->
  search_markdown_loop rt true i (good ++ bad :: rest) output = Raise e.
Proof.
  intros Hgood Hbad. revert i output.
  induction Hgood as [| m good [b Hb] _ IH]; intros i output;
    cbn [app search_markdown_loop]; unfold search_message_markdown at 1.
  - rewrite Hbad. reflexivity.
  - rewrite Hb. cbn [outcome_bind]. apply IH.
Qed.

Lemma search_json_loop_raises (rt : Runtime) (good : list Message)
    (bad : Message) (rest : list Message) (acc : list json) (e : exn) :
  Forall (fun m => exists b, _decode_message_body rt (payload m) = Return b) good ->
  _decode_message_body rt (payload bad) = Raise e ->
  search_json_loop rt true (good ++ bad :: rest) acc = Raise e.
Proof.
  intros Hgood Hbad. revert acc.
  induction Hgood as [| m good [b Hb] _ IH]; intros acc;
    cbn [app search_json_loop]; unfold search_message_info at 1.
  - rewrite Hbad. reflexivity.
  - rewrite Hb. cbn [outcome_bind]. apply IH.
Qed.

(** A search with bodies in which the body of one fetched message cannot
    be decoded. *)
Lemma search_emails_bad_body (rt : Runtime) (service : Service)
    (params : SearchEmailsInput.t) (log : list Call)
    (id1 : string) (ids : list string)
    (good : list Message) (bad : Message) (rest : list Message) (e : exn) :
  let listing := users_messages_list (SearchEmailsInput.query params)
                                     (SearchEmailsInput.max_results params) in
  SearchEmailsInput.include_body params = true ->
  messages_list service log (SearchEmailsInput.query params)
                (SearchEmailsInput.max_results params) = Return (Some (id1 :: ids)) ->
  answered (fun log i => messages_get service log i "full")
           (fun i => users_messages_get i "full") (log ++ [listing]) (id1 :: ids)
           (good ++ bad :: rest) ->
  Forall (fun m => exists b, _decode_message_body rt (payload m) = Return b) good ->
  _decode_message_body rt (payload bad) = Raise e ->
  search_emails rt (Return service) params log =
    (Return (_handle_api_error e),
     (log ++ [listing]) ++ map (fun i => users_messages_get i "full") (id1 :: ids)).
Proof.
  intros listing Hbody Hlist Hans Hgood Hbad.
  unfold search_emails, search_emails_try. run_to_listing Hlist.
  rewrite Hbody. fold listing.
  change (default [] (Some (id1 :: ids))) with (id1 :: ids). cbv beta iota.
  rewrite (fetch_messages_all service "full" (id1 :: ids) _ [] _ Hans).
  cbn [app].
  destruct (SearchEmailsInput.response_format params).
  - rewrite (search_markdown_loop_raises rt 1 good bad rest _ e Hgood Hbad). reflexivity.
  - rewrite (search_json_loop_raises rt good bad rest [] e Hgood Hbad). reflexivity.
Qed.

(** The Markdown loop of a search with bodies, when every body decodes. *)
Lemma search_markdown_loop_with_body (rt : Runtime) (i : nat) (msgs : list Message)
    (bodies : list string) (output : string) :
  Forall2 (fun m b => _decode_message_body rt (payload m) = Return b) msgs bodies ->
  search_markdown_loop rt true i msgs output =
    Return (output +:+ sections_with_body i msgs (map body_preview bodies)).
Proof.
  intros H. revert i output.
  induction H as [| m b msgs bodies Hb _ IH]; intros i output;
    cbn [search_markdown_loop sections_with_body map].
  - rewrite append_nil_r. reflexivity.
  - unfold search_message_markdown at 1. rewrite Hb. cbn [outcome_bind].
    rewrite IH. unfold search_body_block. rewrite !append_assoc. reflexivity.
Qed.

(** ** Decoding the body *)

Lemma decode_parts_first_raises (rt : Runtime) (ps : list Part) (d : string) (e : exn) :
  first_part_data ps = Some d ->
  decode_data rt d = Raise e ->
  decode_parts rt ps "" = Raise e.
Proof.
  intros Hfirst Hraise. induction ps as [| part ps IH]; simpl in *; [discriminate |].
  destruct (String.eqb (mimeType part) "text/plain"); simpl in *.
  - destruct (data (part_body part)) as [d' |].
    + inversion Hfirst; subst. exact Hraise.
    + apply IH. exact Hfirst.
  - destruct (String.eqb (mimeType part) "text/html"); simpl in *.
    + destruct (data (part_body part)) as [d' |].
      * inversion Hfirst; subst. rewrite Hraise. reflexivity.
      * apply IH. exact Hfirst.
    + apply IH. exact Hfirst.
Qed.

Lemma decode_parts_no_data (rt : Runtime) (ps : list Part) :
  first_part_data ps = None -> decode_parts rt ps "" = Return "".
Proof.
  intros Hnone. induction ps as [| part ps IH]; simpl in *; [reflexivity |].
  destruct (String.eqb (mimeType part) "text/plain"); simpl in *.
  - destruct (data (part_body part)); [discriminate | apply IH; exact Hnone].
  - destruct (String.eqb (mimeType part) "text/html"); simpl in *.
    + destruct (data (part_body part)); [discriminate | apply IH; exact Hnone].
    + apply IH. exact Hnone.
Qed.

(** With no data to decode the body is the empty string. *)
Lemma decode_body_absent (rt : Runtime) (payload : Payload) :
  first_data payload = None -> _decode_message_body rt payload = Return "".
Proof.
  unfold first_data, _decode_message_body.
  destruct (parts payload) as [ps |].
  - apply decode_parts_no_data.
  - destruct (body payload) as [[[d |]] |]; simpl; [discriminate | reflexivity | reflexivity].
Qed.

(** At the boundary of [get_email] an exception of the decoding becomes the
    string of the classifier. *)
Lemma get_email_body_raises (rt : Runtime) (service : Service)
    (params : GetEmailInput.t) (log : list Call) (msg : Message) (e : exn) :
  messages_get service log (GetEmailInput.message_id params) "full" = Return msg ->
  _decode_message_body rt (payload msg) = Raise e ->
  get_email rt (Return service) params log =
    (Return (_handle_api_error e),
     log ++ [users_messages_get (GetEmailInput.message_id params) "full"]).
Proof.
  intros Hget Hraise.
  unfold get_email, get_email_try. run_to_listing Hget.
  rewrite Hraise. reflexivity.
Qed.

Example bad_padding_raises :
  _decode_message_body cpython bad_padding_payload =
    Raise (PyError "Error" "Incorrect padding").
Proof. vm_compute. reflexivity. Qed.

(** C3, counterexample. On [bad_padding_payload] the exception of the
    base64 decoder leaves [_decode_message_body]. *)
Lemma decode_body_bad_padding_escapes : ~ decode_never_raises cpython bad_padding_payload.
Proof.
  intros [[text H] _]. rewrite bad_padding_raises in H. discriminate.
Qed.

(** C3, amended. [_decode_message_body] has no handler of its own. When
    the data it decodes first is malformed, the exception of the decoder
    leaves it, and the operation around it returns the string of the
    classifier for that exception: [get_email] on a message with this
    payload, and [search_emails] with bodies when the first fetched message
    whose body does not decode has this payload. With no data to decode the
    result is the empty string, so malformed data is told apart from an
    absent body. *)
Theorem decode_body_malformed_raises (rt : Runtime) (p : Payload) :
  (forall (d : string) (e : exn),
      first_data p = Some d ->
      decode_data rt d = Raise e ->
      _decode_message_body rt p = Raise e /\
      (forall (service : Service) (params : GetEmailInput.t) (log : list Call) (msg : Message),
          payload msg = p ->
          messages_get service log (GetEmailInput.message_id params) "full" = Return msg ->
          get_email rt (Return service) params log =
            (Return (_handle_api_error e),
             log ++ [users_messages_get (GetEmailInput.message_id params) "full"])) /\
      (forall (service : Service) (params : SearchEmailsInput.t) (log : list Call)
              (id1 : string) (ids : list string)
              (good : list Message) (bad : Message) (rest : list Message),
          let listing := users_messages_list (SearchEmailsInput.query params)
                                             (SearchEmailsInput.max_results params) in
          payload bad = p ->
          SearchEmailsInput.include_body params = true ->
          messages_list service log (SearchEmailsInput.query params)
                        (SearchEmailsInput.max_results params) = Return (Some (id1 :: ids)) ->
          answered (fun log i => messages_get service log i "full")
                   (fun i => users_messages_get i "full") (log ++ [listing]) (id1 :: ids)
                   (good ++ bad :: rest) ->
          Forall (fun m => exists b, _decode_message_body rt (payload m) = Return b) good ->
          search_emails rt (Return service) params log =
            (Return (_handle_api_error e),
             (log ++ [listing]) ++ map (fun i => users_messages_get i "full") (id1 :: ids)))) /\
  (first_data p = None -> _decode_message_body rt p = Return "").
Proof.
  split; [| apply decode_body_absent].
  intros d e Hfirst Hraise.
  assert (Hbody : _decode_message_body rt p = Raise e).
  { unfold first_data, _decode_message_body in *.
    destruct (parts p) as [ps |].
    - apply (decode_parts_first_raises rt ps d e); assumption.
    - destruct (body p) as [[[d' |]] |]; simpl in *; try discriminate.
      inversion Hfirst; subst. exact Hraise. }
  split; [exact Hbody | split].
  - intros service params log msg Hp Hget.
    apply (get_email_body_raises rt service params log msg e Hget).
    rewrite Hp. exact Hbody.
  - intros service params log id1 ids good bad rest listing Hp Hinc Hlist Hans Hgood.
    apply (search_emails_bad_body rt service params log id1 ids good bad rest e
             Hinc Hlist Hans Hgood).
    rewrite Hp. exact Hbody.
Qed.

Lemma decode_body_malformed_raises_witness :
  _decode_message_body cpython bad_padding_payload =
    Raise (PyError "Error" "Incorrect padding") /\
  get_email cpython
    (Return (mail_service {| msg_id := "m1"; threadId := "t1"; payload := bad_padding_payload;
                             snippet := None; labelIds := None |}))
    {| GetEmailInput.message_id := "m1"; GetEmailInput.response_format := MARKDOWN |} [] =
    (Return "Error: Error: Incorrect padding", [users_messages_get "m1" "full"]) /\
  _decode_message_body cpython {| headers := []; parts := Some []; body := None |} = Return "".
Proof.
  destruct (proj1 (decode_body_malformed_raises cpython bad_padding_payload)
              "QUI" (PyError "Error" "Incorrect padding") eq_refl eq_refl)
    as (Hraise & Hget & _).
  split; [exact Hraise | split].
  - exact (Hget (mail_service {| msg_id := "m1"; threadId := "t1";
                                 payload := bad_padding_payload;
                                 snippet := None; labelIds := None |})
             {| GetEmailInput.message_id := "m1"; GetEmailInput.response_format := MARKDOWN |}
             [] {| msg_id := "m1"; threadId := "t1"; payload := bad_padding_payload;
                   snippet := None; labelIds := None |} eq_refl eq_refl).
  - exact (proj2 (decode_body_malformed_raises cpython
                    {| headers := []; parts := Some []; body := None |}) eq_refl).
Defined.

(** The same for data that is base64 but not UTF-8, in the first part. *)
Example decode_body_not_utf8 :
  _decode_message_body cpython
    {| headers := [];
       parts := Some [ {| mimeType := "text/html"; part_body := {| data := Some "_w==" |} |};
                       {| mimeType := "text/plain"; part_body := {| data := Some "SGk=" |} |} ];
       body := None |} =
  Raise (PyError "UnicodeDecodeError"
           "'utf-8' codec can't decode byte 0xff in position 0: invalid start byte").
Proof. vm_compute. reflexivity. Qed.

(** The plain text is preferred to the HTML. *)
Example decode_body_prefers_plain :
  _decode_message_body cpython
    {| headers := [];
       parts := Some [ {| mimeType := "text/html"; part_body := {| data := Some "PGI-SGk8L2I-" |} |};
                       {| mimeType := "text/plain"; part_body := {| data := Some "SGk=" |} |} ];
       body := None |} = Return "Hi".
Proof. vm_compute. reflexivity. Qed.

Example get_email_bad_padding :
  get_email cpython
    (Return (mail_service {| msg_id := "m1"; threadId := "t1"; payload := bad_padding_payload;
                             snippet := None; labelIds := None |}))
    {| GetEmailInput.message_id := "m1"; GetEmailInput.response_format := JSON |} [] =
  (Return "Error: Error: Incorrect padding", [users_messages_get "m1" "full"]).
Proof. vm_compute. reflexivity. Qed.

(** ** The body in the human-readable format *)

Lemma py_len_slice (n : nat) (s : string) : py_len (py_slice_to n s) = Nat.min n (py_len s).
Proof.
  revert n. induction s as [| c s IH]; intros n; simpl.
  - rewrite Nat.min_0_r. reflexivity.
  - destruct (is_continuation c) eqn:Hc; simpl.
    + rewrite Hc. apply IH.
    + destruct n as [| n]; simpl; [reflexivity |]. rewrite Hc, IH. reflexivity.
Qed.

Lemma py_slice_all (n : nat) (s : string) : py_len s <= n -> py_slice_to n s = s.
Proof.
  revert n. induction s as [| c s IH]; intros n Hlen; simpl in *; [reflexivity |].
  destruct (is_continuation c).
  - rewrite IH by exact Hlen. reflexivity.
  - destruct n as [| n]; [lia |]. rewrite IH by lia. reflexivity.
Qed.

Lemma py_slice_prefix (n : nat) (s : string) : exists rest, s = py_slice_to n s +:+ rest.
Proof.
  revert n. induction s as [| c s IH]; intros n; simpl.
  - exists "". reflexivity.
  - destruct (is_continuation c).
    + destruct (IH n) as [rest Hrest]. exists rest.
      change (String c s = String c (py_slice_to n s +:+ rest)). congruence.
    + destruct n as [| n].
      * exists (String c s). reflexivity.
      * destruct (IH n) as [rest Hrest]. exists rest.
        change (String c s = String c (py_slice_to n s +:+ rest)). congruence.
Qed.

Lemma body_preview_spec (body : string) : preview_of body (body_preview body).
Proof.
  unfold preview_of, body_preview.
  destruct (Nat.ltb_spec 500 (py_len body)) as [Hlong | Hshort].
  - right. repeat split.
    + exact Hlong.
    + rewrite py_len_slice. lia.
    + apply py_slice_prefix.
  - left. split; [exact Hshort |].
    rewrite py_slice_all by exact Hshort.
    clear. induction body as [| c b IH]; [reflexivity |].
    change (String c (b +:+ "") = String c b). congruence.
Qed.

(** The section of one message in a search with bodies. *)
Lemma search_message_markdown_body (rt : Runtime) (i : nat) (msg : Message) (body : string) :
  _decode_message_body rt (payload msg) = Return body ->
  search_message_markdown rt true i msg =
    Return (search_message_fields i msg +:+ search_body_block body +:+ "---" +:+ LF +:+ LF).
Proof. intros H. unfold search_message_markdown. rewrite H. reflexivity. Qed.

(** The Markdown branch of [get_email]. *)
Lemma get_email_markdown_run (rt : Runtime) (service : Service) (params : GetEmailInput.t)
    (log : list Call) (msg : Message) (body : string) :
  GetEmailInput.response_format params = MARKDOWN ->
  messages_get service log (GetEmailInput.message_id params) "full" = Return msg ->
  _decode_message_body rt (payload msg) = Return body ->
  get_email rt (Return service) params log =
    (Return (get_email_fields msg +:+ "## Body" +:+ LF +:+ LF +:+ body +:+ LF),
     log ++ [users_messages_get (GetEmailInput.message_id params) "full"]).
Proof.
  intros Hfmt Hget Hbody.
  unfold get_email, get_email_try. run_to_listing Hget.
  rewrite Hbody, Hfmt. reflexivity.
Qed.

Example long_message_body :
  _decode_message_body cpython (payload long_message) = Return long_body.
Proof. vm_compute. reflexivity. Qed.

Example long_body_length : py_len long_body = 501.
Proof. vm_compute. reflexivity. Qed.

(** C8, counterexample. [get_email] shows the 501 characters of the body of
    [long_message], not its preview. *)
Lemma get_email_shows_whole_body :
  ~ get_email_shows_preview cpython (mail_service long_message)
      {| GetEmailInput.message_id := "m1"; GetEmailInput.response_format := MARKDOWN |} [].
Proof.
  intros H.
  specialize (H long_message long_body eq_refl eq_refl long_message_body).
  rewrite (get_email_markdown_run cpython (mail_service long_message)
             {| GetEmailInput.message_id := "m1"; GetEmailInput.response_format := MARKDOWN |}
             [] long_message long_body eq_refl eq_refl long_message_body) in H.
  apply (f_equal (fun r => match fst r with Return s => String.length s | Raise _ => 0 end)) in H.
  vm_compute in H. discriminate H.
Qed.

(** C8, amended. In the human-readable output of [search_emails] with
    bodies, when the listed messages are fetched and their bodies decode,
    each message has its section, in the order of the listing, where its body
    is shown by its first 500 characters and the ellipsis when it has more,
    and in full with no mark otherwise. In the human-readable output of
    [get_email] the body is shown in full whatever its length. *)
Theorem body_preview_in_search_only (rt : Runtime) :
  (forall (service : Service) (params : SearchEmailsInput.t) (log : list Call)
          (id1 : string) (ids : list string) (msgs : list Message) (bodies : list string),
      let listing := users_messages_list (SearchEmailsInput.query params)
                                         (SearchEmailsInput.max_results params) in
      SearchEmailsInput.include_body params = true ->
      SearchEmailsInput.response_format params = MARKDOWN ->
      messages_list service log (SearchEmailsInput.query params)
                    (SearchEmailsInput.max_results params) = Return (Some (id1 :: ids)) ->
      answered (fun log i => messages_get service log i "full")
               (fun i => users_messages_get i "full") (log ++ [listing]) (id1 :: ids) msgs ->
      Forall2 (fun m b => _decode_message_body rt (payload m) = Return b) msgs bodies ->
      exists shown : list string,
        Forall2 preview_of bodies shown /\
        search_emails rt (Return service) params log =
          (Return (("# Search Results" +:+ LF +:+ LF +:+
                    "**Query:** " +:+ SearchEmailsInput.query params +:+ LF +:+
                    "**Found:** " +:+ str_nat (length (id1 :: ids)) +:+ " message(s)"
                      +:+ LF +:+ LF +:+
                    "---" +:+ LF +:+ LF) +:+
                   sections_with_body 1 msgs shown),
           (log ++ [listing]) ++ map (fun i => users_messages_get i "full") (id1 :: ids))) /\
  (forall (service : Service) (params : GetEmailInput.t) (log : list Call)
          (msg : Message) (body : string),
      GetEmailInput.response_format params = MARKDOWN ->
      messages_get service log (GetEmailInput.message_id params) "full" = Return msg ->
      _decode_message_body rt (payload msg) = Return body ->
      get_email rt (Return service) params log =
        (Return (get_email_fields msg +:+ "## Body" +:+ LF +:+ LF +:+ body +:+ LF),
         log ++ [users_messages_get (GetEmailInput.message_id params) "full"])).
Proof.
  split.
  - intros service params log id1 ids msgs bodies listing Hinc Hfmt Hlist Hans Hbodies.
    exists (map body_preview bodies). split.
    + clear. induction bodies as [| b bodies IH]; cbn [map]; constructor;
        [apply body_preview_spec | exact IH].
    + unfold search_emails, search_emails_try. run_to_listing Hlist.
      rewrite Hinc, Hfmt. fold listing.
      change (default [] (Some (id1 :: ids))) with (id1 :: ids). cbv beta iota.
      rewrite (fetch_messages_all service "full" (id1 :: ids) msgs [] _ Hans).
      cbn [app]. rewrite (search_markdown_loop_with_body rt 1 msgs bodies _ Hbodies).
      rewrite (answered_length _ _ _ _ _ Hans). reflexivity.
  - intros service params log msg body Hfmt Hget Hbody.
    apply get_email_markdown_run; assumption.
Qed.

Lemma body_preview_in_search_only_witness :
  (exists shown : list string,
      Forall2 preview_of [long_body] shown /\
      search_emails cpython (Return (mail_service long_message))
        {| SearchEmailsInput.query := "is:unread"; SearchEmailsInput.max_results := 20;
           SearchEmailsInput.include_body := true;
           SearchEmailsInput.response_format := MARKDOWN |} [] =
        (Return (("# Search Results" +:+ LF +:+ LF +:+
                  "**Query:** " +:+ "is:unread" +:+ LF +:+
                  "**Found:** " +:+ str_nat 1 +:+ " message(s)" +:+ LF +:+ LF +:+
                  "---" +:+ LF +:+ LF) +:+
                 sections_with_body 1 [long_message] shown),
         ([] ++ [users_messages_list "is:unread" 20]) ++
         map (fun i => users_messages_get i "full") ["m1"])) /\
  get_email cpython (Return (mail_service long_message))
    {| GetEmailInput.message_id := "m1"; GetEmailInput.response_format := MARKDOWN |} [] =
    (Return (get_email_fields long_message +:+ "## Body" +:+ LF +:+ LF +:+
             long_body +:+ LF),
     [] ++ [users_messages_get "m1" "full"]).
Proof.
  split.
  - apply (proj1 (body_preview_in_search_only cpython) (mail_service long_message)
             {| SearchEmailsInput.query := "is:unread"; SearchEmailsInput.max_results := 20;
                SearchEmailsInput.include_body := true;
                SearchEmailsInput.response_format := MARKDOWN |}
             [] "m1" [] [long_message] [long_body]).
    + reflexivity.
    + reflexivity.
    + reflexivity.
    + repeat constructor.
    + constructor; [exact long_message_body | constructor].
  - apply (proj2 (body_preview_in_search_only cpython) (mail_service long_message)
             {| GetEmailInput.message_id := "m1"; GetEmailInput.response_format := MARKDOWN |}
             [] long_message long_body).
    + reflexivity.
    + reflexivity.
    + exact long_message_body.
Defined.

(** The whole output of a search with bodies on [long_message]. *)
Example search_emails_long_body :
  search_emails cpython (Return (mail_service long_message))
    {| SearchEmailsInput.query := "is:unread"; SearchEmailsInput.max_results := 20;
       SearchEmailsInput.include_body := true;
       SearchEmailsInput.response_format := MARKDOWN |} [] =
  (Return ("# Search Results" +:+ LF +:+ LF +:+
           "**Query:** is:unread" +:+ LF +:+
           "**Found:** 1 message(s)" +:+ LF +:+ LF +:+
           "---" +:+ LF +:+ LF +:+
           "## 1. Message" +:+ LF +:+ LF +:+
           "**ID:** `m1`" +:+ LF +:+
           "**Thread ID:** `t1`" +:+ LF +:+
           "**From:** boss@x.com" +:+ LF +:+
           "**To:** " +:+ LF +:+
           "**Subject:** Minutes" +:+ LF +:+
           "**Date:** " +:+ LF +:+
           "**Labels:** INBOX" +:+ LF +:+ LF +:+
           "**Snippet:** aaa" +:+ LF +:+ LF +:+
           "**Body:**" +:+ LF +:+ "```" +:+ LF +:+
           String.concat "" (repeat "a" 500) +:+ "..." +:+ LF +:+
           "```" +:+ LF +:+ LF +:+
           "---" +:+ LF +:+ LF),
   [users_messages_list "is:unread" 20; users_messages_get "m1" "full"]).
Proof. vm_compute. reflexivity. Qed.

(** ** list_labels *)

Lemma string_compare_le_trans (a b c : string) :
  String.compare a b <> Gt -> String.compare b c <> Gt -> String.compare a c <> Gt.
Proof.
  revert b c. induction a as [| x a IH]; intros [| y b] [| z c]; simpl; try congruence.
  unfold Ascii.compare.
  destruct (N.compare_spec (N_of_ascii x) (N_of_ascii y)) as [Hxy | Hxy | Hxy];
    destruct (N.compare_spec (N_of_ascii y) (N_of_ascii z)) as [Hyz | Hyz | Hyz];
    destruct (N.compare_spec (N_of_ascii x) (N_of_ascii z)) as [Hxz | Hxz | Hxz];
    try congruence; try lia.
  apply IH.
Qed.

Lemma string_leb_trans (a b c : string) :
  String.leb a b = true -> String.leb b c = true -> String.leb a c = true.
Proof.
  unfold String.leb. intros Hab Hbc.
  pose proof (string_compare_le_trans a b c) as H.
  destruct (String.compare a b), (String.compare b c), (String.compare a c);
    try reflexivity; try discriminate; exfalso; apply H; congruence.
Qed.

Lemma string_ltb_leb (a b : string) : String.ltb a b = true -> String.leb a b = true.
Proof. unfold String.ltb, String.leb. destruct (String.compare a b); auto. Qed.

Lemma string_nltb_leb (a b : string) : String.ltb a b = false -> String.leb b a = true.
Proof.
  unfold String.ltb, String.leb. rewrite (String.compare_antisym a b).
  destruct (String.compare b a); simpl; auto.
Qed.

Lemma string_ltb_irrefl (a : string) : String.ltb a a = false.
Proof.
  unfold String.ltb. pose proof (String.compare_antisym a a) as H.
  destruct (String.compare a a); try reflexivity; discriminate H.
Qed.

Create HintDb labels.
#[local] Hint Resolve string_ltb_leb string_nltb_leb string_leb_trans : labels.
#[local] Hint Constructors StronglySorted Forall Permutation : labels.

Lemma insert_by_name_perm (x : Label) (l : list Label) :
  Permutation (x :: l) (insert_by_name x l).
Proof.
  induction l as [| y l IH]; simpl; [auto with labels |].
  destruct (String.ltb (label_name y) (label_name x)); [| auto with labels].
  apply perm_trans with (y :: x :: l); [apply perm_swap | apply perm_skip; exact IH].
Qed.

Lemma insert_by_name_sorted (x : Label) (l : list Label) :
  StronglySorted name_le l -> StronglySorted name_le (insert_by_name x l).
Proof.
  induction 1 as [| y l Hsorted IH Hall]; simpl; [auto with labels |].
  destruct (String.ltb (label_name y) (label_name x)) eqn:Hlt.
  - constructor; [exact IH |].
    apply (Permutation_Forall (insert_by_name_perm x l)).
    constructor; [unfold name_le; auto with labels | exact Hall].
  - assert (Hxy : name_le x y) by (unfold name_le; auto with labels).
    constructor; [auto with labels |].
    constructor; [exact Hxy |].
    eapply List.Forall_impl; [| exact Hall].
    intros z Hyz. unfold name_le in *. eauto with labels.
Qed.

(** [sorted] gives the labels it was given, in the order of their names. *)
Lemma sorted_by_name_perm (l : list Label) : Permutation (sorted_by_name l) l.
Proof.
  induction l as [| x l IH]; simpl; [constructor |].
  apply perm_trans with (x :: sorted_by_name l);
    [apply Permutation_sym, insert_by_name_perm | apply perm_skip; exact IH].
Qed.

Lemma sorted_by_name_sorted (l : list Label) : StronglySorted name_le (sorted_by_name l).
Proof.
  induction l as [| x l IH]; simpl; [constructor | apply insert_by_name_sorted; exact IH].
Qed.

(** [sorted] is stable: the labels of one name keep their order. *)
Lemma insert_by_name_stable (n : string) (x : Label) (l : list Label) :
  List.filter (fun y => String.eqb (label_name y) n) (insert_by_name x l) =
  List.filter (fun y => String.eqb (label_name y) n) (x :: l).
Proof.
  induction l as [| y l IH]; [reflexivity |].
  cbn [insert_by_name].
  destruct (String.ltb (label_name y) (label_name x)) eqn:Hlt; [| reflexivity].
  cbn [List.filter] in *. rewrite IH.
  destruct (String.eqb_spec (label_name y) n) as [Hy | Hy];
    destruct (String.eqb_spec (label_name x) n) as [Hx | Hx]; try reflexivity.
  rewrite Hy, Hx, string_ltb_irrefl in Hlt. discriminate.
Qed.

Lemma sorted_by_name_stable (n : string) (l : list Label) :
  List.filter (fun y => String.eqb (label_name y) n) (sorted_by_name l) =
  List.filter (fun y => String.eqb (label_name y) n) l.
Proof.
  induction l as [| x l IH]; [reflexivity |].
  cbn [sorted_by_name]. rewrite insert_by_name_stable.
  cbn [List.filter]. rewrite IH. reflexivity.
Qed.

Lemma labels_of_type_In (type : string) (labels : list Label) (x : Label) :
  In x (labels_of_type type labels) <-> In x labels /\ label_type x = type.
Proof.
  unfold labels_of_type. rewrite List.filter_In, String.eqb_eq. reflexivity.
Qed.

(** The two branches of [list_labels] once the labels are listed. *)
Lemma list_labels_run (rt : Runtime) (service : Service) (params : ListLabelsInput.t)
    (log : list Call) (l : Label) (ls : list Label) :
  labels_list service log = Return (Some (l :: ls)) ->
  list_labels rt (Return service) params log =
    (Return (match ListLabelsInput.response_format params with
             | JSON => dumps rt (list_labels_json (l :: ls))
             | MARKDOWN => list_labels_markdown (l :: ls)
             end),
     log ++ [users_labels_list]).
Proof.
  intros Hlist. unfold list_labels, list_labels_try. run_to_listing Hlist.
  destruct (ListLabelsInput.response_format params); reflexivity.
Qed.

Example list_labels_json_run :
  list_labels cpython (Return (sample_service [label_b; label_a]))
    {| ListLabelsInput.response_format := JSON |} [] =
  (Return (dumps cpython
     (JDict [("total_labels", JInt 2);
             ("labels",
              JList [JDict [("id", JString "Label_2"); ("name", JString "b");
                            ("type", JString "user")];
                     JDict [("id", JString "Label_1"); ("name", JString "a");
                            ("type", JString "user")]])])),
   [users_labels_list]).
Proof. reflexivity. Qed.

(** C9, counterexample. The structured output for the labels b, a lists b
    before a. *)
Lemma list_labels_json_keeps_remote_order :
  ~ json_listing_sorted cpython (sample_service [label_b; label_a]) [] [label_b; label_a].
Proof.
  intros (listed & Hperm & Hsorted & Hrun).
  apply Permutation_sym, Permutation_length_2_inv in Hperm.
  destruct Hperm as [-> | ->].
  - specialize (Hsorted "user"). vm_compute in Hsorted.
    inversion Hsorted as [| ? ? _ Hall]; subst.
    inversion Hall as [| ? ? Hle _]; subst.
    vm_compute in Hle. discriminate Hle.
  - rewrite list_labels_json_run in Hrun.
    apply (f_equal (fun r => match fst r with Return s => s | Raise _ => "" end)) in Hrun.
    vm_compute in Hrun. discriminate Hrun.
Qed.

(** C9, amended. For a non-empty list of labels, the human-readable output
    of [list_labels] has the system labels and then the user labels, each
    group being the labels of its type in the order of their display names;
    the structured output has all the labels in the order of the remote
    list, each with its type. *)
Theorem list_labels_groups_sorted (rt : Runtime) (service : Service) (log : list Call)
    (l : Label) (ls : list Label) :
  labels_list service log = Return (Some (l :: ls)) ->
  let labels := l :: ls in
  list_labels rt (Return service) {| ListLabelsInput.response_format := MARKDOWN |} log =
    (Return ("# Gmail Labels" +:+ LF +:+ LF +:+ "**Total:** " +:+ str_nat (length labels)
               +:+ " label(s)" +:+ LF +:+ LF +:+
             label_group "System Labels" (labels_of_type "system" labels) +:+
             label_group "User Labels" (labels_of_type "user" labels)),
     log ++ [users_labels_list]) /\
  (forall title type,
      let group := labels_of_type type labels in
      (forall x, In x group <-> In x labels /\ label_type x = type) /\
      (group = [] -> label_group title group = "") /\
      (group <> [] ->
       label_group title group =
         "## " +:+ title +:+ LF +:+ LF +:+
         String.concat "" (map label_line (sorted_by_name group)) +:+ LF) /\
      StronglySorted name_le (sorted_by_name group) /\
      Permutation (sorted_by_name group) group) /\
  list_labels rt (Return service) {| ListLabelsInput.response_format := JSON |} log =
    (Return (dumps rt
       (JDict [("total_labels", JInt (Z.of_nat (length labels)));
               ("labels", JList (map label_entry labels))])),
     log ++ [users_labels_list]).
Proof.
  intros Hlist labels. split; [| split].
  - rewrite (list_labels_run rt service _ log l ls Hlist). reflexivity.
  - intros title type group.
    split; [intros x; apply labels_of_type_In |].
    split; [intros ->; reflexivity |].
    split; [intros Hne; destruct group; [contradiction | reflexivity] |].
    split; [apply sorted_by_name_sorted | apply sorted_by_name_perm].
  - rewrite (list_labels_run rt service _ log l ls Hlist). reflexivity.
Qed.

Lemma list_labels_groups_sorted_witness :
  list_labels cpython (Return (sample_service mixed_labels))
    {| ListLabelsInput.response_format := MARKDOWN |} [] =
  (Return ("# Gmail Labels" +:+ LF +:+ LF +:+ "**Total:** 4 label(s)" +:+ LF +:+ LF +:+
           "## System Labels" +:+ LF +:+ LF +:+
           "- **INBOX** (`INBOX`)" +:+ LF +:+
           "- **SENT** (`SENT`)" +:+ LF +:+ LF +:+
           "## User Labels" +:+ LF +:+ LF +:+
           "- **Travel** (`Label_1`)" +:+ LF +:+
           "- **Work** (`Label_2`)" +:+ LF +:+ LF),
   [] ++ [users_labels_list]).
Proof.
  exact (proj1 (list_labels_groups_sorted cpython (sample_service mixed_labels) []
                  {| label_id := "Label_2"; label_name := "Work"; label_type := "user" |}
                  (tl mixed_labels) eq_refl)).
Defined.

(** * Further properties of the code *)

(** ** The loops over the messages: archive, delete, modify *)

Lemma modify_each_all (service : Service) (body : ModifyBody) (ids : list string)
    (count : nat) (log : list Call) (ys : list unit) :
  answered (fun log i => messages_modify service log i body)
           (fun i => users_messages_modify i body) log ids ys ->
  modify_each service body ids count log =
    (Return (count + length ids), log ++ map (fun i => users_messages_modify i body) ids).
Proof.
  intros H. revert count.
  induction H as [log | log i ids y ys Hans _ IH]; intros count; simpl.
  - rewrite Nat.add_0_r, app_nil_r. reflexivity.
  - unfold bind, execute. rewrite Hans, IH, <- app_assoc, Nat.add_succ_comm.
    reflexivity.
Qed.

Lemma modify_each_stops (service : Service) (body : ModifyBody)
    (done : list string) (failed : string) (rest : list string)
    (count : nat) (log : list Call) (ys : list unit) (e : exn) :
  answered (fun log i => messages_modify service log i body)
           (fun i => users_messages_modify i body) log done ys ->
  messages_modify service (log ++ map (fun i => users_messages_modify i body) done)
                  failed body = Raise e ->
  modify_each service body (done ++ failed :: rest) count log =
    (Raise e, log ++ map (fun i => users_messages_modify i body) (done ++ [failed])).
Proof.
  intros H. revert count.
  induction H as [log | log i ids y ys Hans _ IH]; intros count Hfail; simpl in *.
  - unfold bind, execute. rewrite app_nil_r in Hfail. rewrite Hfail. reflexivity.
  - unfold bind, execute. rewrite Hans.
    rewrite IH by (rewrite <- app_assoc; exact Hfail).
    rewrite <- app_assoc. reflexivity.
Qed.

Lemma trash_each_all (service : Service) (ids : list string)
    (count : nat) (log : list Call) (ys : list unit) :
  answered (messages_trash service) users_messages_trash log ids ys ->
  trash_each service ids count log =
    (Return (count + length ids), log ++ map users_messages_trash ids).
Proof.
  intros H. revert count.
  induction H as [log | log i ids y ys Hans _ IH]; intros count; simpl.
  - rewrite Nat.add_0_r, app_nil_r. reflexivity.
  - unfold bind, execute. rewrite Hans, IH, <- app_assoc, Nat.add_succ_comm.
    reflexivity.
Qed.

Lemma trash_each_stops (service : Service)
    (done : list string) (failed : string) (rest : list string)
    (count : nat) (log : list Call) (ys : list unit) (e : exn) :
  answered (messages_trash service) users_messages_trash log done ys ->
  messages_trash service (log ++ map users_messages_trash done) failed = Raise e ->
  trash_each service (done ++ failed :: rest) count log =
    (Raise e, log ++ map users_messages_trash (done ++ [failed])).
Proof.
  intros H. revert count.
  induction H as [log | log i ids y ys Hans _ IH]; intros count Hfail; simpl in *.
  - unfold bind, execute. rewrite app_nil_r in Hfail. rewrite Hfail. reflexivity.
  - unfold bind, execute. rewrite Hans.
    rewrite IH by (rewrite <- app_assoc; exact Hfail).
    rewrite <- app_assoc. reflexivity.
Qed.

(** X1. When the remote side accepts every call, [archive_emails] issues one
    modify call per message identifier, in the order of the input, each
    removing the label INBOX and adding none, and reports the number of
    identifiers. *)
Theorem archive_emails_all (service : Service) (ids : list string)
    (log : list Call) (ys : list unit) :
  answered (fun log i => messages_modify service log i archive_body)
           (fun i => users_messages_modify i archive_body) log ids ys ->
  archive_emails (Return service) {| ArchiveEmailsInput.message_ids := ids |} log =
    (Return ("✓ Successfully archived " +:+ str_nat (length ids) +:+ " message(s)"),
     log ++ map (fun i => users_messages_modify i archive_body) ids).
Proof.
  intros H. unfold archive_emails, archive_emails_try, try_except, bind, get_gmail_service, lift.
  cbn [ArchiveEmailsInput.message_ids]. fold archive_body.
  rewrite (modify_each_all service archive_body ids 0 log ys H). reflexivity.
Qed.

Lemma archive_emails_all_witness :
  archive_emails (Return (sample_service inbox_and_work))
    {| ArchiveEmailsInput.message_ids := ["m1"; "m2"; "m3"] |} [] =
  (Return "✓ Successfully archived 3 message(s)",
   [users_messages_modify "m1" archive_body; users_messages_modify "m2" archive_body;
    users_messages_modify "m3" archive_body]).
Proof.
  apply (archive_emails_all (sample_service inbox_and_work) ["m1"; "m2"; "m3"] [] [tt; tt; tt]).
  repeat constructor.
Defined.

(** X2. When the call for one message fails, [archive_emails] returns the
    string of the classifier for that failure: the messages before it have
    been archived, the messages after it get no call, and the result does not
    tell how many were archived. *)
Theorem archive_emails_stops_at_first_failure (service : Service)
    (done : list string) (failed : string) (rest : list string)
    (log : list Call) (ys : list unit) (e : exn) :
  answered (fun log i => messages_modify service log i archive_body)
           (fun i => users_messages_modify i archive_body) log done ys ->
  messages_modify service (log ++ map (fun i => users_messages_modify i archive_body) done)
                  failed archive_body = Raise e ->
  archive_emails (Return service)
    {| ArchiveEmailsInput.message_ids := done ++ failed :: rest |} log =
    (Return (_handle_api_error e),
     log ++ map (fun i => users_messages_modify i archive_body) (done ++ [failed])).
Proof.
  intros H Hfail.
  unfold archive_emails, archive_emails_try, try_except, bind, get_gmail_service, lift.
  cbn [ArchiveEmailsInput.message_ids]. fold archive_body.
  rewrite (modify_each_stops service archive_body done failed rest 0 log ys e H Hfail).
  reflexivity.
Qed.

Lemma archive_emails_stops_at_first_failure_witness :
  archive_emails (Return service_without_m2)
    {| ArchiveEmailsInput.message_ids := ["m1"] ++ "m2" :: ["m3"; "m4"] |} [] =
  (Return "Error: Resource not found. Please check the ID is correct.",
   [users_messages_modify "m1" archive_body; users_messages_modify "m2" archive_body]).
Proof.
  apply (archive_emails_stops_at_first_failure service_without_m2
           ["m1"] "m2" ["m3"; "m4"] [] [tt] (HttpError 404 None)).
  - repeat constructor.
  - reflexivity.
Defined.

(** X3. When the remote side accepts every call, [delete_emails] issues one
    trash call per message identifier, in the order of the input, and
    reports the number of identifiers. *)
Theorem delete_emails_all (service : Service) (ids : list string)
    (log : list Call) (ys : list unit) :
  answered (messages_trash service) users_messages_trash log ids ys ->
  delete_emails (Return service) {| DeleteEmailsInput.message_ids := ids |} log =
    (Return ("✓ Successfully moved " +:+ str_nat (length ids) +:+ " message(s) to trash"),
     log ++ map users_messages_trash ids).
Proof.
  intros H. unfold delete_emails, delete_emails_try, try_except, bind, get_gmail_service, lift.
  cbn [DeleteEmailsInput.message_ids].
  rewrite (trash_each_all service ids 0 log ys H). reflexivity.
Qed.

(** X4. When the call for one message fails, [delete_emails] returns the
    string of the classifier for that failure: the messages before it are in
    the trash, and the messages after it get no call. *)
Theorem delete_emails_stops_at_first_failure (service : Service)
    (done : list string) (failed : string) (rest : list string)
    (log : list Call) (ys : list unit) (e : exn) :
  answered (messages_trash service) users_messages_trash log done ys ->
  messages_trash service (log ++ map users_messages_trash done) failed = Raise e ->
  delete_emails (Return service)
    {| DeleteEmailsInput.message_ids := done ++ failed :: rest |} log =
    (Return (_handle_api_error e), log ++ map users_messages_trash (done ++ [failed])).
Proof.
  intros H Hfail.
  unfold delete_emails, delete_emails_try, try_except, bind, get_gmail_service, lift.
  cbn [DeleteEmailsInput.message_ids].
  rewrite (trash_each_stops service done failed rest 0 log ys e H Hfail).
  reflexivity.
Qed.

Lemma delete_emails_all_witness :
  delete_emails (Return demo_service)
    {| DeleteEmailsInput.message_ids := ["m1"; "m3"] |} [] =
  (Return "✓ Successfully moved 2 message(s) to trash",
   [users_messages_trash "m1"; users_messages_trash "m3"]).
Proof.
  apply (delete_emails_all demo_service ["m1"; "m3"] [] [tt; tt]).
  repeat constructor.
Defined.

Lemma delete_emails_stops_at_first_failure_witness :
  delete_emails (Return demo_service)
    {| DeleteEmailsInput.message_ids := ["m1"] ++ "m2" :: ["m3"] |} [] =
  (Return "Error: Resource not found. Please check the ID is correct.",
   [users_messages_trash "m1"; users_messages_trash "m2"]).
Proof.
  apply (delete_emails_stops_at_first_failure demo_service
           ["m1"] "m2" ["m3"] [] [tt] (HttpError 404 None)).
  - repeat constructor.
  - reflexivity.
Defined.

Lemma resolve_labels_resolved (label_map : gmap string string) (names ids acc : list string) :
  resolved label_map names ids ->
  resolve_labels label_map names acc = inr (acc ++ ids).
Proof.
  intros H. revert acc. induction H as [| n i names ids Hn _ IH]; intros acc; simpl.
  - rewrite app_nil_r. reflexivity.
  - rewrite Hn, IH, <- app_assoc. reflexivity.
Qed.

(** X5. When the labels are listed, every requested name resolves, at least
    one label is requested and the remote side accepts every call,
    [modify_labels] issues after the listing one modify call per message
    identifier, in the order of the input, each carrying the identifiers the
    names resolve to, in the order of the request; it reports the number of
    messages and repeats the requested names. *)
Theorem modify_labels_applies_resolved (service : Service) (params : ModifyLabelsInput.t)
    (log : list Call) (labels : option (list Label))
    (add_label_ids remove_label_ids : list string) (ys : list unit) :
  let label_map := build_label_map (default [] labels) in
  let added := default [] (ModifyLabelsInput.add_labels params) in
  let removed := default [] (ModifyLabelsInput.remove_labels params) in
  let body := modify_body add_label_ids remove_label_ids in
  labels_list service log = Return labels ->
  resolved label_map added add_label_ids ->
  resolved label_map removed remove_label_ids ->
  add_label_ids ++ remove_label_ids <> [] ->
  answered (fun log i => messages_modify service log i body)
           (fun i => users_messages_modify i body)
           (log ++ [users_labels_list]) (ModifyLabelsInput.message_ids params) ys ->
  modify_labels (Return service) params log =
    (Return
       (let output :=
          "✓ Successfully modified " +:+
          str_nat (length (ModifyLabelsInput.message_ids params)) +:+ " message(s)"
            +:+ LF +:+ LF in
        let output :=
          match add_label_ids with
          | [] => output
          | _ => output +:+ "**Added labels:** " +:+ join ", " added +:+ LF
          end in
        match remove_label_ids with
        | [] => output
        | _ => output +:+ "**Removed labels:** " +:+ join ", " removed +:+ LF
        end),
     (log ++ [users_labels_list]) ++
     map (fun i => users_messages_modify i body) (ModifyLabelsInput.message_ids params)).
Proof.
  intros label_map added removed body Hlist Hadd Hrem Hsome Hans.
  unfold modify_labels, modify_labels_try. run_to_listing Hlist.
  fold label_map. rewrite !resolve_optional_loop.
  fold added removed.
  rewrite (resolve_labels_resolved label_map added add_label_ids [] Hadd).
  rewrite (resolve_labels_resolved label_map removed remove_label_ids [] Hrem).
  cbn [app]. fold body.
  assert (Hbody : body_is_empty body = false).
  { unfold body, modify_body, body_is_empty.
    destruct add_label_ids, remove_label_ids; try reflexivity. contradiction Hsome. reflexivity. }
  rewrite Hbody.
  rewrite (modify_each_all service body _ 0 _ ys Hans).
  reflexivity.
Qed.

Lemma modify_labels_applies_resolved_witness :
  modify_labels (Return (sample_service inbox_and_work))
    {| ModifyLabelsInput.message_ids := ["m1"; "m2"];
       ModifyLabelsInput.add_labels := Some ["Work"; "INBOX"];
       ModifyLabelsInput.remove_labels := None |} [] =
  (Return ("✓ Successfully modified 2 message(s)" +:+ LF +:+ LF +:+
           "**Added labels:** Work, INBOX" +:+ LF),
   [users_labels_list;
    users_messages_modify "m1" {| addLabelIds := Some ["Label_1"; "INBOX"]; removeLabelIds := None |};
    users_messages_modify "m2" {| addLabelIds := Some ["Label_1"; "INBOX"]; removeLabelIds := None |}]).
Proof.
  apply (modify_labels_applies_resolved (sample_service inbox_and_work)
           {| ModifyLabelsInput.message_ids := ["m1"; "m2"];
              ModifyLabelsInput.add_labels := Some ["Work"; "INBOX"];
              ModifyLabelsInput.remove_labels := None |}
           [] (Some inbox_and_work) ["Label_1"; "INBOX"] [] [tt; tt]).
  - reflexivity.
  - repeat constructor.
  - constructor.
  - discriminate.
  - repeat constructor.
Defined.

(** ** Decoding a body in parts *)

(** A part that is not text/plain, or has no data, leaves the loop to go on
    after an HTML part has given a text. *)
Lemma decode_parts_keeps_html (rt : Runtime) (ps : list Part) (text : string) :
  text <> "" ->
  Forall (fun p => ~ has_data_of "text/plain" p) ps ->
  decode_parts rt ps text = Return text.
Proof.
  intros Htext Hall. induction Hall as [| p ps Hp _ IH]; simpl; [reflexivity |].
  destruct (String.eqb_spec (mimeType p) "text/plain") as [Hplain | _].
  - destruct (data (part_body p)) as [d |] eqn:Hd; [| exact IH].
    exfalso. apply Hp. split; [exact Hplain | rewrite Hd; eauto].
  - destruct (String.eqb_spec text "") as [-> | _]; [contradiction |].
    rewrite andb_false_r. exact IH.
Qed.

(** X6. In a payload with parts, when a text/plain part has data, no
    text/plain part before it has data, and the data of every text/html part
    before it decodes, [_decode_message_body] gives what the data of that
    text/plain part decodes to: an HTML text decoded on the way is dropped. *)
Theorem decode_body_prefers_plain_text (rt : Runtime) (payload : Payload)
    (before : list Part) (plain : Part) (after : list Part) (d : string) :
  parts payload = Some (before ++ plain :: after) ->
  mimeType plain = "text/plain" ->
  data (part_body plain) = Some d ->
  Forall (fun p => ~ has_data_of "text/plain" p) before ->
  Forall (fun p => forall d', mimeType p = "text/html" -> data (part_body p) = Some d' ->
                   exists text, decode_data rt d' = Return text) before ->
  _decode_message_body rt payload = decode_data rt d.
Proof.
  intros Hparts Hplain Hd Hnone Hhtml. unfold _decode_message_body. rewrite Hparts.
  clear Hparts. generalize "" as text. revert Hnone Hhtml.
  induction before as [| p ps IH]; intros Hnone Hhtml text; simpl.
  - rewrite Hplain, Hd. reflexivity.
  - inversion Hnone as [| ? ? Hp Hnone']; subst.
    inversion Hhtml as [| ? ? Hh Hhtml']; subst.
    destruct (String.eqb_spec (mimeType p) "text/plain") as [Hpl | _].
    + destruct (data (part_body p)) as [d' |] eqn:Hd'; [| apply IH; assumption].
      exfalso. apply Hp. split; [exact Hpl | rewrite Hd'; eauto].
    + destruct (String.eqb_spec (mimeType p) "text/html") as [Hht | _]; simpl;
        [| apply IH; assumption].
      destruct (String.eqb text ""); simpl; [| apply IH; assumption].
      destruct (data (part_body p)) as [d' |] eqn:Hd'; [| apply IH; assumption].
      destruct (Hh d' Hht eq_refl) as [html ->]. simpl. apply IH; assumption.
Qed.

Lemma decode_body_prefers_plain_text_witness :
  _decode_message_body cpython
    {| headers := [];
       parts := Some ([ {| mimeType := "text/html"; part_body := {| data := Some "PGI-SGk8L2I-" |} |};
                        {| mimeType := "image/png"; part_body := {| data := Some "_w==" |} |} ] ++
                      {| mimeType := "text/plain"; part_body := {| data := Some "SGk=" |} |} :: []);
       body := None |} =
  decode_data cpython "SGk=".
Proof.
  apply (decode_body_prefers_plain_text cpython _
           [ {| mimeType := "text/html"; part_body := {| data := Some "PGI-SGk8L2I-" |} |};
             {| mimeType := "image/png"; part_body := {| data := Some "_w==" |} |} ]
           {| mimeType := "text/plain"; part_body := {| data := Some "SGk=" |} |} [] "SGk=").
  - reflexivity.
  - reflexivity.
  - reflexivity.
  - repeat constructor; intros [H _]; discriminate H.
  - repeat constructor; simpl; intros d' Hm Hd; try discriminate Hm.
    inversion Hd; subst. eexists. vm_compute. reflexivity.
Defined.

(** X7. In a payload with parts, when no text/plain part has data,
    [_decode_message_body] falls back on HTML: it gives the text of the first
    text/html part with data, provided that text is not empty; the parts
    after it are not decoded. *)
Theorem decode_body_falls_back_on_html (rt : Runtime) (payload : Payload)
    (before : list Part) (html : Part) (after : list Part) (d text : string) :
  parts payload = Some (before ++ html :: after) ->
  first_part_data before = None ->
  mimeType html = "text/html" ->
  data (part_body html) = Some d ->
  decode_data rt d = Return text ->
  text <> "" ->
  Forall (fun p => ~ has_data_of "text/plain" p) after ->
  _decode_message_body rt payload = Return text.
Proof.
  intros Hparts Hbefore Hhtml Hd Hdec Htext Hafter.
  unfold _decode_message_body. rewrite Hparts. clear Hparts.
  induction before as [| p ps IH]; simpl in *.
  - rewrite Hhtml, Hd, Hdec. simpl. apply decode_parts_keeps_html; assumption.
  - destruct (String.eqb (mimeType p) "text/plain"); simpl in *.
    + destruct (data (part_body p)); [discriminate | apply IH; exact Hbefore].
    + destruct (String.eqb (mimeType p) "text/html"); simpl in *.
      * destruct (data (part_body p)); [discriminate | apply IH; exact Hbefore].
      * apply IH. exact Hbefore.
Qed.

Lemma decode_body_falls_back_on_html_witness :
  _decode_message_body cpython
    {| headers := [];
       parts := Some ([ {| mimeType := "text/plain"; part_body := {| data := None |} |} ] ++
                      {| mimeType := "text/html"; part_body := {| data := Some "PGI-SGk8L2I-" |} |} ::
                      [ {| mimeType := "text/html"; part_body := {| data := Some "_w==" |} |} ]);
       body := None |} =
  Return "<b>Hi</b>".
Proof.
  apply (decode_body_falls_back_on_html cpython _
           [ {| mimeType := "text/plain"; part_body := {| data := None |} |} ]
           {| mimeType := "text/html"; part_body := {| data := Some "PGI-SGk8L2I-" |} |}
           [ {| mimeType := "text/html"; part_body := {| data := Some "_w==" |} |} ]
           "PGI-SGk8L2I-").
  - reflexivity.
  - reflexivity.
  - reflexivity.
  - reflexivity.
  - vm_compute. reflexivity.
  - discriminate.
  - repeat constructor. intros [H _]. discriminate H.
Defined.

(** ** search_emails *)

Lemma search_markdown_loop_without_body (rt : Runtime) (i : nat) (msgs : list Message)
    (output : string) :
  search_markdown_loop rt false i msgs output =
    Return (output +:+ sections_without_body i msgs).
Proof.
  revert i output. induction msgs as [| msg rest IH]; intros i output; simpl.
  - rewrite append_nil_r. reflexivity.
  - rewrite IH, append_assoc. reflexivity.
Qed.

Lemma search_json_loop_without_body (rt : Runtime) (msgs : list Message) (acc : list json) :
  search_json_loop rt false msgs acc = Return (acc ++ map message_summary msgs).
Proof.
  revert acc. induction msgs as [| msg rest IH]; intros acc; simpl.
  - rewrite app_nil_r. reflexivity.
  - rewrite IH, <- app_assoc. reflexivity.
Qed.

(** X8. When the listing of a search has no message, be it that the
    response lacks the key or that its list is empty, [search_emails] returns
    the no-match text in either format and fetches nothing. *)
Theorem search_emails_no_match (rt : Runtime) (service : Service)
    (params : SearchEmailsInput.t) (log : list Call) (results : option (list string)) :
  messages_list service log (SearchEmailsInput.query params)
                (SearchEmailsInput.max_results params) = Return results ->
  results = None \/ results = Some [] ->
  search_emails rt (Return service) params log =
    (Return "No messages found matching your search query.",
     log ++ [users_messages_list (SearchEmailsInput.query params)
                                 (SearchEmailsInput.max_results params)]).
Proof.
  intros Hlist Hnone. unfold search_emails, search_emails_try. run_to_listing Hlist.
  destruct Hnone as [-> | ->]; reflexivity.
Qed.

Lemma search_emails_no_match_witness :
  search_emails cpython (Return demo_service)
    {| SearchEmailsInput.query := "nothing"; SearchEmailsInput.max_results := 20;
       SearchEmailsInput.include_body := true;
       SearchEmailsInput.response_format := JSON |} [] =
  (Return "No messages found matching your search query.",
   [] ++ [users_messages_list "nothing" 20]).
Proof.
  apply (search_emails_no_match cpython demo_service
           {| SearchEmailsInput.query := "nothing"; SearchEmailsInput.max_results := 20;
              SearchEmailsInput.include_body := true;
              SearchEmailsInput.response_format := JSON |} [] None).
  - reflexivity.
  - left. reflexivity.
Defined.

(** X9. A search without bodies in the Markdown format fetches every listed
    message once, in the order of the listing and in the metadata format, and
    renders one numbered section per message in that order, each made of the
    fields of the message with no body; the payloads are not decoded, so
    malformed body data cannot make it fail. *)
Theorem search_emails_markdown_without_body (rt : Runtime) (service : Service)
    (params : SearchEmailsInput.t) (log : list Call)
    (id1 : string) (ids : list string) (msgs : list Message) :
  let listing := users_messages_list (SearchEmailsInput.query params)
                                     (SearchEmailsInput.max_results params) in
  SearchEmailsInput.include_body params = false ->
  SearchEmailsInput.response_format params = MARKDOWN ->
  messages_list service log (SearchEmailsInput.query params)
                (SearchEmailsInput.max_results params) = Return (Some (id1 :: ids)) ->
  answered (fun log i => messages_get service log i "metadata")
           (fun i => users_messages_get i "metadata") (log ++ [listing]) (id1 :: ids) msgs ->
  search_emails rt (Return service) params log =
    (Return (("# Search Results" +:+ LF +:+ LF +:+
              "**Query:** " +:+ SearchEmailsInput.query params +:+ LF +:+
              "**Found:** " +:+ str_nat (length (id1 :: ids)) +:+ " message(s)"
                +:+ LF +:+ LF +:+
              "---" +:+ LF +:+ LF) +:+
             sections_without_body 1 msgs),
     (log ++ [listing]) ++ map (fun i => users_messages_get i "metadata") (id1 :: ids)).
Proof.
  intros listing Hbody Hfmt Hlist Hans.
  unfold search_emails, search_emails_try. run_to_listing Hlist.
  rewrite Hbody, Hfmt. fold listing.
  change (default [] (Some (id1 :: ids))) with (id1 :: ids). cbv beta iota.
  rewrite (fetch_messages_all service "metadata" (id1 :: ids) msgs [] _ Hans).
  cbn [app]. rewrite search_markdown_loop_without_body.
  rewrite (answered_length _ _ _ _ _ Hans). reflexivity.
Qed.

Lemma search_emails_markdown_without_body_witness :
  search_emails cpython (Return demo_service)
    {| SearchEmailsInput.query := "is:unread"; SearchEmailsInput.max_results := 20;
       SearchEmailsInput.include_body := false;
       SearchEmailsInput.response_format := MARKDOWN |} [] =
  (Return (("# Search Results" +:+ LF +:+ LF +:+
            "**Query:** is:unread" +:+ LF +:+
            "**Found:** 2 message(s)" +:+ LF +:+ LF +:+
            "---" +:+ LF +:+ LF) +:+
           sections_without_body 1 [quarterly_message "m1"; quarterly_message "m3"]),
   [users_messages_list "is:unread" 20;
    users_messages_get "m1" "metadata"; users_messages_get "m3" "metadata"]).
Proof.
  apply (search_emails_markdown_without_body cpython demo_service
           {| SearchEmailsInput.query := "is:unread"; SearchEmailsInput.max_results := 20;
              SearchEmailsInput.include_body := false;
              SearchEmailsInput.response_format := MARKDOWN |} []
           "m1" ["m3"] [quarterly_message "m1"; quarterly_message "m3"]).
  - reflexivity.
  - reflexivity.
  - reflexivity.
  - repeat constructor.
Defined.

(** X10. A search without bodies in the JSON format gives the document of
    the number of fetched messages, the query, and one entry per message in
    the order of the listing; an entry has the identifier, the thread, the
    four headers, the snippet and the labels, and no body. *)
Theorem search_emails_json_without_body (rt : Runtime) (service : Service)
    (params : SearchEmailsInput.t) (log : list Call)
    (id1 : string) (ids : list string) (msgs : list Message) :
  let listing := users_messages_list (SearchEmailsInput.query params)
                                     (SearchEmailsInput.max_results params) in
  SearchEmailsInput.include_body params = false ->
  SearchEmailsInput.response_format params = JSON ->
  messages_list service log (SearchEmailsInput.query params)
                (SearchEmailsInput.max_results params) = Return (Some (id1 :: ids)) ->
  answered (fun log i => messages_get service log i "metadata")
           (fun i => users_messages_get i "metadata") (log ++ [listing]) (id1 :: ids) msgs ->
  search_emails rt (Return service) params log =
    (Return (dumps rt (JDict
       [("total_results", JInt (Z.of_nat (length (id1 :: ids))));
        ("query", JString (SearchEmailsInput.query params));
        ("messages", JList (map message_summary msgs))])),
     (log ++ [listing]) ++ map (fun i => users_messages_get i "metadata") (id1 :: ids)).
Proof.
  intros listing Hbody Hfmt Hlist Hans.
  unfold search_emails, search_emails_try. run_to_listing Hlist.
  rewrite Hbody, Hfmt. fold listing.
  change (default [] (Some (id1 :: ids))) with (id1 :: ids). cbv beta iota.
  rewrite (fetch_messages_all service "metadata" (id1 :: ids) msgs [] _ Hans).
  cbn [app]. rewrite search_json_loop_without_body.
  rewrite (answered_length _ _ _ _ _ Hans). reflexivity.
Qed.

Lemma search_emails_json_without_body_witness :
  search_emails cpython (Return demo_service)
    {| SearchEmailsInput.query := "is:unread"; SearchEmailsInput.max_results := 20;
       SearchEmailsInput.include_body := false;
       SearchEmailsInput.response_format := JSON |} [] =
  (Return (dumps cpython (JDict
     [("total_results", JInt 2);
      ("query", JString "is:unread");
      ("messages", JList [message_summary (quarterly_message "m1");
                          message_summary (quarterly_message "m3")])])),
   [users_messages_list "is:unread" 20;
    users_messages_get "m1" "metadata"; users_messages_get "m3" "metadata"]).
Proof.
  apply (search_emails_json_without_body cpython demo_service
           {| SearchEmailsInput.query := "is:unread"; SearchEmailsInput.max_results := 20;
              SearchEmailsInput.include_body := false;
              SearchEmailsInput.response_format := JSON |} []
           "m1" ["m3"] [quarterly_message "m1"; quarterly_message "m3"]).
  - reflexivity.
  - reflexivity.
  - reflexivity.
  - repeat constructor.
Defined.

(** X11. In a search with bodies, when the body of one fetched message
    cannot be decoded, [search_emails] returns the string of the classifier
    for that exception in either format: every listed message has been
    fetched, and the messages whose bodies decode are not reported. *)
Theorem search_emails_one_bad_body_fails_all (rt : Runtime) (service : Service)
    (params : SearchEmailsInput.t) (log : list Call)
    (id1 : string) (ids : list string)
    (good : list Message) (bad : Message) (rest : list Message) (e : exn) :
  let listing := users_messages_list (SearchEmailsInput.query params)
                                     (SearchEmailsInput.max_results params) in
  SearchEmailsInput.include_body params = true ->
  messages_list service log (SearchEmailsInput.query params)
                (SearchEmailsInput.max_results params) = Return (Some (id1 :: ids)) ->
  answered (fun log i => messages_get service log i "full")
           (fun i => users_messages_get i "full") (log ++ [listing]) (id1 :: ids)
           (good ++ bad :: rest) ->
  Forall (fun m => exists b, _decode_message_body rt (payload m) = Return b) good ->
  _decode_message_body rt (payload bad) = Raise e ->
  search_emails rt (Return service) params log =
    (Return (_handle_api_error e),
     (log ++ [listing]) ++ map (fun i => users_messages_get i "full") (id1 :: ids)).
Proof.
  intros listing Hbody Hlist Hans Hgood Hbad.
  exact (search_emails_bad_body rt service params log id1 ids good bad rest e
           Hbody Hlist Hans Hgood Hbad).
Qed.

(** A service whose second message has a body with bad padding. *)
Lemma search_emails_one_bad_body_fails_all_witness :
  search_emails cpython
    (Return {| labels_list := fun _ => refused;
               labels_create := fun _ _ => refused;
               messages_list := fun _ _ _ => Return (Some ["m1"; "m2"; "m3"]);
               messages_get := fun _ id' _ =>
                 if String.eqb id' "m2"
                 then Return {| msg_id := "m2"; threadId := "t2"; payload := bad_padding_payload;
                                snippet := None; labelIds := None |}
                 else Return (quarterly_message id');
               messages_send := fun _ _ => refused;
               messages_modify := fun _ _ _ => refused;
               messages_trash := fun _ _ => refused;
               threads_get := fun _ _ => refused |})
    {| SearchEmailsInput.query := "is:unread"; SearchEmailsInput.max_results := 20;
       SearchEmailsInput.include_body := true;
       SearchEmailsInput.response_format := MARKDOWN |} [] =
  (Return "Error: Error: Incorrect padding",
   [users_messages_list "is:unread" 20; users_messages_get "m1" "full";
    users_messages_get "m2" "full"; users_messages_get "m3" "full"]).
Proof.
  apply (search_emails_one_bad_body_fails_all cpython _
           {| SearchEmailsInput.query := "is:unread"; SearchEmailsInput.max_results := 20;
              SearchEmailsInput.include_body := true;
              SearchEmailsInput.response_format := MARKDOWN |} []
           "m1" ["m2"; "m3"] [quarterly_message "m1"]
           {| msg_id := "m2"; threadId := "t2"; payload := bad_padding_payload;
              snippet := None; labelIds := None |}
           [quarterly_message "m3"] (PyError "Error" "Incorrect padding")).
  - reflexivity.
  - reflexivity.
  - repeat constructor.
  - repeat constructor. eexists. vm_compute. reflexivity.
  - vm_compute. reflexivity.
Defined.

(** ** The classifier, the label map and the label operations *)

(** X12. The string of the classifier starts with [Error: ] for every
    exception but [FileNotFoundError], whose message is returned as it is. *)
Theorem classifier_error_prefix (e : exn) :
  (forall msg, e <> FileNotFoundError msg) ->
  startswith (_handle_api_error e) "Error: " = true.
Proof.
  intros Hnot. destruct e as [status details | msg | ty msg]; simpl.
  - destruct (status =? 404)%Z; [reflexivity |].
    destruct (status =? 403)%Z; [reflexivity |].
    destruct (status =? 429)%Z; [reflexivity |].
    destruct (status =? 400)%Z; reflexivity.
  - contradiction (Hnot msg). reflexivity.
  - reflexivity.
Qed.

Lemma classifier_error_prefix_witness :
  startswith (_handle_api_error (HttpError 503 (Some "backend"))) "Error: " = true.
Proof.
  apply (classifier_error_prefix (HttpError 503 (Some "backend"))).
  intros msg. discriminate.
Defined.

(** X13. Whatever a key of the label map resolves to is the identifier of a
    label of the list, and resolves to itself: resolving twice is resolving
    once. *)
Theorem label_map_resolution_idempotent (labels : list Label) (k v : string) :
  build_label_map labels !! k = Some v ->
  (exists l, In l labels /\ label_id l = v) /\
  build_label_map labels !! v = Some v.
Proof.
  intros H. destruct (label_map_key labels k v H) as (l & Hin & _ & Hid).
  split; [exists l; auto |].
  rewrite <- Hid. apply label_map_identifier. exact Hin.
Qed.

Lemma label_map_resolution_idempotent_witness :
  (exists l, In l colliding_labels /\ label_id l = "Label_2") /\
  build_label_map colliding_labels !! "Label_2" = Some "Label_2".
Proof.
  apply (label_map_resolution_idempotent colliding_labels "Work" "Label_2").
  vm_compute. reflexivity.
Defined.

(** X14. When the labels are listed and none has the requested name
    ignoring case, [create_label] issues one create call with the requested
    name and the two visibilities, and reports the name and the identifier of
    the label the remote side answers with. *)
Theorem create_label_creates (service : Service) (params : CreateLabelInput.t)
    (log : list Call) (labels : option (list Label)) (result : Label) :
  let label_object :=
    {| lo_name := CreateLabelInput.name params;
       labelListVisibility := CreateLabelInput.label_list_visibility params;
       messageListVisibility := CreateLabelInput.message_list_visibility params |} in
  labels_list service log = Return labels ->
  Forall (fun l => ~ same_name (label_name l) (CreateLabelInput.name params))
         (default [] labels) ->
  labels_create service (log ++ [users_labels_list]) label_object = Return result ->
  create_label (Return service) params log =
    (Return ("✓ Label created successfully!" +:+ LF +:+ LF +:+
             "**Name:** " +:+ label_name result +:+ LF +:+
             "**ID:** " +:+ label_id result),
     (log ++ [users_labels_list]) ++ [users_labels_create label_object]).
Proof.
  intros label_object Hlist Hnone Hcreate.
  unfold create_label, create_label_try. run_to_listing Hlist.
  rewrite (proj2 (existing_label_none _ _) Hnone).
  fold label_object. rewrite Hcreate. reflexivity.
Qed.

Lemma create_label_creates_witness :
  create_label (Return demo_service)
    {| CreateLabelInput.name := "Travel";
       CreateLabelInput.label_list_visibility := "labelShow";
       CreateLabelInput.message_list_visibility := "show" |} [] =
  (Return ("✓ Label created successfully!" +:+ LF +:+ LF +:+
           "**Name:** Travel" +:+ LF +:+ "**ID:** Label_9"),
   [users_labels_list;
    users_labels_create {| lo_name := "Travel"; labelListVisibility := "labelShow";
                           messageListVisibility := "show" |}]).
Proof.
  apply (create_label_creates demo_service
           {| CreateLabelInput.name := "Travel";
              CreateLabelInput.label_list_visibility := "labelShow";
              CreateLabelInput.message_list_visibility := "show" |}
           [] (Some inbox_and_work)
           {| label_id := "Label_9"; label_name := "Travel"; label_type := "user" |}).
  - reflexivity.
  - repeat constructor; intros H; vm_compute in H; discriminate H.
  - reflexivity.
Defined.

(** X15. When the listing has no label, be it that the response lacks the
    key or that its list is empty, [list_labels] returns the text that no
    label was found, in the JSON format as in the Markdown format. *)
Theorem list_labels_none_found (rt : Runtime) (service : Service)
    (params : ListLabelsInput.t) (log : list Call) (results : option (list Label)) :
  labels_list service log = Return results ->
  results = None \/ results = Some [] ->
  list_labels rt (Return service) params log =
    (Return "No labels found.", log ++ [users_labels_list]).
Proof.
  intros Hlist Hnone. unfold list_labels, list_labels_try. run_to_listing Hlist.
  destruct Hnone as [-> | ->]; reflexivity.
Qed.

Lemma list_labels_none_found_witness :
  list_labels cpython (Return (sample_service []))
    {| ListLabelsInput.response_format := JSON |} [] =
  (Return "No labels found.", [] ++ [users_labels_list]).
Proof.
  apply (list_labels_none_found cpython (sample_service [])
           {| ListLabelsInput.response_format := JSON |} [] (Some [])).
  - reflexivity.
  - right. reflexivity.
Defined.

(** ** The preview *)

Lemma py_len_append (a b : string) : py_len (a +:+ b) = py_len a + py_len b.
Proof.
  induction a as [| c a IH]; [reflexivity |].
  change (py_len (String c (a +:+ b)) = py_len (String c a) + py_len b).
  simpl. destruct (is_continuation c); rewrite IH; reflexivity.
Qed.

(** X16. The preview of a body of at most 500 characters has the length of
    the body, and the preview of any longer body has 503 characters: the
    preview of a body of 501 or 502 characters is longer than the body. *)
Theorem body_preview_length (body : string) :
  py_len (body_preview body) =
    if (500 <? py_len body)%nat then 503 else py_len body.
Proof.
  unfold body_preview. rewrite py_len_append, py_len_slice.
  destruct (Nat.ltb_spec 500 (py_len body)) as [Hlong | Hshort].
  - rewrite Nat.min_l by lia. reflexivity.
  - rewrite Nat.min_r by exact Hshort. simpl. lia.
Qed.

(** ** send_email and reply_to_email *)

(** X18. [reply_to_email] reads the first message of the thread only. Once
    the thread is fetched, the message it builds has, in this order, the
    derived reply subject, the Message-ID of the first message as In-Reply-To
    and as References, its From as To, and its Cc as Cc only when [reply_all]
    is set and that Cc is not empty. When the library flattens this message
    and the send call is accepted, that call is bound to the thread and
    carries the flattened message in URL-safe base64; when the library
    refuses the message, as for a header of the first message that holds a
    line break, the string of the classifier is returned and nothing is
    sent. *)
Theorem reply_to_email_seeds_from_first_message (service : Service)
    (as_bytes : MIMEMessage -> outcome (list Byte.byte))
    (params : ReplyToEmailInput.t) (log : list Call)
    (original : Message) (later : list Message) :
  let headers := headers (payload original) in
  let to_addresses := _get_header_value headers "From" in
  let cc_addresses := _get_header_value headers "Cc" in
  let subject := reply_subject (_get_header_value headers "Subject") in
  let message_id := _get_header_value headers "Message-ID" in
  let message :=
    {| content := content (new_message (ReplyToEmailInput.body params)
                                       (ReplyToEmailInput.is_html params));
       mime_headers :=
         [("Subject", subject); ("In-Reply-To", message_id);
          ("References", message_id); ("To", to_addresses)] ++
         (if ReplyToEmailInput.reply_all params && negb (String.eqb cc_addresses "")
          then [("Cc", cc_addresses)] else []) |} in
  let fetched := log ++ [users_threads_get (ReplyToEmailInput.thread_id params)] in
  threads_get service log (ReplyToEmailInput.thread_id params) = Return (original :: later) ->
  (forall (data : list Byte.byte) (result : Sent),
      let send_message :=
        {| raw := urlsafe_b64encode data;
           send_threadId := Some (ReplyToEmailInput.thread_id params) |} in
      as_bytes message = Return data ->
      messages_send service fetched send_message = Return result ->
      reply_to_email (Return service) as_bytes params log =
        (Return ("✓ Reply sent successfully!" +:+ LF +:+ LF +:+
                 "**Message ID:** " +:+ sent_id result +:+ LF +:+
                 "**Thread ID:** " +:+ sent_threadId result +:+ LF +:+
                 "**To:** " +:+ to_addresses +:+ LF +:+
                 "**Subject:** " +:+ subject),
         fetched ++ [users_messages_send send_message])) /\
  (forall e : exn,
      as_bytes message = Raise e ->
      reply_to_email (Return service) as_bytes params log =
        (Return (_handle_api_error e), fetched)).
Proof.
  intros headers to_addresses cc_addresses subject message_id message fetched Hthread.
  assert (Hmsg :
    (if ReplyToEmailInput.reply_all params
     then
       if String.eqb cc_addresses ""
       then set_header "To" to_addresses
              (set_header "References" message_id
                 (set_header "In-Reply-To" message_id
                    (set_header "Subject" subject
                       (new_message (ReplyToEmailInput.body params)
                                    (ReplyToEmailInput.is_html params)))))
       else set_header "Cc" cc_addresses
              (set_header "To" to_addresses
                 (set_header "References" message_id
                    (set_header "In-Reply-To" message_id
                       (set_header "Subject" subject
                          (new_message (ReplyToEmailInput.body params)
                                       (ReplyToEmailInput.is_html params))))))
     else set_header "To" to_addresses
            (set_header "References" message_id
               (set_header "In-Reply-To" message_id
                  (set_header "Subject" subject
                     (new_message (ReplyToEmailInput.body params)
                                  (ReplyToEmailInput.is_html params)))))) = message).
  { unfold message, set_header, new_message.
    destruct (ReplyToEmailInput.reply_all params), (String.eqb cc_addresses ""),
      (ReplyToEmailInput.is_html params); reflexivity. }
  split.
  - intros data result send_message Hflat Hsend.
    unfold reply_to_email, reply_to_email_try. run_to_listing Hthread.
    fold headers. fold to_addresses cc_addresses subject message_id.
    rewrite Hmsg. unfold encode_message. rewrite Hflat. cbn [outcome_bind].
    fold send_message. fold fetched. rewrite Hsend. reflexivity.
  - intros e Hflat.
    unfold reply_to_email, reply_to_email_try. run_to_listing Hthread.
    fold headers. fold to_addresses cc_addresses subject message_id.
    rewrite Hmsg. unfold encode_message. rewrite Hflat. reflexivity.
Qed.

Lemma reply_to_email_seeds_from_first_message_witness :
  reply_to_email (Return demo_service) demo_as_bytes
    {| ReplyToEmailInput.thread_id := "t1"; ReplyToEmailInput.body := "Thanks";
       ReplyToEmailInput.reply_all := true; ReplyToEmailInput.is_html := false |} [] =
  (Return ("✓ Reply sent successfully!" +:+ LF +:+ LF +:+
           "**Message ID:** s1" +:+ LF +:+
           "**Thread ID:** t1" +:+ LF +:+
           "**To:** boss@x.com" +:+ LF +:+
           "**Subject:** Re: Quarterly Report"),
   [users_threads_get "t1";
    users_messages_send
      {| raw := "U3ViamVjdDogUmU6IFF1YXJ0ZXJseSBSZXBvcnQKSW4tUmVwbHktVG86IDxxM0B4LmNvbT4KUmVmZXJlbmNlczogPHEzQHguY29tPgpUbzogYm9zc0B4LmNvbQpDYzogdGVhbUB4LmNvbQoKVGhhbmtz";
         send_threadId := Some "t1" |}]).
Proof.
  apply (proj1 (reply_to_email_seeds_from_first_message demo_service demo_as_bytes
           {| ReplyToEmailInput.thread_id := "t1"; ReplyToEmailInput.body := "Thanks";
              ReplyToEmailInput.reply_all := true; ReplyToEmailInput.is_html := false |}
           [] (quarterly_message "m1") [quarterly_message "m3"] eq_refl)
           (list_byte_of_string
              ("Subject: Re: Quarterly Report" +:+ LF +:+ "In-Reply-To: <q3@x.com>" +:+ LF +:+
               "References: <q3@x.com>" +:+ LF +:+ "To: boss@x.com" +:+ LF +:+
               "Cc: team@x.com" +:+ LF +:+ LF +:+ "Thanks"))
           {| sent_id := "s1"; sent_threadId := "t1" |}).
  - reflexivity.
  - reflexivity.
Defined.

(** X19. [send_email] builds a message whose headers are, in this order, To
    with the recipients joined by a comma and a space, Subject, and then Cc,
    Bcc and Reply-To, each present only when its input is neither absent nor
    empty. When the library flattens this message and the send call is
    accepted, that one call has been issued, bound to no thread, with the
    flattened message in URL-safe base64; when the library refuses the
    message, as for a subject that holds a line break, the string of the
    classifier is returned and nothing is sent. *)
Theorem send_email_builds_message (service : Service)
    (as_bytes : MIMEMessage -> outcome (list Byte.byte))
    (params : SendEmailInput.t) (log : list Call) :
  let message :=
    {| content := content (new_message (SendEmailInput.body params)
                                       (SendEmailInput.is_html params));
       mime_headers :=
         [("To", join ", " (SendEmailInput.to params));
          ("Subject", SendEmailInput.subject params)] ++
         (if truthy_list (SendEmailInput.cc params)
          then [("Cc", join ", " (default [] (SendEmailInput.cc params)))] else []) ++
         (if truthy_list (SendEmailInput.bcc params)
          then [("Bcc", join ", " (default [] (SendEmailInput.bcc params)))] else []) ++
         match SendEmailInput.reply_to params with
         | Some r => if String.eqb r "" then [] else [("Reply-To", r)]
         | None => []
         end |} in
  (forall (data : list Byte.byte) (result : Sent),
      let send_message := {| raw := urlsafe_b64encode data; send_threadId := None |} in
      as_bytes message = Return data ->
      messages_send service log send_message = Return result ->
      send_email (Return service) as_bytes params log =
        (Return ("✓ Email sent successfully!" +:+ LF +:+ LF +:+
                 "**Message ID:** " +:+ sent_id result +:+ LF +:+
                 "**Thread ID:** " +:+ sent_threadId result +:+ LF +:+
                 "**To:** " +:+ join ", " (SendEmailInput.to params) +:+ LF +:+
                 "**Subject:** " +:+ SendEmailInput.subject params),
         log ++ [users_messages_send send_message])) /\
  (forall e : exn,
      as_bytes message = Raise e ->
      send_email (Return service) as_bytes params log = (Return (_handle_api_error e), log)).
Proof.
  intros message.
  assert (Hmsg :
    match SendEmailInput.reply_to params with
    | Some r =>
        if String.eqb r "" then
          (if truthy_list (SendEmailInput.bcc params)
           then set_header "Bcc" (join ", " (default [] (SendEmailInput.bcc params)))
           else fun m => m)
            ((if truthy_list (SendEmailInput.cc params)
              then set_header "Cc" (join ", " (default [] (SendEmailInput.cc params)))
              else fun m => m)
               (set_header "Subject" (SendEmailInput.subject params)
                  (set_header "To" (join ", " (SendEmailInput.to params))
                     (new_message (SendEmailInput.body params)
                                  (SendEmailInput.is_html params)))))
        else set_header "Reply-To" r
          ((if truthy_list (SendEmailInput.bcc params)
            then set_header "Bcc" (join ", " (default [] (SendEmailInput.bcc params)))
            else fun m => m)
             ((if truthy_list (SendEmailInput.cc params)
               then set_header "Cc" (join ", " (default [] (SendEmailInput.cc params)))
               else fun m => m)
                (set_header "Subject" (SendEmailInput.subject params)
                   (set_header "To" (join ", " (SendEmailInput.to params))
                      (new_message (SendEmailInput.body params)
                                   (SendEmailInput.is_html params))))))
    | None =>
        (if truthy_list (SendEmailInput.bcc params)
         then set_header "Bcc" (join ", " (default [] (SendEmailInput.bcc params)))
         else fun m => m)
          ((if truthy_list (SendEmailInput.cc params)
            then set_header "Cc" (join ", " (default [] (SendEmailInput.cc params)))
            else fun m => m)
             (set_header "Subject" (SendEmailInput.subject params)
                (set_header "To" (join ", " (SendEmailInput.to params))
                   (new_message (SendEmailInput.body params)
                                (SendEmailInput.is_html params)))))
    end = message).
  { unfold message, set_header, new_message.
    destruct (truthy_list (SendEmailInput.cc params)),
      (truthy_list (SendEmailInput.bcc params)),
      (SendEmailInput.reply_to params) as [r |];
      try destruct (String.eqb r "");
      destruct (SendEmailInput.is_html params); reflexivity. }
  assert (Hbuilt : forall k : string -> M string,
    (do encoded_message <- lift (encode_message as_bytes message); k encoded_message) log =
    match as_bytes message with
    | Return data => k (urlsafe_b64encode data) log
    | Raise e => (Raise e, log)
    end).
  { intros k. unfold bind, lift, encode_message. destruct (as_bytes message); reflexivity. }
  assert (Hrun : send_email (Return service) as_bytes params log =
    try_except
      (do encoded_message <- lift (encode_message as_bytes message);
       let send_message := {| raw := encoded_message; send_threadId := None |} in
       do result <- execute (users_messages_send send_message)
                      (fun log => messages_send service log send_message);
       ret ("✓ Email sent successfully!" +:+ LF +:+ LF +:+
            "**Message ID:** " +:+ sent_id result +:+ LF +:+
            "**Thread ID:** " +:+ sent_threadId result +:+ LF +:+
            "**To:** " +:+ join ", " (SendEmailInput.to params) +:+ LF +:+
            "**Subject:** " +:+ SendEmailInput.subject params))
      _handle_api_error log).
  { rewrite <- Hmsg. unfold send_email, send_email_try, try_except, bind, get_gmail_service, lift.
    cbv zeta.
    destruct (truthy_list (SendEmailInput.cc params)),
      (truthy_list (SendEmailInput.bcc params)),
      (SendEmailInput.reply_to params) as [r |];
      try destruct (String.eqb r ""); reflexivity. }
  rewrite Hrun, try_except_run, Hbuilt. split.
  - intros data result send_message Hflat Hsend. rewrite Hflat.
    unfold bind, execute, ret. fold send_message. rewrite Hsend. reflexivity.
  - intros e Hflat. rewrite Hflat. reflexivity.
Qed.

Lemma send_email_builds_message_witness :
  send_email (Return demo_service) demo_as_bytes
    {| SendEmailInput.to := ["a@x.com"; "b@x.com"]; SendEmailInput.subject := "Hi";
       SendEmailInput.body := "Hello"; SendEmailInput.cc := Some [];
       SendEmailInput.bcc := Some ["c@x.com"]; SendEmailInput.reply_to := None;
       SendEmailInput.is_html := false |} [] =
  (Return ("✓ Email sent successfully!" +:+ LF +:+ LF +:+
           "**Message ID:** s1" +:+ LF +:+
           "**Thread ID:** t9" +:+ LF +:+
           "**To:** a@x.com, b@x.com" +:+ LF +:+
           "**Subject:** Hi"),
   [users_messages_send
      {| raw := "VG86IGFAeC5jb20sIGJAeC5jb20KU3ViamVjdDogSGkKQmNjOiBjQHguY29tCgpIZWxsbw==";
         send_threadId := None |}]).
Proof.
  apply (proj1 (send_email_builds_message demo_service demo_as_bytes
           {| SendEmailInput.to := ["a@x.com"; "b@x.com"]; SendEmailInput.subject := "Hi";
              SendEmailInput.body := "Hello"; SendEmailInput.cc := Some [];
              SendEmailInput.bcc := Some ["c@x.com"]; SendEmailInput.reply_to := None;
              SendEmailInput.is_html := false |} [])
           (list_byte_of_string
              ("To: a@x.com, b@x.com" +:+ LF +:+ "Subject: Hi" +:+ LF +:+
               "Bcc: c@x.com" +:+ LF +:+ LF +:+ "Hello"))
           {| sent_id := "s1"; sent_threadId := "t9" |}).
  - reflexivity.
  - reflexivity.
Defined.

(** A subject with a line break that would add a header: the library
    refuses the message, and nothing is sent. *)
Example send_email_embedded_header :
  send_email (Return demo_service) demo_as_bytes
    {| SendEmailInput.to := ["a@x.com"];
       SendEmailInput.subject := "Hi" +:+ LF +:+ "Bcc: evil@x.com";
       SendEmailInput.body := "Hello"; SendEmailInput.cc := None;
       SendEmailInput.bcc := None; SendEmailInput.reply_to := None;
       SendEmailInput.is_html := false |} [] =
  (Return "Error: HeaderParseError: header value appears to contain an embedded header", []).
Proof. reflexivity. Qed.

(** [urlsafe_b64encode] on bytes that give the two characters of the
    URL-safe alphabet, and on data of one byte and of none. *)
Example urlsafe_b64encode_examples :
  urlsafe_b64encode [Byte.xfb; Byte.xff; Byte.xfe; Byte.x00; Byte.x3e] = "-__-AD4=" /\
  urlsafe_b64encode [Byte.x61] = "YQ==" /\
  urlsafe_b64encode [] = "".
Proof. repeat split. Qed.

(** ** The session provider *)

(** X20. Once [get_gmail_service] has given a handle, every later call in
    the process gives that same handle and changes nothing, whatever has
    become of the token file: the handle is built once. *)
Theorem get_gmail_service_builds_once (lib : Session.Library) (path : string)
    (st st' : Session.Process) (service : Service) :
  Session.get_gmail_service lib path st = (Return service, st') ->
  Session._gmail_service st' = Some service /\
  forall file',
    let later := {| Session._gmail_service := Session._gmail_service st';
                    Session.token_file := file' |} in
    Session.get_gmail_service lib path later = (Return service, later).
Proof.
  intros H.
  assert (Hcache : Session._gmail_service st' = Some service).
  { unfold Session.get_gmail_service in H.
    destruct (Session._gmail_service st) as [cached |] eqn:Hc.
    - inversion H; subst. exact Hc.
    - destruct (Session.token_file st) as [content |]; [| discriminate H].
      destruct (Session.pickle_load lib content) as [creds | e]; [| discriminate H].
      destruct creds as [c |].
      + destruct (Session.should_refresh (Some c)).
        * destruct (Session.refresh lib c) as [c' | e]; [| discriminate H].
          destruct (Session.build lib (Some c')); inversion H; reflexivity.
        * destruct (Session.build lib (Some c)); inversion H; reflexivity.
      + destruct (Session.build lib None); inversion H; reflexivity. }
  split; [exact Hcache |].
  intros file' later. unfold Session.get_gmail_service, later. simpl.
  rewrite Hcache. reflexivity.
Qed.

Lemma get_gmail_service_builds_once_witness :
  Session._gmail_service
    {| Session._gmail_service := Some demo_service; Session.token_file := Some [Byte.x01] |} =
    Some demo_service /\
  forall file',
    let later := {| Session._gmail_service := Some demo_service;
                    Session.token_file := file' |} in
    Session.get_gmail_service demo_library "/srv/gmail_token.pickle" later =
      (Return demo_service, later).
Proof.
  apply (get_gmail_service_builds_once demo_library "/srv/gmail_token.pickle"
           {| Session._gmail_service := None; Session.token_file := Some [Byte.x01] |}
           {| Session._gmail_service := Some demo_service;
              Session.token_file := Some [Byte.x01] |}
           demo_service).
  reflexivity.
Defined.

(** X21. A call of [get_gmail_service] that raises leaves the handle unset,
    so the next call tries again; and whatever its outcome, a call rewrites
    the token file only with the dump of credentials that were loaded from
    it, were expired with a refresh token, and have just been refreshed. *)
Theorem get_gmail_service_effects (lib : Session.Library) (path : string)
    (st : Session.Process) :
  let result := Session.get_gmail_service lib path st in
  (forall e, fst result = Raise e ->
             Session._gmail_service st = None /\
             Session._gmail_service (snd result) = None) /\
  (Session.token_file (snd result) = Session.token_file st \/
   exists content c c',
     Session.token_file st = Some content /\
     Session.pickle_load lib content = Return (Some c) /\
     Session.should_refresh (Some c) = true /\
     Session.refresh lib c = Return c' /\
     Session.token_file (snd result) = Some (Session.pickle_dump lib c')).
Proof.
  unfold Session.get_gmail_service. cbv zeta.
  destruct (Session._gmail_service st) as [cached |] eqn:Hc.
  { split; [intros e H; discriminate H | left; reflexivity]. }
  destruct (Session.token_file st) as [content |] eqn:Hf.
  2: { cbn [fst snd]. rewrite Hc. split; [auto | left; exact Hf]. }
  destruct (Session.pickle_load lib content) as [[c |] | e] eqn:Hload.
  - destruct (Session.should_refresh (Some c)) eqn:Hr.
    + destruct (Session.refresh lib c) as [c' | e] eqn:Hrefresh.
      * destruct (Session.build lib (Some c'));
          cbn [fst snd Session._gmail_service Session.token_file];
          (split; [intros e1 H; try discriminate H; auto |]);
          right; exists content, c, c'; auto.
      * cbn [fst snd]. rewrite Hc. split; [auto | left; exact Hf].
    + destruct (Session.build lib (Some c));
        cbn [fst snd Session._gmail_service Session.token_file]; rewrite ?Hc;
        (split; [intros e1 H; try discriminate H; auto | left; exact Hf]).
  - destruct (Session.build lib None);
      cbn [fst snd Session._gmail_service Session.token_file]; rewrite ?Hc;
      (split; [intros e1 H; try discriminate H; auto | left; exact Hf]).
  - cbn [fst snd]. rewrite Hc. split; [auto | left; exact Hf].
Qed.

Lemma call_tool_without_service (rt : Runtime)
    (as_bytes : MIMEMessage -> outcome (list Byte.byte))
    (e : exn) (op : Operation) (log : list Call) :
  call_tool rt (Raise e) as_bytes op log = (Return (_handle_api_error e), log).
Proof. destruct op; reflexivity. Qed.

(** X22. In a process with no handle yet and no token file, every operation
    returns the text that the token was not found at the path, as it is and
    with no [Error: ] in front, and issues no remote call. *)
Theorem no_token_file_no_call (rt : Runtime) (lib : Session.Library) (path : string)
    (as_bytes : MIMEMessage -> outcome (list Byte.byte))
    (st : Session.Process) (op : Operation) (log : list Call) :
  Session._gmail_service st = None ->
  Session.token_file st = None ->
  call_tool rt (fst (Session.get_gmail_service lib path st)) as_bytes op log =
    (Return ("Gmail token not found at " +:+ path +:+ ". " +:+
             "Please provide a valid gmail_token.pickle file."),
     log).
Proof.
  intros Hc Hf. unfold Session.get_gmail_service. rewrite Hc, Hf. simpl.
  apply call_tool_without_service.
Qed.

Lemma no_token_file_no_call_witness :
  call_tool cpython
    (fst (Session.get_gmail_service demo_library "/srv/gmail_token.pickle"
            {| Session._gmail_service := None; Session.token_file := None |}))
    demo_as_bytes
    (gmail_delete_emails {| DeleteEmailsInput.message_ids := ["m1"] |}) [] =
  (Return ("Gmail token not found at " +:+ "/srv/gmail_token.pickle" +:+ ". " +:+
           "Please provide a valid gmail_token.pickle file."),
   []).
Proof.
  apply (no_token_file_no_call cpython demo_library "/srv/gmail_token.pickle" demo_as_bytes
           {| Session._gmail_service := None; Session.token_file := None |}
           (gmail_delete_emails {| DeleteEmailsInput.message_ids := ["m1"] |}) []).
  - reflexivity.
  - reflexivity.
Defined.

(** An expired token is refreshed and written back before the handle is
    built. *)
Example get_gmail_service_refreshes :
  Session.get_gmail_service demo_library "/srv/gmail_token.pickle"
    {| Session._gmail_service := None; Session.token_file := Some [Byte.x02] |} =
  (Return demo_service,
   {| Session._gmail_service := Some demo_service;
      Session.token_file := Some [Byte.x01] |}).
Proof. reflexivity. Qed.

(** ** The authentication script *)

(** X23. With the client secrets file in place and a token file that holds
    valid credentials, [authenticate] reports that it is already
    authenticated and leaves the token file as it is: nothing is refreshed,
    no flow is started, nothing is written. *)
Theorem authenticate_keeps_valid_token (lib : Session.Library) (files : Session.Files)
    (content : list Byte.byte) (c : Session.Credentials) :
  Session.credentials_file_exists files = true ->
  Session.token files = Some content ->
  Session.pickle_load lib content = Return (Some c) ->
  Session.valid c = true ->
  Session.authenticate lib files =
    {| Session.ended := Return tt;
       Session.printed := ["✓ Already authenticated!"; "Token file: gmail_token.pickle"];
       Session.token_left := Some content |}.
Proof.
  intros Hexists Htoken Hload Hvalid. unfold Session.authenticate.
  rewrite Hexists, Htoken, Hload. simpl. rewrite Hvalid. reflexivity.
Qed.

Lemma authenticate_keeps_valid_token_witness :
  Session.authenticate demo_library
    {| Session.credentials_file_exists := true; Session.token := Some [Byte.x01] |} =
  {| Session.ended := Return tt;
     Session.printed := ["✓ Already authenticated!"; "Token file: gmail_token.pickle"];
     Session.token_left := Some [Byte.x01] |}.
Proof.
  apply (authenticate_keeps_valid_token demo_library
           {| Session.credentials_file_exists := true; Session.token := Some [Byte.x01] |}
           [Byte.x01]
           {| Session.valid := true; Session.expired := false;
              Session.refresh_token := Some "1//refresh" |}).
  - reflexivity.
  - reflexivity.
  - reflexivity.
  - reflexivity.
Defined.

(** X24. Whatever the files and the library do, [authenticate] either leaves
    the token file as it found it, or ends normally having written the dump
    of credentials that the local flow has just given or that a refresh of
    the loaded credentials has just given; it writes only when the client
    secrets file exists, and never after an exception. *)
Theorem authenticate_writes_what_it_obtained (lib : Session.Library) (files : Session.Files) :
  let run := Session.authenticate lib files in
  Session.token_left run = Session.token files \/
  (Session.credentials_file_exists files = true /\
   Session.ended run = Return tt /\
   exists c,
     Session.token_left run = Some (Session.pickle_dump lib c) /\
     (Session.run_local_server lib = Return c \/
      exists content c0,
        Session.token files = Some content /\
        Session.pickle_load lib content = Return (Some c0) /\
        Session.valid c0 = false /\
        Session.should_refresh (Some c0) = true /\
        Session.refresh lib c0 = Return c)).
Proof.
  unfold Session.authenticate. cbv zeta.
  destruct (Session.credentials_file_exists files) eqn:Hexists; cbn [negb];
    [| left; reflexivity].
  assert (Hflow : forall creds,
            (creds = None \/ exists c0, creds = Some c0 /\ Session.should_refresh creds = false) ->
            let run := Session.obtain_and_save lib files creds in
            Session.token_left run = Session.token files \/
            (Session.ended run = Return tt /\
             exists c, Session.token_left run = Some (Session.pickle_dump lib c) /\
                       Session.run_local_server lib = Return c)).
  { intros creds Hcreds. unfold Session.obtain_and_save.
    destruct Hcreds as [-> | (c0 & -> & ->)];
      (destruct (Session.run_local_server lib) as [c |];
       [right; split; [reflexivity | exists c; split; reflexivity] | left; reflexivity]). }
  destruct (Session.token files) as [content |] eqn:Htoken.
  - destruct (Session.pickle_load lib content) as [[c0 |] | e] eqn:Hload;
      [| | left; reflexivity].
    + cbn [Session.needs_authentication].
      destruct (Session.valid c0) eqn:Hvalid; cbn [negb]; [left; reflexivity |].
      destruct (Session.should_refresh (Some c0)) eqn:Hr.
      * unfold Session.obtain_and_save. rewrite Hr.
        destruct (Session.refresh lib c0) as [c |] eqn:Hrefresh;
          [| left; exact Htoken].
        right. split; [reflexivity |]. split; [reflexivity |].
        exists c. split; [reflexivity |].
        right. exists content, c0. auto.
      * destruct (Hflow (Some c0)) as [Hleft | (Hend & c & Hc & Hrun)];
          [right; exists c0; auto | left; exact Hleft |].
        right. split; [reflexivity |]. split; [exact Hend |].
        exists c. auto.
    + cbn [Session.needs_authentication].
      destruct (Hflow None) as [Hleft | (Hend & c & Hc & Hrun)];
        [left; reflexivity | left; exact Hleft |].
      right. split; [reflexivity |]. split; [exact Hend |].
      exists c. auto.
  - cbn [Session.needs_authentication].
    destruct (Hflow None) as [Hleft | (Hend & c & Hc & Hrun)];
      [left; reflexivity | left; exact Hleft |].
    right. split; [reflexivity |]. split; [exact Hend |].
    exists c. auto.
Qed.

(** An expired token is refreshed without the flow, and no token starts the
    flow. *)
Example authenticate_refreshes :
  Session.authenticate demo_library
    {| Session.credentials_file_exists := true; Session.token := Some [Byte.x02] |} =
  {| Session.ended := Return tt;
     Session.printed := ["Refreshing expired token...";
                         LF +:+ "✓ Token saved to gmail_token.pickle";
                         "Upload this file to Claude to complete setup!"];
     Session.token_left := Some [Byte.x01] |}.
Proof. reflexivity. Qed.

Example authenticate_without_client_secrets :
  Session.token_left
    (Session.authenticate demo_library
       {| Session.credentials_file_exists := false; Session.token := Some [Byte.x02] |}) =
  Some [Byte.x02].
Proof. reflexivity. Qed.

(** ** A failure in the middle of modify_labels *)

(** X25. When the labels are listed, every requested name resolves and the
    call for one message fails, [modify_labels] returns the string of the
    classifier for that failure: the messages before it keep their new
    labels, the messages after it get no call, and the result does not tell
    which were modified. *)
Theorem modify_labels_stops_at_first_failure (service : Service)
    (params : ModifyLabelsInput.t) (log : list Call) (labels : option (list Label))
    (add_label_ids remove_label_ids : list string)
    (done : list string) (failed : string) (rest : list string)
    (ys : list unit) (e : exn) :
  let label_map := build_label_map (default [] labels) in
  let body := modify_body add_label_ids remove_label_ids in
  let call := fun i => users_messages_modify i body in
  labels_list service log = Return labels ->
  resolved label_map (default [] (ModifyLabelsInput.add_labels params)) add_label_ids ->
  resolved label_map (default [] (ModifyLabelsInput.remove_labels params)) remove_label_ids ->
  add_label_ids ++ remove_label_ids <> [] ->
  ModifyLabelsInput.message_ids params = done ++ failed :: rest ->
  answered (fun log i => messages_modify service log i body) call
           (log ++ [users_labels_list]) done ys ->
  messages_modify service ((log ++ [users_labels_list]) ++ map call done) failed body = Raise e ->
  modify_labels (Return service) params log =
    (Return (_handle_api_error e),
     (log ++ [users_labels_list]) ++ map call (done ++ [failed])).
Proof.
  intros label_map body call Hlist Hadd Hrem Hsome Hids Hans Hfail.
  unfold modify_labels, modify_labels_try. run_to_listing Hlist.
  fold label_map. rewrite !resolve_optional_loop.
  rewrite (resolve_labels_resolved label_map _ add_label_ids [] Hadd).
  rewrite (resolve_labels_resolved label_map _ remove_label_ids [] Hrem).
  cbn [app]. fold body.
  assert (Hbody : body_is_empty body = false).
  { unfold body, modify_body, body_is_empty.
    destruct add_label_ids, remove_label_ids; try reflexivity. contradiction Hsome. reflexivity. }
  rewrite Hbody, Hids.
  rewrite (modify_each_stops service body done failed rest 0 _ ys e Hans Hfail).
  reflexivity.
Qed.

Lemma modify_labels_stops_at_first_failure_witness :
  modify_labels (Return demo_service)
    {| ModifyLabelsInput.message_ids := ["m1"; "m2"; "m3"];
       ModifyLabelsInput.add_labels := Some ["Work"];
       ModifyLabelsInput.remove_labels := Some ["INBOX"] |} [] =
  (Return "Error: Resource not found. Please check the ID is correct.",
   [users_labels_list;
    users_messages_modify "m1" {| addLabelIds := Some ["Label_1"]; removeLabelIds := Some ["INBOX"] |};
    users_messages_modify "m2" {| addLabelIds := Some ["Label_1"]; removeLabelIds := Some ["INBOX"] |}]).
Proof.
  apply (modify_labels_stops_at_first_failure demo_service
           {| ModifyLabelsInput.message_ids := ["m1"; "m2"; "m3"];
              ModifyLabelsInput.add_labels := Some ["Work"];
              ModifyLabelsInput.remove_labels := Some ["INBOX"] |}
           [] (Some inbox_and_work) ["Label_1"] ["INBOX"]
           ["m1"] "m2" ["m3"] [tt] (HttpError 404 None)).
  - reflexivity.
  - repeat constructor.
  - repeat constructor.
  - discriminate.
  - reflexivity.
  - repeat constructor.
  - reflexivity.
Defined.
